(** * demusc: spectrogram source separation -- model, loss and training loop

    A shallow embedding of the notebooks of the repository:
    - [Torch]: the fragment of the tensor library the notebooks call
      (shapes, row-major indexing, broadcasting, reductions);
    - [SpectrogramSeparator]: the model's [forward];
    - [SI_SDR_Loss]: the loss's [forward];
    - [Training]: the epoch loops, gradient accumulation and checkpointing;
    - [Data]: the dataset wrapper.

    Tensor elements are real numbers: the development reasons about the
    exact arithmetic the float code approximates.  A division by zero or a
    logarithm of a non-positive number (which the float code turns into
    inf or NaN) is an explicit [NonFinite] outcome. *)

From Stdlib Require Import Reals Lra ZArith QArith Lia List String Ascii.
From stdpp Require Import base option list gmap strings.
Import ListNotations.
Local Open Scope Z_scope.

(* ================================================================== *)
(** * Part I: definitions *)
(* ================================================================== *)

(** Errors propagate: the error monad on [E + _]. *)
#[global] Instance sum_bind {E} : MBind (sum E) := fun A B k r =>
  match r with
  | inl e => inl e
  | inr a => k a
  end.

(** ** The tensor library, as far as the notebooks use it *)

Module Torch.

(** A tensor is a shape and a row-major buffer.  The buffer is a function of
    the flat index; only indices in [0, numel shape) are meaningful. *)
Record Tensor := mkTensor { shape : list Z; data : Z -> R }.

Definition numel (s : list Z) : Z := fold_right Z.mul 1 s.

(** Flat index to multi-index and back (row-major, contiguous). *)
Fixpoint unravel (s : list Z) (i : Z) : list Z :=
  match s with
  | [] => []
  | _ :: s' => i / numel s' :: unravel s' (i mod numel s')
  end.

Fixpoint ravel (s idx : list Z) : Z :=
  match s, idx with
  | _ :: s', j :: idx' => j * numel s' + ravel s' idx'
  | _, _ => 0
  end.

(** Sum of [f 0 .. f (n-1)]. *)
Definition Rsum (l : list R) : R := fold_right Rplus 0%R l.
Definition zsum (n : Z) (f : Z -> R) : R := Rsum (f <$> seqZ 0 n).

(** [all_upto n p]: [p] holds of every flat index below [n]. *)
Definition all_upto (n : Z) (p : Z -> bool) : bool := forallb p (seqZ 0 n).

(** *** Outcomes of a library call *)

Inductive Error :=
| ShapeError   (* the library raises: shapes do not fit *)
| NonFinite.   (* the float result would be inf or NaN *)

Abbreviation result := (sum Error).

Definition shaped {A} (o : option A) : result A :=
  match o with
  | Some a => inr a
  | None => inl ShapeError
  end.

(** [a, b, c, d = t.shape]: unpacking needs exactly four axes. *)
Definition unpack4 (s : list Z) : option (Z * Z * Z * Z) :=
  match s with
  | [a; b; c; d] => Some (a, b, c, d)
  | _ => None
  end.

(** *** Views: reshape, unsqueeze, permute, expand, slicing *)

(** The size inference of [reshape] / [view], with at most one [-1]. *)
Definition infer_size (dims : list Z) (n : Z) : option (list Z) :=
  if existsb (fun d => d <? -1) dims then None
  else
    let holes := length (List.filter (fun d => d =? -1) dims) in
    let newsize := numel (List.filter (fun d => negb (d =? -1)) dims) in
    match holes with
    | O => if n =? newsize then Some dims else None
    | S O =>
        if (n =? newsize) || ((0 <? newsize) && (n mod newsize =? 0)) then
          if newsize =? 0 then None
          else Some (map (fun d => if d =? -1 then n / newsize else d) dims)
        else None
    | _ => None
    end.

Definition reshape (dims : list Z) (t : Tensor) : option Tensor :=
  s' ← infer_size dims (numel (shape t));
  Some (mkTensor s' (data t)).

Definition unsqueeze (d : Z) (t : Tensor) : option Tensor :=
  let r := Z.of_nat (length (shape t)) in
  let d' := if d <? 0 then d + r + 1 else d in
  if (0 <=? d') && (d' <=? r) then
    Some (mkTensor (take (Z.to_nat d') (shape t) ++ 1 :: drop (Z.to_nat d') (shape t))
                   (data t))
  else None.

Fixpoint index_of (a : Z) (p : list Z) : nat :=
  match p with
  | [] => O
  | b :: p' => if a =? b then O else S (index_of a p')
  end.

Definition is_perm (p : list Z) (r : nat) : bool :=
  (length p =? r)%nat && forallb (fun a => existsb (Z.eqb a) p) (seqZ 0 (Z.of_nat r)).

(** [permute p t]: axis [k] of the result is axis [p_k] of [t]. *)
Definition permute_index (p idx' : list Z) : list Z :=
  map (fun a => nth (index_of a p) idx' 0) (seqZ 0 (Z.of_nat (length p))).

Definition permute (p : list Z) (t : Tensor) : option Tensor :=
  let s := shape t in
  if is_perm p (length s) then
    let s' := map (fun a => nth (Z.to_nat a) s 0) p in
    Some (mkTensor s' (fun i => data t (ravel s (permute_index p (unravel s' i)))))
  else None.

(** Broadcasting: shapes are aligned at the last axis; an axis of size 1
    is repeated. *)
Fixpoint broadcast_rev (r1 r2 : list Z) : option (list Z) :=
  match r1, r2 with
  | [], r => Some r
  | r, [] => Some r
  | d1 :: r1', d2 :: r2' =>
      if d1 =? d2 then cons d1 <$> broadcast_rev r1' r2'
      else if d1 =? 1 then cons d2 <$> broadcast_rev r1' r2'
      else if d2 =? 1 then cons d1 <$> broadcast_rev r1' r2'
      else None
  end.

Definition broadcast_shapes (s1 s2 : list Z) : option (list Z) :=
  @rev Z <$> broadcast_rev (rev s1) (rev s2).

(** The flat index, in an operand of shape [s], of the element that lands
    at flat index [i] of the broadcast result of shape [out]. *)
Definition bcast_index (out s : list Z) (i : Z) : Z :=
  let idx := drop (length out - length s) (unravel out i) in
  ravel s (zip_with (fun d j => if d =? 1 then 0 else j) s idx).

Fixpoint expand_rev (sizes dims : list Z) : option (list Z) :=
  match sizes, dims with
  | [], [] => Some []
  | [], _ :: _ => None
  | z :: sizes', [] =>
      if 0 <=? z then cons z <$> expand_rev sizes' [] else None
  | z :: sizes', d :: dims' =>
      if (z =? -1) || (z =? d) then cons d <$> expand_rev sizes' dims'
      else if (d =? 1) && (0 <=? z) then cons z <$> expand_rev sizes' dims'
      else None
  end.

Definition expand (sizes : list Z) (t : Tensor) : option Tensor :=
  s' ← @rev Z <$> expand_rev (rev sizes) (rev (shape t));
  Some (mkTensor s' (fun i => data t (bcast_index s' (shape t) i))).

(** [t[:stop]]: the leading rows of [t]. *)
Definition slice_to (stop : Z) (t : Tensor) : option Tensor :=
  match shape t with
  | [] => None
  | n :: s' =>
      let stop' := if stop <? 0 then Z.max 0 (n + stop) else Z.min stop n in
      Some (mkTensor (stop' :: s') (data t))
  end.

(** *** Elementwise operations *)

Definition map_t (f : R -> R) (t : Tensor) : Tensor :=
  mkTensor (shape t) (fun i => f (data t i)).

Definition binop (f : R -> R -> R) (a b : Tensor) : option Tensor :=
  s ← broadcast_shapes (shape a) (shape b);
  Some (mkTensor s (fun i => f (data a (bcast_index s (shape a) i))
                               (data b (bcast_index s (shape b) i)))).

Definition add := binop Rplus.
Definition sub := binop Rminus.
Definition mul := binop Rmult.

Definition nonzero (x : R) : bool := if Req_dec_T x 0 then false else true.
Definition positive (x : R) : bool := if Rlt_dec 0 x then true else false.

(** Elementwise division; a zero divisor makes the result non-finite. *)
Definition div (a b : Tensor) : result Tensor :=
  q ← shaped (binop Rdiv a b);
  if all_upto (numel (shape q))
       (fun i => nonzero (data b (bcast_index (shape q) (shape b) i)))
  then inr q else inl NonFinite.

Definition Rlog10 (x : R) : R := (ln x / ln 10)%R.

(** Elementwise [log10]; defined on positive arguments. *)
Definition log10 (t : Tensor) : result Tensor :=
  if all_upto (numel (shape t)) (fun i => positive (data t i))
  then inr (map_t Rlog10 t) else inl NonFinite.

Definition add_scalar (t : Tensor) (c : R) : Tensor := map_t (fun x => x + c)%R t.
Definition scalar_mul (c : R) (t : Tensor) : Tensor := map_t (fun x => c * x)%R t.
Definition neg (t : Tensor) : Tensor := map_t Ropp t.
Definition pow2 (t : Tensor) : Tensor := map_t (fun x => x ^ 2)%R t.
Definition relu (t : Tensor) : Tensor := map_t (Rmax 0) t.

(** *** Reductions over the last axis ([dim=-1]) and over everything *)

Definition sum_last (keepdim : bool) (t : Tensor) : option Tensor :=
  match rev (shape t) with
  | [] => None
  | m :: r =>
      Some (mkTensor (rev r ++ (if keepdim then [1] else []))
                     (fun i => zsum m (fun j => data t (i * m + j))))
  end.

Definition mean_last (keepdim : bool) (t : Tensor) : result Tensor :=
  match rev (shape t) with
  | [] => inl ShapeError
  | m :: r =>
      if m =? 0 then inl NonFinite
      else inr (mkTensor (rev r ++ (if keepdim then [1] else []))
                         (fun i => (zsum m (fun j => data t (i * m + j)) / IZR m)%R))
  end.

(** [t.mean()]: the mean of all the elements, a scalar. *)
Definition mean_all (t : Tensor) : result R :=
  let n := numel (shape t) in
  if n =? 0 then inl NonFinite else inr (zsum n (data t) / IZR n)%R.

(** *** Reading a tensor by rows

    [repr2 t n m g]: [t] is an (n, m) matrix whose element (r, j) is [g r j];
    [repr1 t n h]: [t] is a vector of [n] elements [h r];
    [row m t r]: row [r] of [t] read as a matrix of width [m]. *)
Definition repr2 (t : Tensor) (n m : Z) (g : Z -> Z -> R) : Prop :=
  shape t = [n; m] /\
  forall r j, 0 <= r < n -> 0 <= j < m -> data t (r * m + j) = g r j.

Definition repr1 (t : Tensor) (n : Z) (h : Z -> R) : Prop :=
  shape t = [n] /\ forall r, 0 <= r < n -> data t r = h r.

Definition row (m : Z) (t : Tensor) (r : Z) : list R :=
  (fun j => data t (r * m + j)) <$> seqZ 0 m.

(** *** Layers: the shape rule of the library, the numerics left open *)

Definition layer (rule : list Z -> option (list Z)) (out : Tensor -> Z -> R)
    (t : Tensor) : option Tensor :=
  s' ← rule (shape t);
  Some (mkTensor s' (out t)).

(** [nn.Conv2d(in_c, out_c, kernel_size=k, padding=p)], stride 1. *)
Definition conv2d_shape (in_c out_c k p : Z) (s : list Z) : option (list Z) :=
  match s with
  | [n; c; h; w] =>
      if (c =? in_c) && (k <=? h + 2 * p) && (k <=? w + 2 * p)
      then Some [n; out_c; h + 2 * p - k + 1; w + 2 * p - k + 1] else None
  | [c; h; w] =>
      if (c =? in_c) && (k <=? h + 2 * p) && (k <=? w + 2 * p)
      then Some [out_c; h + 2 * p - k + 1; w + 2 * p - k + 1] else None
  | _ => None
  end.

(** [nn.BatchNorm2d(c)]: a 4-D input with [c] channels, shape kept.  A
    module in training mode computes the statistics of the batch and refuses
    a batch with a single value per channel ([ValueError: Expected more than
    1 value per channel when training]); in evaluation mode it uses the
    running statistics and accepts it. *)
Definition batchnorm2d_shape (training : bool) (c : Z) (s : list Z) : option (list Z) :=
  match s with
  | [n; c'; h; w] =>
      if training && (n * h * w =? 1) then None
      else if c' =? c then Some s else None
  | _ => None
  end.

(** [nn.Linear(in_f, out_f)]: acts on the last axis. *)
Definition linear_shape (in_f out_f : Z) (s : list Z) : option (list Z) :=
  match rev s with
  | [] => None
  | m :: r => if m =? in_f then Some (rev r ++ [out_f]) else None
  end.

(** [nn.TransformerEncoder] with [batch_first=True]: (N, T, E) or (T, E)
    with [E = d_model], shape kept. *)
Definition encoder_shape (d_model : Z) (s : list Z) : option (list Z) :=
  match s with
  | [_; _; e] | [_; e] => if e =? d_model then Some s else None
  | _ => None
  end.

(** [nn.TransformerDecoder] with [batch_first=True]: target and memory share
    the batch size and have [d_model] features; the result is shaped like the
    target. *)
Definition decoder_shape (d_model : Z) (tgt mem : list Z) : option (list Z) :=
  match tgt, mem with
  | [n; _; e], [n'; _; e'] =>
      if (e =? d_model) && (e' =? d_model) && (n =? n') then Some tgt else None
  | [_; e], [_; e'] =>
      if (e =? d_model) && (e' =? d_model) then Some tgt else None
  | _, _ => None
  end.

End Torch.

(** ** The separation model (class [SpectrogramSeparator]) *)

Module SpectrogramSeparator.
Import Torch.

(** The library layers the constructor instantiates. *)
Inductive Layer :=
| Conv1 | BatchNorm1 | Conv2 | BatchNorm2 | Conv3 | BatchNorm3
| FlattenProj | TransformerEncoder | OutputLinear.

(** The learned numerics: what each layer computes from its input, and the
    two parameter tables.  Nothing is assumed about them. *)
Record Weights := {
  layer_out : Layer -> Tensor -> Z -> R;
  decoder_out : Tensor -> Tensor -> Z -> R;
  pos_encoding_data : Z -> R;
  source_queries_data : Z -> R
}.

(** The attributes [__init__] stores, and the [training] flag every
    [nn.Module] carries: set at construction, switched by [model.train()]
    and [model.eval()]. *)
Record Model := {
  n_mels : Z;
  seq_len : Z;
  n_sources : Z;
  d_model : Z;
  nhead : Z;
  num_layers : Z;
  training : bool;
  weights : Weights
}.

(** [SpectrogramSeparator()] with the defaults of the optimized notebook
    ([seq_len=800]) and of the unnamed notebook ([seq_len=20000]). *)
Definition init_optimized (w : Weights) : Model :=
  {| n_mels := 128; seq_len := 800; n_sources := 4; d_model := 256;
     nhead := 8; num_layers := 4; training := true; weights := w |}.


(** [model.train()] and [model.eval()]. *)
Definition set_training (mode : bool) (self : Model) : Model :=
  {| n_mels := n_mels self; seq_len := seq_len self; n_sources := n_sources self;
     d_model := d_model self; nhead := nhead self; num_layers := num_layers self;
     training := mode; weights := weights self |}.

Definition train : Model -> Model := set_training true.
Definition eval : Model -> Model := set_training false.

(** For the examples: a model built for one frequency bin and one time
    frame, [SpectrogramSeparator(n_mels=1, seq_len=1)]. *)
Definition init_single (w : Weights) : Model :=
  {| n_mels := 1; seq_len := 1; n_sources := 4; d_model := 256;
     nhead := 8; num_layers := 4; training := true; weights := w |}.

(** An untrained stand-in used in the examples: every numeric is zero. *)
Definition zero_weights : Weights :=
  {| layer_out := fun _ _ _ => 0%R; decoder_out := fun _ _ _ => 0%R;
     pos_encoding_data := fun _ => 0%R; source_queries_data := fun _ => 0%R |}.

(** The places in [forward] where the library can raise. *)
Inductive Stage :=
| AtInput | AtUnsqueeze | AtConvEncoder | AtPermute | AtFlatten
| AtFlattenProj | AtPosEncoding | AtEncoder | AtQueryExpand | AtQueryReshape
| AtMemoryExpand | AtMemoryReshape | AtDecoder | AtOutputProj
| AtOutputReshape.

Definition at_stage {A} (st : Stage) (o : option A) : Stage + A :=
  match o with
  | Some a => inr a
  | None => inl st
  end.

Section Forward.

Variable self : Model.

Let out := layer_out (weights self).

Definition conv_encoder (x : Tensor) : option Tensor :=
  x ← layer (conv2d_shape 1 32 3 1) (out Conv1) x;
  x ← layer (batchnorm2d_shape (training self) 32) (out BatchNorm1) x;
  x ← Some (relu x);
  x ← layer (conv2d_shape 32 64 3 1) (out Conv2) x;
  x ← layer (batchnorm2d_shape (training self) 64) (out BatchNorm2) x;
  x ← Some (relu x);
  x ← layer (conv2d_shape 64 128 3 1) (out Conv3) x;
  x ← layer (batchnorm2d_shape (training self) 128) (out BatchNorm3) x;
  Some (relu x).

Definition flatten_proj : Tensor -> option Tensor :=
  layer (linear_shape (128 * n_mels self) (d_model self)) (out FlattenProj).

Definition pos_encoding : Tensor :=
  mkTensor [seq_len self; d_model self] (pos_encoding_data (weights self)).

Definition transformer_encoder : Tensor -> option Tensor :=
  layer (encoder_shape (d_model self)) (out TransformerEncoder).

Definition transformer_decoder (tgt memory : Tensor) : option Tensor :=
  s' ← decoder_shape (d_model self) (shape tgt) (shape memory);
  Some (mkTensor s' (decoder_out (weights self) tgt memory)).

Definition source_queries : Tensor :=
  mkTensor [n_sources self; seq_len self; d_model self]
           (source_queries_data (weights self)).

Definition output_proj (x : Tensor) : option Tensor :=
  x ← layer (linear_shape (d_model self) (n_mels self)) (out OutputLinear) x;
  Some (relu x).

Definition forward (x : Tensor) : Stage + Tensor :=
  B ← at_stage AtInput (shape x !! 0%nat);
  x ← at_stage AtUnsqueeze (unsqueeze 1 x);
  x ← at_stage AtConvEncoder (conv_encoder x);
  x ← at_stage AtPermute (permute [0; 3; 1; 2] x);
  '(B, T, C, M) ← at_stage AtPermute (unpack4 (shape x));
  x ← at_stage AtFlatten (reshape [B; T; C * M] x);
  x ← at_stage AtFlattenProj (flatten_proj x);
  x ← at_stage AtPosEncoding ((pe ← slice_to T pos_encoding; add x pe));
  memory ← at_stage AtEncoder (transformer_encoder x);
  queries ← at_stage AtQueryExpand (expand [B; -1; -1; -1] source_queries);
  S ← at_stage AtQueryExpand (shape queries !! 1%nat);
  queries ← at_stage AtQueryReshape (reshape [B * S; T; -1] queries);
  memory ← at_stage AtMemoryExpand
             (m ← unsqueeze 1 memory; expand [-1; S; -1; -1] m);
  memory ← at_stage AtMemoryReshape (reshape [B * S; T; -1] memory);
  output ← at_stage AtDecoder (transformer_decoder queries memory);
  output ← at_stage AtOutputProj (output_proj output);
  output ← at_stage AtOutputReshape (reshape [B; S; T; n_mels self] output);
  output ← at_stage AtOutputReshape (permute [0; 1; 3; 2] output);
  inr output.

End Forward.

End SpectrogramSeparator.

(** ** The loss (class [SI_SDR_Loss]) *)

Module SI_SDR_Loss.
Import Torch.

Record Loss := { eps : R }.

(** [SI_SDR_Loss()]: [eps=1e-8]. *)
Definition default_eps : R := (/ 100000000)%R.
Definition init : Loss := {| eps := default_eps |}.

Definition forward (self : Loss) (predictions targets : Tensor) : result R :=
  '(B, S', F, T) ← shaped (unpack4 (shape predictions));
  predictions ← shaped (reshape [B * S'; -1] predictions);
  targets ← shaped (reshape [B * S'; -1] targets);
  (* zero-mean normalization *)
  mean_p ← mean_last true predictions;
  predictions ← shaped (sub predictions mean_p);
  mean_t ← mean_last true targets;
  targets ← shaped (sub targets mean_t);
  (* SI-SDR *)
  pt ← shaped (mul predictions targets);
  dot ← shaped (sum_last true pt);
  tt ← shaped (sum_last true (pow2 targets));
  alpha ← div (add_scalar dot (eps self)) (add_scalar tt (eps self));
  scaled_target ← shaped (mul alpha targets);
  num ← shaped (sum_last false (pow2 scaled_target));
  residual ← shaped (sub predictions scaled_target);
  den ← shaped (sum_last false (pow2 residual));
  si_sdr ← div num (add_scalar den (eps self));
  si_sdr ← log10 (add_scalar si_sdr (eps self));
  m ← mean_all (scalar_mul 10 si_sdr);
  inr (- m)%R.

(** A two-sample signal (1, -1) as a (1, 1, 1, 2) tensor, for the examples. *)
Definition two_tone : Tensor :=
  mkTensor [1; 1; 1; 2] (fun i => if i =? 0 then 1 else -1)%R.

End SI_SDR_Loss.

(** ** The SI-SDR algorithm as the specification words it

    One (batch, source) pair at a time, on plain vectors; [forward] is
    compared with it in Part II. *)

Module SI_SDR_Spec.
Import Torch.

(** Element [(b, s, f, t)] of a 4-D tensor. *)
Definition get4 (x : Tensor) (b s f t : Z) : R :=
  data x (ravel (shape x) [b; s; f; t]).

(** "flatten each (batch, source) pair to a 1-D vector" *)
Definition flatten_pair (x : Tensor) (b s : Z) : list R :=
  match shape x with
  | [_; _; F; T] => f ← seqZ 0 F; t ← seqZ 0 T; [get4 x b s f t]
  | _ => []
  end.

Definition mean (v : list R) : R := (Rsum v / INR (length v))%R.

(** "subtract each vector's mean from it" *)
Definition zero_mean (v : list R) : list R := map (fun x => x - mean v)%R v.

Definition inner (u v : list R) : R := Rsum (zip_with Rmult u v).
Definition sqnorm (v : list R) : R := inner v v.
Definition scale (a : R) (v : list R) : list R := map (Rmult a) v.
Definition vsub (u v : list R) : list R := zip_with Rminus u v.

(** "alpha = (inner product of prediction and target + epsilon) /
     (squared norm of target + epsilon)" *)
Definition alpha (e : R) (p t : list R) : R :=
  ((inner p t + e) / (sqnorm t + e))%R.

(** "the ratio of the scaled target's energy to the energy of
     (prediction - scaled target) with epsilon added to the denominator" *)
Definition ratio (e : R) (p t : list R) : R :=
  let st := scale (alpha e p t) t in
  (sqnorm st / (sqnorm (vsub p st) + e))%R.

(** "10 * log10 of (ratio + epsilon)", on the zero-meaned vectors. *)
Definition score (e : R) (p t : list R) : R :=
  (10 * Rlog10 (ratio e (zero_mean p) (zero_mean t) + e))%R.

(** "the negated mean of these scores over all batch * source entries" *)
Definition si_sdr_loss (e : R) (predictions targets : Tensor) : R :=
  match shape predictions with
  | [B; S'; _; _] =>
      let scores :=
        b ← seqZ 0 B; s ← seqZ 0 S';
        [score e (flatten_pair predictions b s) (flatten_pair targets b s)] in
      (- (Rsum scores / INR (length scores)))%R
  | _ => 0%R
  end.

End SI_SDR_Spec.

(** ** Python-level outcomes shared by the loops and the dataset *)

Inductive PyError :=
| ZeroDivisionError
| UnboundLocalError
| IndexError
| TypeError
| ValueError (msg : string).   (* what a validation check would raise *)

(** A [for] loop over indices whose body may raise. *)
Fixpoint for_each {E St} (body : St -> Z -> E + St) (s : St) (l : list Z) : E + St :=
  match l with
  | [] => inr s
  | i :: l' => s' ← body s i; for_each body s' l'
  end.

(** ** The training loops *)

Module Training.

(** The floats the loops compare: a loss value or [float('inf')]. *)
Inductive pyfloat := Fin (q : Q) | Inf.

Definition float_lt (a b : pyfloat) : bool :=
  match a, b with
  | Fin x, Fin y => negb (Qle_bool y x)
  | Fin _, Inf => true
  | Inf, _ => false
  end.

(** [a % b] on Python integers. *)
Definition py_mod (a b : Z) : PyError + Z :=
  if b =? 0 then inl ZeroDivisionError else inr (a mod b).

(** [total / count] with a float numerator and an integer count. *)
Definition py_div (total : Q) (count : Z) : PyError + Q :=
  if count =? 0 then inl ZeroDivisionError else inr (total / inject_Z count)%Q.

(** The optimizer together with the gradients it owns.  A gradient
    contribution is named by the (epoch, batch index) it comes from:
    [grad] holds the contributions summed into the [.grad] buffers, [steps]
    the gradient each parameter update applied, [scaler_updates] the number
    of [scaler.update()] calls. *)
Record Optimizer := {
  grad : list (Z * Z);
  steps : list (list (Z * Z));
  scaler_updates : Z
}.

Definition fresh : Optimizer := {| grad := []; steps := []; scaler_updates := 0 |}.

Definition zero_grad (o : Optimizer) : Optimizer :=
  {| grad := []; steps := steps o; scaler_updates := scaler_updates o |}.

Definition backward (c : Z * Z) (o : Optimizer) : Optimizer :=
  {| grad := grad o ++ [c]; steps := steps o; scaler_updates := scaler_updates o |}.

Definition step (o : Optimizer) : Optimizer :=
  {| grad := grad o; steps := steps o ++ [grad o]; scaler_updates := scaler_updates o |}.

Definition scaler_update (o : Optimizer) : Optimizer :=
  {| grad := grad o; steps := steps o; scaler_updates := scaler_updates o + 1 |}.

(** What [torch.save] receives; the two state dictionaries are determined
    by the parameter updates applied so far. *)
Inductive Value :=
| VInt (z : Z)
| VFloat (x : pyfloat)
| VModelState (updates : list (list (Z * Z)))
| VOptimizerState (updates : list (list (Z * Z))).

Definition model_state_dict (o : Optimizer) : Value := VModelState (steps o).
Definition optimizer_state_dict (o : Optimizer) : Value := VOptimizerState (steps o).

(** The files on disk: path to saved dictionary. *)
Abbreviation Dict := (gmap string Value).
Abbreviation Files := (gmap string (gmap string Value)).

Definition torch_save (d : Dict) (path : string) (fs : Files) : Files :=
  <[path := d]> fs.

(** [os.path.join] of two components. *)
Fixpoint ends_with_slash (s : string) : bool :=
  match s with
  | EmptyString => false
  | String c EmptyString => Ascii.eqb c "/"%char
  | String _ s' => ends_with_slash s'
  end.

Definition starts_with_slash (s : string) : bool :=
  match s with
  | String c _ => Ascii.eqb c "/"%char
  | EmptyString => false
  end.

Definition path_join (dir file : string) : string :=
  if starts_with_slash file then file
  else if String.eqb dir "" || ends_with_slash dir then dir +:+ file
  else dir +:+ "/" +:+ file.

(** The state the loops thread through the epochs; [writes] logs the epochs
    at which [torch.save] was called. *)
Record Run := {
  optimizer : Optimizer;
  best_loss : pyfloat;
  files : Files;
  writes : list Z
}.

Definition start (fs : Files) : Run :=
  {| optimizer := fresh; best_loss := Inf; files := fs; writes := [] |}.

(** *** [train_model] of the optimized notebook *)

Section Optimized.

Variable results_dir : string.
Variable num_epochs : Z.
Variable gradient_accumulation_steps : Z.
Variable use_amp : bool.
Variable train_batches : Z.            (* len(train_loader) *)
Variable test_batches : Z.             (* len(test_loader) *)
Variable test_loss_of : Z -> Z -> Q.   (* epoch, batch: criterion(...).item() *)

Definition apply_step (o : Optimizer) : Optimizer :=
  if use_amp then zero_grad (scaler_update (step o)) else zero_grad (step o).

(** The body of the batch loop: backward, then a step every
    [gradient_accumulation_steps] batches. *)
Definition train_batch (epoch : Z) (o : Optimizer) (batch_idx : Z)
    : PyError + Optimizer :=
  let o := backward (epoch, batch_idx) o in
  r ← py_mod (batch_idx + 1) gradient_accumulation_steps;
  if r =? 0 then inr (apply_step o) else inr o.

Definition train_epoch (epoch : Z) (o : Optimizer) : PyError + Optimizer :=
  let o := zero_grad o in
  o ← for_each (train_batch epoch) o (seqZ 0 train_batches);
  (* [batch_idx] is the last index the loop bound, if any *)
  batch_idx ← (if 0 <? train_batches then inr (train_batches - 1)
               else inl UnboundLocalError);
  r ← py_mod (batch_idx + 1) gradient_accumulation_steps;
  if negb (r =? 0) then inr (apply_step o) else inr o.

Definition evaluate (epoch : Z) : PyError + Q :=
  let test_loss :=
    fold_left (fun acc b => (acc + test_loss_of epoch b)%Q) (seqZ 0 test_batches) 0%Q in
  py_div test_loss test_batches.

Definition checkpoint_path : string := path_join results_dir "models/model.pth".

Definition train_model_epoch (r : Run) (epoch : Z) : PyError + Run :=
  o ← train_epoch epoch (optimizer r);
  avg_test_loss ← evaluate epoch;
  if float_lt (Fin avg_test_loss) (best_loss r) then
    let best_loss := Fin avg_test_loss in
    inr {| optimizer := o; best_loss := best_loss;
           files := torch_save {[ "epoch" := VInt epoch;
                                  "model_state_dict" := model_state_dict o;
                                  "optimizer_state_dict" := optimizer_state_dict o;
                                  "loss" := VFloat best_loss ]}
                               checkpoint_path (files r);
           writes := writes r ++ [epoch] |}
  else
    inr {| optimizer := o; best_loss := best_loss r; files := files r;
           writes := writes r |}.

Definition train_model (fs : Files) : PyError + Run :=
  for_each train_model_epoch (start fs) (seqZ 0 num_epochs).

End Optimized.

(** The accumulation schedule, for reference: the batches of an epoch cut
    into consecutive groups of [k].  After [m] batches, [full_groups] are the
    groups already complete and [pending_group] the incomplete rest. *)
Definition batch_group (epoch first len : Z) : list (Z * Z) :=
  (fun b => (epoch, b)) <$> seqZ first len.

Definition full_groups (epoch k m : Z) : list (list (Z * Z)) :=
  (fun j => batch_group epoch (j * k) k) <$> seqZ 0 (m / k).

Definition pending_group (epoch k m : Z) : list (Z * Z) :=
  batch_group epoch (m / k * k) (m mod k).

(** The best (smallest) of a sequence of losses, [float('inf')] if empty. *)
Definition float_min (a b : pyfloat) : pyfloat := if float_lt b a then b else a.
Definition best_of (ls : list pyfloat) : pyfloat := fold_left float_min ls Inf.

(** The per-epoch validation losses of the checkpoint scenario:
    12.6, 11.2, 10.9, 10.9, 10.8, 13.4, 10.1, 10.0. *)
Definition scenario_losses : list Q :=
  [126 # 10; 112 # 10; 109 # 10; 109 # 10; 108 # 10; 134 # 10; 101 # 10; 100 # 10]%Q.

(** *** The loop of the two basic notebooks

    No accumulation and no validation pass: the mean training loss of the
    epoch is what is compared.  The notebooks differ in the dictionary they
    save. *)

Section Basic.

Variable num_epochs : Z.
Variable train_batches : Z.             (* len(train_loader) *)
Variable train_loss_of : Z -> Z -> Q.   (* epoch, batch: loss.item() *)
Variable saved : Z -> Optimizer -> pyfloat -> Dict.

Definition basic_batch (epoch : Z) (o : Optimizer) (batch_idx : Z)
    : PyError + Optimizer :=
  inr (step (backward (epoch, batch_idx) (zero_grad o))).

Definition basic_path : string := "../results/models/model.pth".

Definition basic_epoch (r : Run) (epoch : Z) : PyError + Run :=
  o ← for_each (basic_batch epoch) (optimizer r) (seqZ 0 train_batches);
  let epoch_loss :=
    fold_left (fun acc b => (acc + train_loss_of epoch b)%Q) (seqZ 0 train_batches) 0%Q in
  avg_loss ← py_div epoch_loss train_batches;
  if float_lt (Fin avg_loss) (best_loss r) then
    let best_loss := Fin avg_loss in
    inr {| optimizer := o; best_loss := best_loss;
           files := torch_save (saved epoch o best_loss) basic_path (files r);
           writes := writes r ++ [epoch] |}
  else
    inr {| optimizer := o; best_loss := best_loss r; files := files r;
           writes := writes r |}.

Definition basic_loop (fs : Files) : PyError + Run :=
  for_each basic_epoch (start fs) (seqZ 0 num_epochs).

End Basic.

(** The dictionary of the unnamed notebook ... *)
Definition saved_unnamed (epoch : Z) (o : Optimizer) (best_loss : pyfloat) : Dict :=
  {[ "epoch" := VInt epoch;
     "model_state_dict" := model_state_dict o;
     "optimizer_state_dict" := optimizer_state_dict o;
     "loss" := VFloat best_loss ]}.

(** ... and of [train_model.ipynb]. *)
Definition saved_train_model (epoch : Z) (o : Optimizer) (best_loss : pyfloat) : Dict :=
  {[ "model_state_dict" := model_state_dict o;
     "optimizer_state_dict" := optimizer_state_dict o ]}.

Definition loop_train_model n b l := basic_loop n b l saved_train_model.

End Training.

(** ** The dataset wrapper (class [SpectrogramDataset]) *)

Module Data.
Import Torch.

(** [len(t)] of a tensor: its leading size. *)
Definition len (t : Tensor) : PyError + Z :=
  match shape t with
  | [] => inl TypeError
  | n :: _ => inr n
  end.

(** [t[idx]] for an integer index, negative indices counting from the end. *)
Definition item (t : Tensor) (idx : Z) : PyError + Tensor :=
  match shape t with
  | [] => inl IndexError
  | n :: s' =>
      let i := if idx <? 0 then idx + n else idx in
      if (0 <=? i) && (i <? n)
      then inr (mkTensor s' (fun j => data t (i * numel s' + j)))
      else inl IndexError
  end.

Record SpectrogramDataset := { X : Tensor; y : Tensor }.

Definition init (X y : Tensor) : PyError + SpectrogramDataset :=
  inr {| X := X; y := y |}.

Definition length (self : SpectrogramDataset) : PyError + Z := len (X self).

Definition getitem (self : SpectrogramDataset) (idx : Z)
    : PyError + Tensor * Tensor :=
  x ← item (X self) idx;
  t ← item (y self) idx;
  inr (x, t).

(** What a loader does with the dataset: ask its length, then fetch the
    items in the sampler's order. *)
Fixpoint fetch (self : SpectrogramDataset) (order : list Z)
    : PyError + list (Tensor * Tensor) :=
  match order with
  | [] => inr []
  | i :: rest => p ← getitem self i; ps ← fetch self rest; inr (p :: ps)
  end.

Definition load (X y : Tensor) : PyError + list (Tensor * Tensor) :=
  ds ← init X y;
  n ← length ds;
  fetch ds (seqZ 0 n).

End Data.

(** ** What the preprocessing and the file-backed dataset can raise *)

Inductive Exception :=
| Raised (e : PyError)
| KeyError (key : string)
| RuntimeError (msg : string)
| FileNotFoundError (path : string).

(** A [for] loop over any list whose body may raise. *)
Fixpoint for_list {E A St} (body : St -> A -> E + St) (s : St) (l : list A) : E + St :=
  match l with
  | [] => inr s
  | a :: l' => s' ← body s a; for_list body s' l'
  end.

(** ** The dataset preparation notebook *)

Module Preprocessing.
Import Torch.

(** [int(x)]: truncation toward zero.  Products of an integer and a float
    are taken exactly; those of the notebook, [44100 * 0.9] and
    [SEGMENT_SAMPLES * 3], are exact in floating point as well. *)
Definition int (q : Q) : Z := Z.quot (Qnum q) (Z.pos (Qden q)).

Definition SAMPLE_RATE : Z := 44100.
Definition SEGMENT_DURATION : Q := 9 # 10.
Definition SEGMENT_SAMPLES : Z := int (inject_Z SAMPLE_RATE * SEGMENT_DURATION).
Definition N_FFT : Z := 2048.
Definition HOP_LENGTH : Z := 512.

(** A sample after the numpy arithmetic of the notebook: a real number, or
    the [nan] that [0/0] and the mean of nothing produce (numpy warns and
    goes on). *)
Inductive num := Num (x : R) | NaN.

Definition num_abs (a : num) : num :=
  match a with Num x => Num (Rabs x) | NaN => NaN end.

(** [np.max] propagates [nan]. *)
Definition num_max (a b : num) : num :=
  match a, b with Num x, Num y => Num (Rmax x y) | _, _ => NaN end.

(** [x / peak] where [peak] is the largest magnitude of the array [x] is
    taken from: a zero divisor then meets only zero samples, [0/0]. *)
Definition num_div (a peak : num) : num :=
  match a, peak with
  | Num x, Num m => if nonzero m then Num (x / m) else NaN
  | _, _ => NaN
  end.

(** The audio of a track as the loader hands it over: a two-dimensional
    array of finite samples.  [ncols] keeps the second size when there is no
    row. *)
Record matrix := { ncols : nat; rows : list (list R) }.

Definition well_formed (m : matrix) : Prop :=
  Forall (fun r => length r = ncols m) (rows m).

(** [m.T], of a well-formed matrix. *)
Definition transpose (m : matrix) : matrix :=
  {| ncols := length (rows m);
     rows := (fun j => (fun r => nth j r 0%R) <$> rows m) <$> seq 0 (ncols m) |}.

Inductive ndarray := Arr1 (v : list R) | Arr2 (m : matrix).

(** [np.mean] of one row. *)
Definition np_mean (r : list R) : num :=
  match r with
  | [] => NaN
  | _ => Num (Rsum r / INR (length r))
  end.

Definition stereo_to_mono (audio : ndarray) : list num :=
  match audio with
  | Arr1 v => Num <$> v
  | Arr2 m => np_mean <$> rows m
  end.

Definition normalize_audio (audio : list num) : Exception + list num :=
  match audio with
  | [] => inl (Raised (ValueError "zero-size array to reduction operation maximum which has no identity"))
  | a :: rest =>
      let peak := fold_left num_max (num_abs <$> rest) (num_abs a) in
      inr ((fun x => num_div x peak) <$> audio)
  end.

(** [a // b] on Python integers. *)
Definition py_floordiv (a b : Z) : Exception + Z :=
  if b =? 0 then inl (Raised ZeroDivisionError) else inr (a / b).

(** [w[start:stop]] for [0 <= start <= stop]. *)
Definition slice {A} (w : list A) (start stop : Z) : list A :=
  take (Z.to_nat (stop - start)) (drop (Z.to_nat start) w).

(** The body of the loop of [extract_segments]: row [i] of the zero array
    after the assignment.  Inside the loop [samples_per_segment] is positive
    and [start_idx] lies before the end of the waveform, so the slice
    assigned has exactly [segment_length] samples and the rest of the row
    keeps its zeros. *)
Definition segment (waveform : list num) (samples_per_segment : Z) (i : Z) : list num :=
  let total_samples := Z.of_nat (length waveform) in
  let start_idx := i * samples_per_segment in
  let end_idx := Z.min (start_idx + samples_per_segment) total_samples in
  let segment_length := end_idx - start_idx in
  slice waveform start_idx end_idx
    ++ replicate (Z.to_nat (samples_per_segment - segment_length)) (Num 0).

Definition extract_segments (waveform : list num) (sample_rate : Z)
    (segment_duration : Q) : Exception + list (list num) :=
  let samples_per_segment := int (inject_Z sample_rate * segment_duration) in
  let total_samples := Z.of_nat (length waveform) in
  n_segments ← py_floordiv (total_samples + samples_per_segment - 1) samples_per_segment;
  if (n_segments <? 0) || (samples_per_segment <? 0)
  then inl (Raised (ValueError "negative dimensions are not allowed"))
  else inr (segment waveform samples_per_segment <$> seqZ 0 n_segments).

(** A numpy array of the later stages: its shape and its row-major buffer. *)
Record Array := { dims : list Z; values : Z -> num }.

(** [torch.stft] with its defaults (centred frames, reflect padding,
    one-sided) followed by [torch.abs]: the shape is the library's, the
    magnitudes are left open as [stft_abs]. *)
Definition compute_spectrogram (stft_abs : list num -> Z -> num) (audio : list num)
    : Exception + Array :=
  let n := Z.of_nat (length audio) in
  if n <=? N_FFT / 2
  then inl (RuntimeError "Padding size should be less than the corresponding input dimension")
  else inr {| dims := [N_FFT / 2 + 1; 1 + n / HOP_LENGTH]; values := stft_abs audio |}.

(** [np.stack] along a new first axis. *)
Definition np_stack (l : list Array) : Exception + Array :=
  match l with
  | [] => inl (Raised (ValueError "need at least one array to stack"))
  | a :: rest =>
      if forallb (fun b => bool_decide (dims b = dims a)) rest
      then inr {| dims := Z.of_nat (length l) :: dims a;
                  values := fun i =>
                    match l !! Z.to_nat (i / numel (dims a)) with
                    | Some b => values b (i mod numel (dims a))
                    | None => NaN
                    end |}
      else inl (Raised (ValueError "all input arrays must have the same shape"))
  end.

(** [a[i]] on a list of rows, negative indices counting from the end. *)
Definition getrow {A} (a : list A) (i : Z) : Exception + A :=
  let n := Z.of_nat (length a) in
  let j := if i <? 0 then i + n else i in
  if (0 <=? j) && (j <? n)
  then match a !! Z.to_nat j with Some r => inr r | None => inl (Raised IndexError) end
  else inl (Raised IndexError).

Definition getkey {V} (d : gmap string V) (key : string) : Exception + V :=
  match d !! key with Some v => inr v | None => inl (KeyError key) end.

(** A track as the loader hands it over: the audio of the mixture and of
    each stem, one row per sample and one column per channel. *)
Record Track := { name : string; audio : matrix; targets : gmap string matrix }.

(** [musdb.DB(...)[:2]] *)
Definition load_musdb (db : list Track) : list Track := take 2 db.

Definition SOURCES : list string := ["vocals"; "drums"; "bass"; "other"].

(** For the examples: a stereo track of [samples] samples, all of them 1,
    with its four stems. *)
Definition constant_stereo (samples : Z) : matrix :=
  {| ncols := 2; rows := replicate (Z.to_nat samples) [1; 1]%R |}.

Definition constant_track (samples : Z) : Track :=
  {| name := "constant";
     audio := constant_stereo samples;
     targets := {[ "vocals" := constant_stereo samples;
                   "drums" := constant_stereo samples;
                   "bass" := constant_stereo samples;
                   "other" := constant_stereo samples ]} |}.

Section ProcessDataset.

Variable stft_abs : list num -> Z -> num.

(** The body of the loop over the sources of a track. *)
Definition process_source (track : Track) (sources_audio : gmap string (list (list num)))
    (source : string) : Exception + gmap string (list (list num)) :=
  target ← getkey (targets track) source;
  let source_audio := stereo_to_mono (Arr2 (transpose target)) in
  source_audio ← normalize_audio source_audio;
  segments ← extract_segments source_audio SEGMENT_SAMPLES 3;
  inr (<[source := segments]> sources_audio).

(** The body of the loop over the segments of the mixture. *)
Definition process_segment (mix_segments : list (list num))
    (sources_audio : gmap string (list (list num)))
    (acc : list Array * list Array) (i : Z) : Exception + list Array * list Array :=
  let '(all_mix_specs, all_source_specs) := acc in
  mix_segment ← getrow mix_segments i;
  mix_spec ← compute_spectrogram stft_abs mix_segment;
  let all_mix_specs := all_mix_specs ++ [mix_spec] in
  segment_sources ←
    for_list (fun segment_sources source =>
                segments ← getkey sources_audio source;
                segment ← getrow segments i;
                source_spec ← compute_spectrogram stft_abs segment;
                inr (segment_sources ++ [source_spec]))
             [] SOURCES;
  stacked ← np_stack segment_sources;
  inr (all_mix_specs, all_source_specs ++ [stacked]).

(** The body of the loop over the tracks. *)
Definition process_track (acc : list Array * list Array) (track : Track)
    : Exception + list Array * list Array :=
  let track_audio := transpose (audio track) in
  let mix_audio := stereo_to_mono (Arr2 (transpose track_audio)) in
  mix_audio ← normalize_audio mix_audio;
  mix_segments ← extract_segments mix_audio SEGMENT_SAMPLES 3;
  sources_audio ← for_list (process_source track) ∅ SOURCES;
  for_each (process_segment mix_segments sources_audio) acc
           (seqZ 0 (Z.of_nat (length mix_segments))).

(** [X.unsqueeze(1)] *)
Definition unsqueeze1 (a : Array) : Array :=
  {| dims := take 1 (dims a) ++ [1] ++ drop 1 (dims a); values := values a |}.

Definition process_dataset (db : list Track) : Exception + Array * Array :=
  let mus := load_musdb db in
  '(all_mix_specs, all_source_specs) ← for_list process_track ([], []) mus;
  X ← np_stack all_mix_specs;
  y ← np_stack all_source_specs;
  inr (unsqueeze1 X, y).

End ProcessDataset.

End Preprocessing.

(** ** The file-backed dataset (class [OptimizedSpectrogramDataset]) *)

Module OptimizedData.
Import Torch.

(** The [.npy] files on disk: path to array. *)
Abbreviation Disk := (gmap string Tensor).

Definition np_load (disk : Disk) (path : string) : Exception + Tensor :=
  match disk !! path with
  | Some a => inr a
  | None => inl (FileNotFoundError path)
  end.

Definition raised {A} (r : PyError + A) : Exception + A :=
  match r with
  | inl e => inl (Raised e)
  | inr a => inr a
  end.

Record OptimizedSpectrogramDataset := {
  X_path : string;
  y_path : string;
  device : string;
  X_data : option Tensor;
  y_data : option Tensor;
  pin_memory : bool
}.

(** Pinning and the conversion to [float32] tensors leave the values as
    they are. *)
Definition _preload_data (disk : Disk) (self : OptimizedSpectrogramDataset)
    : Exception + OptimizedSpectrogramDataset :=
  X_data ← np_load disk (X_path self);
  y_data ← np_load disk (y_path self);
  inr {| X_path := X_path self; y_path := y_path self; device := device self;
         X_data := Some X_data; y_data := Some y_data;
         pin_memory := pin_memory self |}.

Definition init (disk : Disk) (X_path y_path device : string) (preload pin_memory : bool)
    : Exception + OptimizedSpectrogramDataset :=
  let self := {| X_path := X_path; y_path := y_path; device := device;
                 X_data := None; y_data := None;
                 pin_memory := pin_memory && String.eqb device "cpu" |} in
  if preload then _preload_data disk self else inr self.

Definition length (disk : Disk) (self : OptimizedSpectrogramDataset) : Exception + Z :=
  match X_data self with
  | Some X_data => raised (Data.len X_data)
  | None => a ← np_load disk (X_path self); raised (Data.len a)
  end.

Definition getitem (disk : Disk) (self : OptimizedSpectrogramDataset) (idx : Z)
    : Exception + Tensor * Tensor :=
  match X_data self with
  | Some X_data =>
      X ← raised (Data.item X_data idx);
      y ← match y_data self with
          | Some y_data => raised (Data.item y_data idx)
          | None => inl (Raised TypeError)
          end;
      inr (X, y)
  | None =>
      a ← np_load disk (X_path self);
      X ← raised (Data.item a idx);
      b ← np_load disk (y_path self);
      y ← raised (Data.item b idx);
      inr (X, y)
  end.

End OptimizedData.

(** ** The parameter updates of a whole run, for reference *)

Module Schedule.
Import Training.

(** The updates of one epoch of [n] batches with accumulation count [k]:
    the complete groups, then the incomplete rest if there is one. *)
Definition updates_of_epoch (k n epoch : Z) : list (list (Z * Z)) :=
  full_groups epoch k n ++ (if n mod k =? 0 then [] else [pending_group epoch k n]).

(** The updates of the epochs [0 .. m-1]. *)
Definition updates_through (k n m : Z) : list (list (Z * Z)) :=
  concat (updates_of_epoch k n <$> seqZ 0 m).

(** The directory [train_model] creates before anything else:
    [os.makedirs(os.path.join(results_dir, "models"), exist_ok=True)]. *)
Definition models_dir (results_dir : string) : string :=
  path_join results_dir "models".

End Schedule.

(* ================================================================== *)
(** * Part II: properties *)
(* ================================================================== *)

(** ** Shape rules of the views *)

Section TorchShapes.
Import Torch.

Lemma existsb_lt_m1_nonneg (dims : list Z) :
  Forall (fun d => 0 <= d) dims -> existsb (fun d => d <? -1) dims = false.
Proof.
  induction 1 as [|d dims Hd _ IH]; simpl; [reflexivity|].
  rewrite IH, orb_false_r. apply Z.ltb_ge. lia.
Qed.

Lemma filter_hole_nonneg (dims : list Z) :
  Forall (fun d => 0 <= d) dims ->
  List.filter (fun d => d =? -1) dims = [] /\
  List.filter (fun d => negb (d =? -1)) dims = dims.
Proof.
  induction 1 as [|d dims Hd _ [IH1 IH2]]; simpl; [split; reflexivity|].
  assert ((d =? -1) = false) as -> by (apply Z.eqb_neq; lia).
  simpl. rewrite IH2. split; [exact IH1 | reflexivity].
Qed.

(** A reshape to fully given sizes succeeds exactly when the element counts
    agree. *)
Lemma infer_size_plain (dims : list Z) (n : Z) :
  Forall (fun d => 0 <= d) dims ->
  infer_size dims n = if n =? numel dims then Some dims else None.
Proof.
  intros H. unfold infer_size.
  rewrite (existsb_lt_m1_nonneg _ H).
  destruct (filter_hole_nonneg _ H) as [-> ->]. reflexivity.
Qed.

(** A reshape to [(a, b, -1)]. *)
Lemma infer_size_hole3 (a b n : Z) :
  0 <= a -> 0 <= b ->
  infer_size [a; b; -1] n =
    if (n =? a * b) || ((0 <? a * b) && (n mod (a * b) =? 0))
    then if a * b =? 0 then None else Some [a; b; n / (a * b)]
    else None.
Proof.
  intros Ha Hb. unfold infer_size. simpl.
  assert ((a <? -1) = false) as -> by (apply Z.ltb_ge; lia).
  assert ((b <? -1) = false) as -> by (apply Z.ltb_ge; lia).
  assert ((a =? -1) = false) as -> by (apply Z.eqb_neq; lia).
  assert ((b =? -1) = false) as -> by (apply Z.eqb_neq; lia).
  simpl. replace (a * (b * 1)) with (a * b) by lia. reflexivity.
Qed.

(** A reshape to [(a, -1)]. *)
Lemma infer_size_hole2 (a n : Z) :
  0 <= a ->
  infer_size [a; -1] n =
    if (n =? a) || ((0 <? a) && (n mod a =? 0))
    then if a =? 0 then None else Some [a; n / a]
    else None.
Proof.
  intros Ha. unfold infer_size. simpl.
  assert ((a <? -1) = false) as -> by (apply Z.ltb_ge; lia).
  assert ((a =? -1) = false) as -> by (apply Z.eqb_neq; lia).
  simpl. replace (a * 1) with a by lia. reflexivity.
Qed.

Lemma reshape_plain (dims : list Z) (t : Tensor) :
  Forall (fun d => 0 <= d) dims ->
  numel dims = numel (shape t) ->
  reshape dims t = Some (mkTensor dims (data t)).
Proof.
  intros H Hn. unfold reshape. rewrite (infer_size_plain _ _ H), <- Hn, Z.eqb_refl.
  reflexivity.
Qed.

Lemma reshape_data (dims : list Z) (t t' : Tensor) :
  reshape dims t = Some t' -> data t' = data t.
Proof.
  unfold reshape. destruct (infer_size dims (numel (shape t))); simpl; [|discriminate].
  intros [= <-]. reflexivity.
Qed.

Lemma permute_data_nonneg (p : list Z) (t t' : Tensor) :
  permute p t = Some t' ->
  (forall i, (0 <= data t i)%R) -> forall i, (0 <= data t' i)%R.
Proof.
  unfold permute. destruct (is_perm p (length (shape t))); [|discriminate].
  intros [= <-] H i. simpl. apply H.
Qed.

Lemma relu_nonneg (t : Tensor) (i : Z) : (0 <= data (relu t) i)%R.
Proof. simpl. apply Rmax_l. Qed.

End TorchShapes.

(** ** The model's forward pass *)

Section ForwardShapes.
Import Torch SpectrogramSeparator.

Lemma conv2d_same (c o B F T : Z) :
  0 < F -> 0 < T ->
  conv2d_shape c o 3 1 [B; c; F; T] = Some [B; o; F; T].
Proof.
  intros HF HT. unfold conv2d_shape.
  rewrite Z.eqb_refl.
  assert ((3 <=? F + 2 * 1) = true) as -> by (apply Z.leb_le; lia).
  assert ((3 <=? T + 2 * 1) = true) as -> by (apply Z.leb_le; lia).
  cbn [andb]. repeat f_equal; lia.
Qed.

Lemma conv2d_empty (c o B F T : Z) :
  F <= 0 \/ T <= 0 -> conv2d_shape c o 3 1 [B; c; F; T] = None.
Proof.
  intros H. unfold conv2d_shape. rewrite Z.eqb_refl. cbn [andb].
  destruct (Z.leb_spec 3 (F + 2 * 1)); [|reflexivity].
  destruct (Z.leb_spec 3 (T + 2 * 1)); [|reflexivity]. lia.
Qed.

Lemma batchnorm2d_same (training : bool) (c B F T : Z) :
  (training = true -> B * F * T <> 1) ->
  batchnorm2d_shape training c [B; c; F; T] = Some [B; c; F; T].
Proof.
  intros H. unfold batchnorm2d_shape. rewrite Z.eqb_refl.
  destruct training; [|reflexivity].
  assert ((B * F * T =? 1) = false) as -> by (apply Z.eqb_neq; auto).
  reflexivity.
Qed.

Lemma batchnorm2d_single (c c' B F T : Z) :
  B * F * T = 1 -> batchnorm2d_shape true c [B; c'; F; T] = None.
Proof. intros H. unfold batchnorm2d_shape. rewrite H. reflexivity. Qed.

Variable self : Model.

Lemma conv_encoder_shape (x : Tensor) (B F T : Z) :
  shape x = [B; 1; F; T] -> 0 < F -> 0 < T ->
  (training self = true -> B * F * T <> 1) ->
  exists x', conv_encoder self x = Some x' /\ shape x' = [B; 128; F; T].
Proof.
  intros Hs HF HT Htr. unfold conv_encoder, layer. rewrite Hs.
  rewrite (conv2d_same 1 32) by assumption. cbn [mbind option_bind shape relu map_t].
  rewrite batchnorm2d_same by assumption. cbn [mbind option_bind shape relu map_t].
  rewrite (conv2d_same 32 64) by assumption. cbn [mbind option_bind shape relu map_t].
  rewrite batchnorm2d_same by assumption. cbn [mbind option_bind shape relu map_t].
  rewrite (conv2d_same 64 128) by assumption. cbn [mbind option_bind shape relu map_t].
  rewrite batchnorm2d_same by assumption. cbn [mbind option_bind shape relu map_t].
  eexists. split; reflexivity.
Qed.

(** The first batch normalisation of a model in training mode refuses a
    batch that holds a single value. *)
Lemma conv_encoder_single (x : Tensor) (B F T : Z) :
  shape x = [B; 1; F; T] -> 0 < F -> 0 < T ->
  training self = true -> B * F * T = 1 ->
  conv_encoder self x = None.
Proof.
  intros Hs HF HT Htr H1. unfold conv_encoder, layer. rewrite Hs.
  rewrite (conv2d_same 1 32) by assumption. cbn [mbind option_bind shape relu map_t].
  rewrite Htr, batchnorm2d_single by assumption. reflexivity.
Qed.

(** The first convolution refuses an input without frequency bins or
    without time frames. *)
Lemma conv_encoder_empty (x : Tensor) (B F T : Z) :
  shape x = [B; 1; F; T] -> F <= 0 \/ T <= 0 -> conv_encoder self x = None.
Proof.
  intros Hs H. unfold conv_encoder, layer. rewrite Hs.
  rewrite conv2d_empty by assumption. reflexivity.
Qed.

Hypothesis Hmels : 0 < n_mels self.
Hypothesis Hlen : 0 < seq_len self.
Hypothesis Hsrc : 0 < n_sources self.
Hypothesis Hd : 0 < d_model self.

Lemma flatten_proj_shape (x : Tensor) (B T F : Z) :
  shape x = [B; T; 128 * F] ->
  if F =? n_mels self
  then exists x', flatten_proj self x = Some x' /\ shape x' = [B; T; d_model self]
  else flatten_proj self x = None.
Proof.
  intros Hs. unfold flatten_proj, layer, linear_shape. rewrite Hs.
  cbn [rev app].
  destruct (Z.eqb_spec F (n_mels self)) as [->|HF].
  - rewrite Z.eqb_refl. eexists. split; reflexivity.
  - assert ((128 * F =? 128 * n_mels self) = false) as -> by (apply Z.eqb_neq; lia).
    reflexivity.
Qed.

Lemma pos_encoding_shape (x : Tensor) (B T : Z) :
  shape x = [B; T; d_model self] -> 0 < T ->
  if (T <=? seq_len self) || (seq_len self =? 1)
  then exists x', (pe ← slice_to T (pos_encoding self); add x pe) = Some x' /\
                  shape x' = [B; T; d_model self]
  else (pe ← slice_to T (pos_encoding self); add x pe) = None.
Proof.
  intros Hs HT. unfold slice_to, pos_encoding. cbn [shape mbind option_bind].
  assert ((T <? 0) = false) as -> by (apply Z.ltb_ge; lia).
  unfold add, binop, broadcast_shapes. rewrite Hs.
  cbn [shape rev app broadcast_rev data].
  rewrite Z.eqb_refl.
  destruct (Z.leb_spec T (seq_len self)) as [HTL|HTL]; cbn [orb].
  - replace (Z.min T (seq_len self)) with T by lia. rewrite Z.eqb_refl.
    eexists. split; reflexivity.
  - replace (Z.min T (seq_len self)) with (seq_len self) by lia.
    assert ((T =? seq_len self) = false) as -> by (apply Z.eqb_neq; lia).
    assert ((T =? 1) = false) as -> by (apply Z.eqb_neq; lia).
    destruct (seq_len self =? 1).
    + eexists. split; reflexivity.
    + reflexivity.
Qed.

Lemma transformer_encoder_shape (x : Tensor) (B T : Z) :
  shape x = [B; T; d_model self] ->
  exists x', transformer_encoder self x = Some x' /\ shape x' = [B; T; d_model self].
Proof.
  intros Hs. unfold transformer_encoder, layer, encoder_shape. rewrite Hs, Z.eqb_refl.
  eexists. split; reflexivity.
Qed.

Lemma query_expand_shape (B : Z) :
  0 <= B ->
  exists q, expand [B; -1; -1; -1] (source_queries self) = Some q /\
            shape q = [B; n_sources self; seq_len self; d_model self].
Proof.
  intros HB. unfold expand, source_queries. cbn [shape rev app expand_rev orb Z.eqb].
  assert ((0 <=? B) = true) as -> by (apply Z.leb_le; lia).
  eexists. split; reflexivity.
Qed.

(** The query reshape goes through exactly when [T] divides
    [seq_len * d_model]; the last axis is then the quotient. *)
Lemma query_reshape_shape (q : Tensor) (B T : Z) :
  shape q = [B; n_sources self; seq_len self; d_model self] -> 0 < B -> 0 < T ->
  reshape [B * n_sources self; T; -1] q =
    if (seq_len self * d_model self) mod T =? 0
    then Some (mkTensor [B * n_sources self; T; seq_len self * d_model self / T] (data q))
    else None.
Proof.
  intros Hs HB HT. unfold reshape. rewrite Hs.
  rewrite infer_size_hole3 by nia.
  set (N := B * n_sources self). assert (0 < N) by nia.
  replace (numel [B; n_sources self; seq_len self; d_model self])
    with (N * (seq_len self * d_model self)) by (unfold N; simpl; lia).
  assert ((0 <? N * T) = true) as -> by (apply Z.ltb_lt; nia).
  assert ((N * T =? 0) = false) as -> by (apply Z.eqb_neq; nia).
  rewrite Z.mul_mod_distr_l by lia.
  rewrite Z.div_mul_cancel_l by lia.
  cbn [andb].
  destruct (Z.eqb_spec ((seq_len self * d_model self) mod T) 0) as [Hm|Hm].
  - rewrite Hm, Z.mul_0_r, orb_true_r. reflexivity.
  - assert ((N * ((seq_len self * d_model self) mod T) =? 0) = false) as ->
      by (apply Z.eqb_neq; nia).
    rewrite orb_false_r.
    assert ((N * (seq_len self * d_model self) =? N * T) = false) as ->; [|reflexivity].
    apply Z.eqb_neq. intros E. apply Hm.
    assert (seq_len self * d_model self = T) as -> by nia.
    apply Z.mod_same. lia.
Qed.

(** With an empty batch the size left open in the query reshape cannot be
    inferred. *)
Lemma query_reshape_empty (q : Tensor) (T : Z) :
  shape q = [0; n_sources self; seq_len self; d_model self] -> 0 <= T ->
  reshape [0 * n_sources self; T; -1] q = None.
Proof.
  intros Hs HT. unfold reshape. rewrite Hs.
  rewrite infer_size_hole3 by lia. reflexivity.
Qed.

Lemma memory_expand_shape (m : Tensor) (B T : Z) :
  shape m = [B; T; d_model self] ->
  exists m', (u ← unsqueeze 1 m; expand [-1; n_sources self; -1; -1] u) = Some m' /\
             shape m' = [B; n_sources self; T; d_model self].
Proof.
  intros Hs.
  assert (unsqueeze 1 m = Some (mkTensor [B; 1; T; d_model self] (data m))) as ->
    by (unfold unsqueeze; rewrite Hs; reflexivity).
  cbn [mbind option_bind].
  unfold expand. cbn [shape rev app expand_rev orb Z.eqb].
  assert ((n_sources self =? -1) = false) as -> by (apply Z.eqb_neq; lia).
  destruct (Z.eqb_spec (n_sources self) 1) as [Hone|Hone]; cbn [orb andb].
  - eexists. split; [reflexivity|]. cbn. rewrite Hone. reflexivity.
  - cbn [Pos.eqb andb].
    assert ((0 <=? n_sources self) = true) as -> by (apply Z.leb_le; lia).
    eexists. split; reflexivity.
Qed.

Lemma memory_reshape_shape (m : Tensor) (B T : Z) :
  shape m = [B; n_sources self; T; d_model self] -> 0 < B -> 0 < T ->
  reshape [B * n_sources self; T; -1] m =
    Some (mkTensor [B * n_sources self; T; d_model self] (data m)).
Proof.
  intros Hs HB HT. unfold reshape. rewrite Hs.
  rewrite infer_size_hole3 by nia.
  set (N := B * n_sources self). assert (0 < N) by nia.
  replace (numel [B; n_sources self; T; d_model self])
    with (N * T * d_model self) by (unfold N; simpl; lia).
  assert ((0 <? N * T) = true) as -> by (apply Z.ltb_lt; nia).
  assert ((N * T =? 0) = false) as -> by (apply Z.eqb_neq; nia).
  rewrite Z.mul_comm, Z.mod_mul, Z.div_mul by nia.
  rewrite orb_true_r. reflexivity.
Qed.

Lemma transformer_decoder_shape (q m : Tensor) (N T E : Z) :
  shape q = [N; T; E] -> shape m = [N; T; d_model self] ->
  if E =? d_model self
  then exists o, transformer_decoder self q m = Some o /\ shape o = [N; T; d_model self]
  else transformer_decoder self q m = None.
Proof.
  intros Hq Hm. unfold transformer_decoder, decoder_shape. rewrite Hq, Hm.
  destruct (Z.eqb_spec E (d_model self)) as [->|HE].
  - rewrite !Z.eqb_refl. eexists. split; reflexivity.
  - reflexivity.
Qed.

Lemma output_proj_shape (o : Tensor) (N T : Z) :
  shape o = [N; T; d_model self] ->
  exists o', output_proj self o = Some o' /\ shape o' = [N; T; n_mels self] /\
             forall i, (0 <= data o' i)%R.
Proof.
  intros Hs. unfold output_proj, layer, linear_shape. rewrite Hs.
  cbn [rev app]. rewrite Z.eqb_refl.
  eexists. split; [reflexivity|]. split; [reflexivity|].
  intros i. apply relu_nonneg.
Qed.

Lemma output_permute_shape (o : Tensor) (B S' T M : Z) :
  shape o = [B; S'; T; M] ->
  (forall i, (0 <= data o i)%R) ->
  exists o', permute [0; 1; 3; 2] o = Some o' /\
             shape o' = [B; S'; M; T] /\
             forall i, (0 <= data o' i)%R.
Proof.
  intros Hs Hpos.
  destruct (permute [0; 1; 3; 2] o) as [o'|] eqn:E.
  - exists o'. split; [reflexivity|]. split.
    + unfold permute in E. rewrite Hs in E. cbn in E. injection E as <-. reflexivity.
    + eapply permute_data_nonneg; [exact E|]. exact Hpos.
  - unfold permute in E. rewrite Hs in E. cbn in E. discriminate.
Qed.

(** What [forward] does on a 3-D input, stage by stage. *)
Lemma forward_outcome (x : Tensor) (B F T : Z) :
  shape x = [B; F; T] -> 0 <= B -> 0 <= F -> 0 <= T ->
  match forward self x with
  | inl AtConvEncoder =>
      F = 0 \/ T = 0 \/ (training self = true /\ B * F * T = 1)
  | r =>
      0 < F /\ 0 < T /\ (training self = true -> B * F * T <> 1) /\
      match r with
      | inr output =>
          0 < B /\ F = n_mels self /\ T = seq_len self /\
          shape output = [B; n_sources self; n_mels self; seq_len self] /\
          forall i, (0 <= data output i)%R
      | inl AtFlattenProj => F <> n_mels self
      | inl AtPosEncoding => F = n_mels self /\ seq_len self < T /\ seq_len self <> 1
      | inl AtQueryReshape =>
          F = n_mels self /\
          (B = 0 \/ (T <> seq_len self /\ (seq_len self * d_model self) mod T <> 0))
      | inl AtDecoder =>
          0 < B /\ F = n_mels self /\ T <> seq_len self /\
          (seq_len self * d_model self) mod T = 0
      | inl _ => False
      end
  end.
Proof.
  intros Hs HB HF HT. unfold forward.
  rewrite Hs. cbn [lookup list_lookup at_stage mbind sum_bind].
  assert (unsqueeze 1 x = Some (mkTensor [B; 1; F; T] (data x))) as ->
    by (unfold unsqueeze; rewrite Hs; reflexivity).
  cbn [at_stage mbind sum_bind].
  (* the convolutional encoder *)
  destruct (Z.eq_dec F 0) as [HF0|HF0].
  { rewrite (conv_encoder_empty (mkTensor [B; 1; F; T] (data x)) B F T eq_refl) by lia.
    cbn. auto. }
  destruct (Z.eq_dec T 0) as [HT0|HT0].
  { rewrite (conv_encoder_empty (mkTensor [B; 1; F; T] (data x)) B F T eq_refl) by lia.
    cbn. auto. }
  assert (0 < F) as HF' by lia. assert (0 < T) as HT' by lia.
  assert ((training self = true /\ B * F * T = 1) \/
          (training self = true -> B * F * T <> 1)) as [[Htr H1]|Hns].
  { destruct (training self), (Z.eq_dec (B * F * T) 1); auto; right; discriminate. }
  { rewrite (conv_encoder_single (mkTensor [B; 1; F; T] (data x)) B F T eq_refl
               HF' HT' Htr H1). cbn. auto. }
  destruct (conv_encoder_shape (mkTensor [B; 1; F; T] (data x)) B F T eq_refl HF' HT' Hns)
    as (x2 & -> & Hs2).
  cbn [at_stage mbind sum_bind].
  assert (exists dx, permute [0; 3; 1; 2] x2 = Some (mkTensor [B; T; 128; F] dx))
    as [dx3 ->] by (unfold permute; rewrite Hs2; eexists; reflexivity).
  cbn [at_stage mbind sum_bind shape unpack4].
  rewrite reshape_plain; [|repeat constructor; lia|simpl; lia].
  cbn [at_stage mbind sum_bind shape data].
  (* linear projection *)
  pose proof (flatten_proj_shape (mkTensor [B; T; 128 * F] dx3) B T F eq_refl) as Hproj.
  destruct (Z.eqb_spec F (n_mels self)) as [HFm|HFm].
  2: { rewrite Hproj. cbn. auto. }
  destruct Hproj as (x5 & -> & Hs5). cbn [at_stage mbind sum_bind].
  (* positional encoding *)
  pose proof (pos_encoding_shape x5 B T Hs5 HT') as Hpos.
  destruct ((T <=? seq_len self) || (seq_len self =? 1)) eqn:Epos.
  2: { rewrite Hpos. cbn [at_stage mbind sum_bind].
       apply orb_false_iff in Epos as [E1 E2].
       apply Z.leb_gt in E1. apply Z.eqb_neq in E2. auto 6. }
  destruct Hpos as (x6 & -> & Hs6). cbn [at_stage mbind sum_bind].
  destruct (transformer_encoder_shape x6 B T Hs6) as (mem & -> & Hsm).
  cbn [at_stage mbind sum_bind].
  destruct (query_expand_shape B HB) as (q & -> & Hsq).
  cbn [at_stage mbind sum_bind]. rewrite Hsq.
  cbn [lookup list_lookup at_stage mbind sum_bind].
  (* the empty batch *)
  destruct (Z.eq_dec B 0) as [HB0|HB0].
  { subst B. rewrite (query_reshape_empty q T Hsq HT). cbn. auto 6. }
  assert (0 < B) as HB' by lia.
  rewrite (query_reshape_shape q B T Hsq HB' HT').
  destruct (Z.eqb_spec ((seq_len self * d_model self) mod T) 0) as [Hm|Hm];
    cbn [at_stage mbind sum_bind].
  2: { repeat (split; [assumption|]). right. split; [|assumption].
       intros ->. apply Hm. rewrite Z.mul_comm. apply Z.mod_mul. lia. }
  assert (T <> seq_len self -> seq_len self * d_model self / T <> d_model self) as Hne.
  { intros Hne E.
    pose proof (Z.div_mod (seq_len self * d_model self) T ltac:(lia)) as Hdm.
    rewrite Hm, E in Hdm. nia. }
  destruct (memory_expand_shape mem B T Hsm) as (mem' & -> & Hsm').
  cbn [at_stage mbind sum_bind].
  rewrite (memory_reshape_shape mem' B T Hsm' HB' HT').
  cbn [at_stage mbind sum_bind].
  pose proof (transformer_decoder_shape
    (mkTensor [B * n_sources self; T; seq_len self * d_model self / T] (data q))
    (mkTensor [B * n_sources self; T; d_model self] (data mem'))
    _ _ _ eq_refl eq_refl) as Hdec.
  destruct (Z.eqb_spec (seq_len self * d_model self / T) (d_model self)) as [HE|HE].
  2: { rewrite Hdec. cbn [at_stage mbind sum_bind].
       repeat (split; [assumption|]). split; [|assumption]. intros ->. apply HE.
       rewrite Z.mul_comm. apply Z.div_mul. lia. }
  assert (T = seq_len self) as HTL.
  { destruct (Z.eq_dec T (seq_len self)); [assumption|]. exfalso. now apply Hne. }
  destruct Hdec as (o & -> & Hso). cbn [at_stage mbind sum_bind].
  destruct (output_proj_shape o _ _ Hso) as (o' & -> & Hso' & Hnn).
  cbn [at_stage mbind sum_bind].
  rewrite reshape_plain; [|repeat constructor; lia|rewrite Hso'; simpl; lia].
  cbn [at_stage mbind sum_bind].
  destruct (output_permute_shape
              (mkTensor [B; n_sources self; T; n_mels self] (data o'))
              _ _ _ _ eq_refl Hnn) as (out & -> & Hout & Hnn').
  cbn [at_stage mbind sum_bind].
  rewrite Hout, <- HTL. auto 10.
Qed.

(** An input that does not have three axes: with no axis [x.shape[0]]
    raises, with one, two, four or more axes the convolutional encoder
    refuses the rank. *)
Lemma forward_other_ranks (x : Tensor) :
  length (shape x) <> 3%nat ->
  forward self x = inl (match shape x with [] => AtInput | _ => AtConvEncoder end).
Proof.
  intros Hrank. unfold forward.
  destruct (shape x) as [|a [|b [|c [|d s]]]] eqn:Hs; try (simpl in Hrank; lia).
  - reflexivity.
  - cbn [lookup list_lookup at_stage mbind sum_bind].
    assert (unsqueeze 1 x = Some (mkTensor [a; 1] (data x))) as ->
      by (unfold unsqueeze; rewrite Hs; reflexivity).
    reflexivity.
  - cbn [lookup list_lookup at_stage mbind sum_bind].
    assert (unsqueeze 1 x = Some (mkTensor [a; 1; b] (data x))) as ->
      by (unfold unsqueeze; rewrite Hs; reflexivity).
    cbn [at_stage mbind sum_bind].
    unfold conv_encoder, layer.
    cbn [shape conv2d_shape].
    destruct ((a =? 1) && (3 <=? 1 + 2 * 1) && (3 <=? b + 2 * 1)); reflexivity.
  - cbn [lookup list_lookup at_stage mbind sum_bind].
    assert (unsqueeze 1 x = Some (mkTensor (a :: 1 :: b :: c :: d :: s) (data x))) as ->
      by (unfold unsqueeze; rewrite Hs;
          change (1 <? 0) with false; cbv iota;
          assert ((0 <=? 1) && (1 <=? Z.of_nat (length (a :: b :: c :: d :: s))) = true)
            as -> by (apply andb_true_iff; split; apply Z.leb_le; simpl; lia);
          reflexivity).
    reflexivity.
Qed.

End ForwardShapes.

(** Against C1 as stated: a model built for one frequency bin and one time
    frame, in training mode as constructed, raises in the convolutional
    encoder on a batch of one such spectrogram, although the input has the
    configured sizes; after [model.eval()] the same input is served. *)
Lemma forward_raises_on_a_single_value :
  Torch.shape (Torch.mkTensor [1; 1; 1] (fun _ => 1%R))
    = [1; SpectrogramSeparator.n_mels
            (SpectrogramSeparator.init_single SpectrogramSeparator.zero_weights);
          SpectrogramSeparator.seq_len
            (SpectrogramSeparator.init_single SpectrogramSeparator.zero_weights)] /\
  SpectrogramSeparator.forward
    (SpectrogramSeparator.init_single SpectrogramSeparator.zero_weights)
    (Torch.mkTensor [1; 1; 1] (fun _ => 1%R))
  = inl SpectrogramSeparator.AtConvEncoder /\
  exists output,
    SpectrogramSeparator.forward
      (SpectrogramSeparator.eval
         (SpectrogramSeparator.init_single SpectrogramSeparator.zero_weights))
      (Torch.mkTensor [1; 1; 1] (fun _ => 1%R))
    = inr output /\
    Torch.shape output = [1; 4; 1; 1].
Proof.
  split; [reflexivity|]. split.
  - pose proof (forward_outcome
                  (SpectrogramSeparator.init_single SpectrogramSeparator.zero_weights)
                  ltac:(simpl; lia) ltac:(simpl; lia) ltac:(simpl; lia) ltac:(simpl; lia)
                  (Torch.mkTensor [1; 1; 1] (fun _ => 1%R)) 1 1 1 eq_refl
                  ltac:(lia) ltac:(lia) ltac:(lia)) as H.
    destruct (SpectrogramSeparator.forward _ _) as [st|output].
    + destruct st; try reflexivity; exfalso; simpl in H; intuition lia.
    + exfalso. destruct H as (_ & _ & H & _). now apply H.
  - pose proof (forward_outcome
                  (SpectrogramSeparator.eval
                     (SpectrogramSeparator.init_single SpectrogramSeparator.zero_weights))
                  ltac:(simpl; lia) ltac:(simpl; lia) ltac:(simpl; lia) ltac:(simpl; lia)
                  (Torch.mkTensor [1; 1; 1] (fun _ => 1%R)) 1 1 1 eq_refl
                  ltac:(lia) ltac:(lia) ltac:(lia)) as H.
    destruct (SpectrogramSeparator.forward _ _) as [st|output].
    + exfalso. destruct st; simpl in H; intuition first [lia | discriminate].
    + exists output. split; [reflexivity|]. apply H.
Qed.



(** Against C10 as stated: a single spectrogram handed over without its
    batch axis, shaped (128, 800), makes [forward] raise in the
    convolutional encoder, which is none of the four places the claim
    lists. *)
Lemma forward_raises_outside_the_listed_stages :
  SpectrogramSeparator.forward
    (SpectrogramSeparator.init_optimized SpectrogramSeparator.zero_weights)
    (Torch.mkTensor [128; 800] (fun _ => 1%R))
  = inl SpectrogramSeparator.AtConvEncoder /\
  ~ In SpectrogramSeparator.AtConvEncoder
       [SpectrogramSeparator.AtFlattenProj; SpectrogramSeparator.AtPosEncoding;
        SpectrogramSeparator.AtQueryReshape; SpectrogramSeparator.AtDecoder].
Proof.
  split.
  - apply (forward_other_ranks
             (SpectrogramSeparator.init_optimized SpectrogramSeparator.zero_weights)
             (Torch.mkTensor [128; 800] (fun _ => 1%R))).
    simpl. lia.
  - simpl. intros [H|[H|[H|[H|[]]]]]; discriminate.
Qed.



(** ** The training loops *)

Lemma for_each_app {E St} (body : St -> Z -> E + St) (s : St) (l1 l2 : list Z) :
  for_each body s (l1 ++ l2) = (s' ← for_each body s l1; for_each body s' l2).
Proof.
  revert s. induction l1 as [|i l1 IH]; intros s; simpl; [reflexivity|].
  destruct (body s i) as [e|s']; simpl; [reflexivity|]. apply IH.
Qed.

Lemma succ_div_mod (M k : Z) :
  1 <= k ->
  if (M + 1) mod k =? 0
  then (M + 1) / k = M / k + 1 /\ M mod k = k - 1
  else (M + 1) / k = M / k /\ (M + 1) mod k = M mod k + 1.
Proof.
  intros Hk.
  pose proof (Z.div_mod M k ltac:(lia)) as HM.
  pose proof (Z.mod_pos_bound M k ltac:(lia)) as HMb.
  destruct (Z.eq_dec (M mod k + 1) k) as [E|E].
  - assert (M + 1 = k * (M / k + 1) + 0) as Hd by lia.
    rewrite <- (Z.mod_unique (M + 1) k (M / k + 1) 0) by lia.
    rewrite <- (Z.div_unique (M + 1) k (M / k + 1) 0) by lia.
    simpl. lia.
  - assert (M + 1 = k * (M / k) + (M mod k + 1)) as Hd by lia.
    rewrite <- (Z.mod_unique (M + 1) k (M / k) (M mod k + 1)) by lia.
    rewrite <- (Z.div_unique (M + 1) k (M / k) (M mod k + 1)) by lia.
    destruct (Z.eqb_spec (M mod k + 1) 0); lia.
Qed.

Section Accumulation.
Import Training.

Variable k : Z.
Variable use_amp : bool.
Variable epoch : Z.
Hypothesis Hk : 1 <= k.

Lemma apply_step_effect (o : Optimizer) :
  grad (apply_step use_amp o) = [] /\
  steps (apply_step use_amp o) = steps o ++ [grad o] /\
  scaler_updates (apply_step use_amp o) =
    scaler_updates o + (if use_amp then 1 else 0).
Proof. unfold apply_step. destruct use_amp; simpl; repeat split; lia. Qed.

Lemma batch_group_snoc (first len : Z) :
  0 <= len ->
  batch_group epoch first (len + 1) = batch_group epoch first len ++ [(epoch, first + len)].
Proof.
  intros H. unfold batch_group. rewrite seqZ_app by lia.
  rewrite fmap_app. f_equal.
Qed.

(** The loop invariant: after [m] batches the complete groups have been
    applied, one step each, and the incomplete rest is what [.grad] holds. *)
Lemma batch_loop_invariant (o : Optimizer) (m : nat) :
  exists o',
    for_each (train_batch k use_amp epoch) (zero_grad o) (seqZ 0 (Z.of_nat m)) = inr o' /\
    steps o' = steps o ++ full_groups epoch k (Z.of_nat m) /\
    grad o' = pending_group epoch k (Z.of_nat m) /\
    scaler_updates o' =
      scaler_updates o + (if use_amp then Z.of_nat m / k else 0).
Proof.
  induction m as [|m (o1 & Hrun & Hsteps & Hgrad & Hsc)].
  - exists (zero_grad o). simpl. unfold full_groups, pending_group, batch_group.
    rewrite Z.div_0_l, Z.mod_0_l by lia. simpl. rewrite app_nil_r.
    repeat split; destruct use_amp; lia.
  - rewrite seqZ_S, for_each_app, Hrun. cbn [mbind sum_bind for_each].
    unfold train_batch, py_mod.
    assert ((k =? 0) = false) as -> by (apply Z.eqb_neq; lia).
    cbn [mbind sum_bind]. rewrite Z.add_0_l.
    set (M := Z.of_nat m) in *.
    replace (Z.of_nat (S m)) with (M + 1) by lia.
    pose proof (Z.div_mod M k ltac:(lia)) as HM.
    pose proof (Z.mod_pos_bound M k ltac:(lia)) as HMb.
    pose proof (succ_div_mod M k Hk) as Hsucc.
    destruct (Z.eqb_spec ((M + 1) mod k) 0) as [Hz|Hz].
    + (* the group is complete: step and reset *)
      destruct Hsucc as [Hq Hr].
      exists (apply_step use_amp (backward (epoch, M) o1)).
      destruct (apply_step_effect (backward (epoch, M) o1)) as (Hg & Hs & Hu).
      split; [reflexivity|]. rewrite Hs, Hg, Hu. cbn [steps grad scaler_updates backward].
      rewrite Hsteps, Hgrad, Hsc. split; [|split].
      * rewrite <- app_assoc. f_equal. unfold full_groups. rewrite Hq.
        rewrite seqZ_app by (try lia; apply Z.div_pos; lia).
        rewrite fmap_app. f_equal. rewrite seqZ_cons, seqZ_nil by lia.
        cbn [fmap list_fmap]. f_equal. unfold pending_group.
        rewrite Hr. rewrite Z.add_0_l.
        replace (batch_group epoch (M / k * k) k)
          with (batch_group epoch (M / k * k) (k - 1 + 1)) by (f_equal; lia).
        rewrite batch_group_snoc by lia. do 3 f_equal. lia.
      * unfold pending_group. rewrite Hz. reflexivity.
      * rewrite Hq. destruct use_amp; lia.
    + (* the group is still open: keep accumulating *)
      destruct Hsucc as [Hq Hr].
      exists (backward (epoch, M) o1). split; [reflexivity|].
      cbn [steps grad scaler_updates backward].
      rewrite Hsteps, Hgrad, Hsc. split; [|split].
      * unfold full_groups. rewrite Hq. reflexivity.
      * unfold pending_group. rewrite Hq, Hr.
        rewrite batch_group_snoc by lia. do 3 f_equal. lia.
      * rewrite Hq. reflexivity.
Qed.

Lemma ceil_div (n : Z) :
  0 <= n ->
  (n + k - 1) / k = n / k + (if n mod k =? 0 then 0 else 1).
Proof.
  intros Hn.
  pose proof (Z.div_mod n k ltac:(lia)) as HM.
  pose proof (Z.mod_pos_bound n k ltac:(lia)) as HMb.
  destruct (Z.eqb_spec (n mod k) 0) as [Hz|Hz].
  - symmetry. apply (Z.div_unique _ _ _ (k - 1)); lia.
  - symmetry. apply (Z.div_unique _ _ _ (n mod k - 1)); lia.
Qed.

Lemma length_full_groups (m : Z) :
  Z.of_nat (length (full_groups epoch k m)) = Z.max 0 (m / k).
Proof. unfold full_groups. rewrite length_fmap, length_seqZ. lia. Qed.

(** One epoch of training: the loop, then the flush of what is left. *)
Lemma train_epoch_result (n : Z) (o : Optimizer) :
  1 <= n ->
  exists o',
    train_epoch k use_amp n epoch o = inr o' /\
    grad o' = [] /\
    steps o' = steps o ++ full_groups epoch k n ++
               (if n mod k =? 0 then [] else [pending_group epoch k n]) /\
    scaler_updates o' = scaler_updates o + (if use_amp then (n + k - 1) / k else 0).
Proof.
  intros Hn. unfold train_epoch.
  destruct (batch_loop_invariant o (Z.to_nat n)) as (o1 & Hrun & Hsteps & Hgrad & Hsc).
  rewrite Z2Nat.id in * by lia. rewrite Hrun. cbn [mbind sum_bind].
  assert ((0 <? n) = true) as -> by (apply Z.ltb_lt; lia).
  cbn [mbind sum_bind]. unfold py_mod.
  assert ((k =? 0) = false) as -> by (apply Z.eqb_neq; lia).
  cbn [mbind sum_bind]. replace (n - 1 + 1) with n by lia.
  rewrite ceil_div by lia.
  destruct (Z.eqb_spec (n mod k) 0) as [Hz|Hz]; cbn [negb].
  - exists o1. split; [reflexivity|]. rewrite Hsteps, Hgrad, Hsc, app_nil_r.
    unfold pending_group, batch_group. rewrite Hz.
    repeat split. destruct use_amp; lia.
  - exists (apply_step use_amp o1). split; [reflexivity|].
    destruct (apply_step_effect o1) as (Hg & Hs & Hu).
    rewrite Hg, Hs, Hu, Hsteps, Hgrad, Hsc, app_assoc.
    repeat split. destruct use_amp; lia.
Qed.

End Accumulation.

(** C5: in an epoch of [n >= 1] batches with accumulation count [k], after
    [m] batches exactly the [m / k] complete groups of [k] batches have been
    applied, one optimizer step each, and [.grad] holds the open group: a
    step and a reset follow each batch whose 1-based index is a multiple of
    [k], and nothing is stepped in between.  At the end of the epoch one more
    step applies the open group if and only if [k] does not divide [n]; the
    gradients are then empty and the epoch has made [ceil(n / k)] steps. *)
Theorem gradient_accumulation_schedule
    (k n epoch : Z) (use_amp : bool) (o : Training.Optimizer) :
  1 <= k -> 1 <= n ->
  (forall m, 0 <= m <= n ->
     exists om,
       for_each (Training.train_batch k use_amp epoch) (Training.zero_grad o)
                (seqZ 0 m) = inr om /\
       Training.steps om = Training.steps o ++ Training.full_groups epoch k m /\
       Z.of_nat (length (Training.steps om))
         = Z.of_nat (length (Training.steps o)) + m / k /\
       Training.grad om = Training.pending_group epoch k m) /\
  exists o',
    Training.train_epoch k use_amp n epoch o = inr o' /\
    Training.grad o' = [] /\
    Training.steps o' =
      Training.steps o ++ Training.full_groups epoch k n ++
      (if n mod k =? 0 then [] else [Training.pending_group epoch k n]) /\
    Z.of_nat (length (Training.steps o'))
      = Z.of_nat (length (Training.steps o)) + (n + k - 1) / k.
Proof.
  intros Hk Hn. split.
  - intros m Hm.
    destruct (batch_loop_invariant k use_amp epoch Hk o (Z.to_nat m))
      as (om & Hrun & Hsteps & Hgrad & _).
    rewrite Z2Nat.id in * by lia.
    exists om. repeat split; try assumption.
    rewrite Hsteps, length_app, Nat2Z.inj_add, length_full_groups.
    pose proof (Z.div_pos m k ltac:(lia) ltac:(lia)). lia.
  - destruct (train_epoch_result k use_amp epoch Hk n o Hn)
      as (o' & Hrun & Hgrad & Hsteps & _).
    exists o'. repeat split; try assumption.
    rewrite Hsteps, !length_app, !Nat2Z.inj_add, length_full_groups.
    rewrite (ceil_div k Hk n) by lia.
    pose proof (Z.div_pos n k ltac:(lia) ltac:(lia)).
    destruct (n mod k =? 0); simpl; lia.
Qed.

Lemma gradient_accumulation_schedule_witness :
  exists o',
    Training.train_epoch 8 false 20 0 Training.fresh = inr o' /\
    Training.grad o' = [] /\
    Z.of_nat (length (Training.steps o')) = 3.
Proof.
  destruct (proj2 (gradient_accumulation_schedule 8 20 0 false Training.fresh
                     ltac:(lia) ltac:(lia)))
    as (o' & Hrun & Hgrad & _ & Hlen).
  exists o'. repeat split; [exact Hrun | exact Hgrad | exact Hlen].
Defined.

(** ** Checkpointing *)

Section Checkpointing.
Import Training.

Variable results_dir : string.
Variable k : Z.
Variable use_amp : bool.
Variable train_batches test_batches : Z.
Variable test_loss_of : Z -> Z -> Q.
Hypothesis Hk : 1 <= k.
Hypothesis Hn : 1 <= train_batches.
Hypothesis Hnt : 1 <= test_batches.

Let epoch_body := train_model_epoch results_dir k use_amp train_batches test_batches test_loss_of.
Let path := checkpoint_path results_dir.

Lemma evaluate_returns (epoch : Z) :
  exists q, evaluate test_batches test_loss_of epoch = inr q.
Proof.
  unfold evaluate, py_div.
  assert ((test_batches =? 0) = false) as -> by (apply Z.eqb_neq; lia).
  eexists. reflexivity.
Qed.

(** What the validation pass returns: the sum of the batch losses, in
    loader order, over the number of batches. *)
Lemma evaluate_mean (epoch : Z) :
  evaluate test_batches test_loss_of epoch =
    inr (fold_left (fun acc b => acc + test_loss_of epoch b) (seqZ 0 test_batches) 0
         / inject_Z test_batches)%Q.
Proof.
  unfold evaluate, py_div.
  assert ((test_batches =? 0) = false) as -> by (apply Z.eqb_neq; lia).
  reflexivity.
Qed.

Lemma best_of_snoc (ls : list pyfloat) (x : pyfloat) :
  best_of (ls ++ [x]) = float_min (best_of ls) x.
Proof. unfold best_of. rewrite fold_left_app. reflexivity. Qed.

(** One epoch of [train_model]: train, evaluate, then write the checkpoint
    exactly on a strict improvement. *)
Lemma train_model_epoch_result (r : Run) (epoch : Z) (q : Q) :
  evaluate test_batches test_loss_of epoch = inr q ->
  exists r',
    epoch_body r epoch = inr r' /\
    best_loss r' = float_min (best_loss r) (Fin q) /\
    if float_lt (Fin q) (best_loss r)
    then writes r' = writes r ++ [epoch] /\
         exists d, files r' = <[path := d]> (files r) /\
                   d !! "epoch"%string = Some (VInt epoch) /\
                   d !! "loss"%string = Some (VFloat (Fin q)) /\
                   d !! "model_state_dict"%string
                     = Some (model_state_dict (optimizer r')) /\
                   d !! "optimizer_state_dict"%string
                     = Some (optimizer_state_dict (optimizer r'))
    else writes r' = writes r /\ files r' = files r.
Proof.
  intros Hq. unfold epoch_body, train_model_epoch.
  destruct (train_epoch_result k use_amp epoch Hk train_batches (optimizer r) Hn)
    as (o' & -> & _).
  cbn [mbind sum_bind]. rewrite Hq. cbn [mbind sum_bind].
  unfold float_min.
  destruct (float_lt (Fin q) (best_loss r)).
  - eexists. split; [reflexivity|]. cbn [best_loss writes files optimizer].
    split; [reflexivity|]. split; [reflexivity|].
    eexists. split; [reflexivity|]. repeat split.
  - eexists. split; [reflexivity|]. cbn [best_loss writes files].
    repeat split.
Qed.

(** The whole run: the best loss is the minimum of the means seen, and the
    epochs written are those that strictly improved on the best before. *)
Lemma train_model_invariant (means : Z -> Q) (fs : Files) (m : nat) :
  (forall e, evaluate test_batches test_loss_of e = inr (means e)) ->
  exists r,
    for_each epoch_body (start fs) (seqZ 0 (Z.of_nat m)) = inr r /\
    best_loss r = best_of ((fun e => Fin (means e)) <$> seqZ 0 (Z.of_nat m)) /\
    writes r =
      List.filter
        (fun e => float_lt (Fin (means e))
                    (best_of ((fun e' => Fin (means e')) <$> seqZ 0 e)))
        (seqZ 0 (Z.of_nat m)) /\
    match last (writes r) with
    | None => files r = fs
    | Some e => exists d, files r !! path = Some d /\
                          d !! "epoch"%string = Some (VInt e) /\
                          d !! "loss"%string = Some (VFloat (best_loss r))
    end.
Proof.
  intros Hmeans.
  induction m as [|m (r & Hrun & Hbest & Hwrites & Hfile)].
  - exists (start fs). repeat split.
  - rewrite seqZ_S, for_each_app, Hrun. cbn [mbind sum_bind for_each].
    rewrite Z.add_0_l.
    destruct (train_model_epoch_result r (Z.of_nat m) (means (Z.of_nat m)) (Hmeans _))
      as (r' & -> & Hb' & Hcase).
    exists r'. cbn [mbind sum_bind]. split; [reflexivity|].
    rewrite fmap_app. cbn [fmap list_fmap].
    rewrite best_of_snoc, <- Hbest. split; [exact Hb'|].
    rewrite List.filter_app. cbn [List.filter]. rewrite <- Hbest, <- Hwrites.
    destruct (float_lt (Fin (means (Z.of_nat m))) (best_loss r)) eqn:Hlt.
    + destruct Hcase as (Hw & d & Hf & He & Hl & _). split; [exact Hw|].
      rewrite Hw, last_snoc. exists d. rewrite Hf, lookup_insert_eq.
      repeat split; [exact He|]. rewrite Hb'. unfold float_min. rewrite Hlt. exact Hl.
    + destruct Hcase as (Hw & Hf). rewrite app_nil_r. split; [exact Hw|].
      rewrite Hw, Hf, Hb'. unfold float_min. rewrite Hlt. exact Hfile.
Qed.

End Checkpointing.

(** C3: after each epoch the mean validation loss -- the sum of the batch
    losses of the held-out set over the number of batches -- is compared
    with the best loss so far, which starts at infinity and is the minimum
    of the means of the earlier epochs; the checkpoint is written if and only
    if the mean is strictly lower, and the file then records that loss.  On
    the scenario 12.6, 11.2, 10.9, 10.9, 10.8, 13.4, 10.1, 10.0 the epochs
    written are 0, 1, 2, 4, 6, 7 -- not the regressing epoch 5 -- and the loss
    recorded at the end is 10.0, the minimum. *)
Theorem checkpoint_on_strict_improvement :
  (forall (results_dir : string) (num_epochs k : Z) (use_amp : bool)
          (train_batches test_batches : Z) (test_loss_of : Z -> Z -> Q)
          (fs : Training.Files),
      1 <= k -> 1 <= train_batches -> 1 <= test_batches ->
      exists (means : Z -> Q) (r : Training.Run),
        (forall e, means e =
           (fold_left (fun acc b => acc + test_loss_of e b) (seqZ 0 test_batches) 0
            / inject_Z test_batches)%Q) /\
        (forall e, Training.evaluate test_batches test_loss_of e = inr (means e)) /\
        Training.train_model results_dir num_epochs k use_amp train_batches
          test_batches test_loss_of fs = inr r /\
        (forall e, In e (Training.writes r) <->
           0 <= e < num_epochs /\
           Training.float_lt (Training.Fin (means e))
             (Training.best_of ((fun e' => Training.Fin (means e')) <$> seqZ 0 e))
           = true) /\
        Training.best_loss r =
          Training.best_of ((fun e => Training.Fin (means e)) <$> seqZ 0 num_epochs) /\
        match last (Training.writes r) with
        | None => Training.files r = fs
        | Some e =>
            exists d,
              Training.files r !! Training.checkpoint_path results_dir = Some d /\
              d !! "epoch"%string = Some (Training.VInt e) /\
              d !! "loss"%string = Some (Training.VFloat (Training.best_loss r))
        end) /\
  (forall (results_dir : string) (k : Z) (use_amp : bool) (train_batches : Z)
          (fs : Training.Files),
      1 <= k -> 1 <= train_batches ->
      exists r d,
        Training.train_model results_dir 8 k use_amp train_batches 1
          (fun e _ => nth (Z.to_nat e) Training.scenario_losses 0%Q) fs = inr r /\
        Training.writes r = [0; 1; 2; 4; 6; 7] /\
        ~ In 5 (Training.writes r) /\
        Training.files r !! Training.checkpoint_path results_dir = Some d /\
        d !! "loss"%string = Some (Training.VFloat (Training.Fin (100 # 10))) /\
        Training.Fin (100 # 10) =
          Training.best_of (Training.Fin <$> Training.scenario_losses)).
Proof.
  split.
  - intros results_dir num_epochs k use_amp n nt loss fs Hk Hn Hnt.
    set (means := fun e =>
      (fold_left (fun acc b => acc + loss e b) (seqZ 0 nt) 0 / inject_Z nt)%Q).
    assert (forall e, Training.evaluate nt loss e = inr (means e)) as Hmeans
      by (intros e; apply evaluate_mean; lia).
    destruct (train_model_invariant results_dir k use_amp n nt loss Hk Hn
                means fs (Z.to_nat num_epochs) Hmeans)
      as (r & Hrun & Hbest & Hwrites & Hfile).
    assert (seqZ 0 (Z.of_nat (Z.to_nat num_epochs)) = seqZ 0 num_epochs) as Hseq
      by (unfold seqZ; rewrite Nat2Z.id; reflexivity).
    rewrite Hseq in *.
    exists means, r. split; [reflexivity|]. split; [exact Hmeans|].
    split; [exact Hrun|]. split; [|split; assumption].
    intros e. rewrite Hwrites, List.filter_In, <- list_elem_of_In, elem_of_seqZ.
    intuition lia.
  - intros results_dir k use_amp n fs Hk Hn.
    set (loss := fun (e _ : Z) => nth (Z.to_nat e) Training.scenario_losses 0%Q).
    set (means := fun e => ((0 + loss e 0%Z) / inject_Z 1)%Q).
    destruct (train_model_invariant results_dir k use_amp n 1 loss Hk Hn
                means fs 8%nat ltac:(reflexivity))
      as (r & Hrun & Hbest & Hwrites & Hfile).
    assert (Training.writes r = [0; 1; 2; 4; 6; 7]) as Hw
      by (rewrite Hwrites; vm_compute; reflexivity).
    assert (Training.best_loss r = Training.Fin (100 # 10)) as Hb
      by (rewrite Hbest; vm_compute; reflexivity).
    rewrite Hw in Hfile. cbn [last] in Hfile.
    destruct Hfile as (d & Hd & _ & Hl).
    exists r, d. split; [exact Hrun|]. split; [exact Hw|].
    split; [rewrite Hw; cbn; intuition lia|]. split; [exact Hd|].
    split; [rewrite Hl, Hb; reflexivity|]. vm_compute. reflexivity.
Qed.

Lemma checkpoint_on_strict_improvement_witness :
  (exists (means : Z -> Q) (r : Training.Run),
      (forall e, means e =
         (fold_left (fun acc b => acc + nth (Z.to_nat e) Training.scenario_losses 0)
                    (seqZ 0 1) 0 / inject_Z 1)%Q) /\
      (forall e, Training.evaluate 1
                   (fun e _ => nth (Z.to_nat e) Training.scenario_losses 0%Q) e
                 = inr (means e)) /\
      Training.train_model "../results" 8 8 false 20 1
        (fun e _ => nth (Z.to_nat e) Training.scenario_losses 0%Q) ∅ = inr r /\
      (forall e, In e (Training.writes r) <->
         0 <= e < 8 /\
         Training.float_lt (Training.Fin (means e))
           (Training.best_of ((fun e' => Training.Fin (means e')) <$> seqZ 0 e))
         = true) /\
      Training.best_loss r =
        Training.best_of ((fun e => Training.Fin (means e)) <$> seqZ 0 8) /\
      match last (Training.writes r) with
      | None => Training.files r = ∅
      | Some e =>
          exists d,
            Training.files r !! Training.checkpoint_path "../results" = Some d /\
            d !! "epoch"%string = Some (Training.VInt e) /\
            d !! "loss"%string = Some (Training.VFloat (Training.best_loss r))
      end) /\
  exists r d,
    Training.train_model "../results" 8 8 false 20 1
      (fun e _ => nth (Z.to_nat e) Training.scenario_losses 0%Q) ∅ = inr r /\
    Training.writes r = [0; 1; 2; 4; 6; 7] /\
    ~ In 5 (Training.writes r) /\
    Training.files r !! Training.checkpoint_path "../results" = Some d /\
    d !! "loss"%string = Some (Training.VFloat (Training.Fin (100 # 10))) /\
    Training.Fin (100 # 10) =
      Training.best_of (Training.Fin <$> Training.scenario_losses).
Proof.
  split.
  - apply (proj1 checkpoint_on_strict_improvement "../results"%string 8 8 false 20 1
             (fun e _ => nth (Z.to_nat e) Training.scenario_losses 0%Q) ∅); lia.
  - apply (proj2 checkpoint_on_strict_improvement "../results"%string 8 false 20 ∅);
      lia.
Defined.

(** ** The saved dictionaries *)

Section SavedDictionaries.
Import Training.

Lemma saved_unnamed_contents (epoch : Z) (o : Optimizer) (best : pyfloat) :
  saved_unnamed epoch o best !! "epoch"%string = Some (VInt epoch) /\
  saved_unnamed epoch o best !! "loss"%string = Some (VFloat best) /\
  saved_unnamed epoch o best !! "model_state_dict"%string = Some (model_state_dict o) /\
  saved_unnamed epoch o best !! "optimizer_state_dict"%string
    = Some (optimizer_state_dict o).
Proof. repeat split. Qed.

Lemma torch_save_overwrites (d0 d : Dict) (path : string) (fs : Files) :
  torch_save d path (torch_save d0 path fs) = torch_save d path fs /\
  torch_save d path fs !! path = Some d /\
  forall other, other <> path -> torch_save d path fs !! other = fs !! other.
Proof.
  unfold torch_save. split; [apply insert_insert_eq|].
  split; [apply lookup_insert_eq|].
  intros other Hne. apply lookup_insert_ne. congruence.
Qed.

End SavedDictionaries.

(** C4, as the code has it in [train_model.ipynb]: the dictionary that
    notebook saves holds the model parameters and the optimizer state only.
    It has no epoch index and no loss, for every epoch, optimizer and
    loss; a run of one epoch with one batch of loss 12.6 writes such a
    file.  (The optimized loop and the unnamed notebook save all four
    entries: [train_model_epoch_result], [saved_unnamed_contents].) *)
Theorem train_model_notebook_saves_two_entries :
  (forall (epoch : Z) (o : Training.Optimizer) (best : Training.pyfloat),
      Training.saved_train_model epoch o best !! "model_state_dict"%string
        = Some (Training.model_state_dict o) /\
      Training.saved_train_model epoch o best !! "optimizer_state_dict"%string
        = Some (Training.optimizer_state_dict o) /\
      Training.saved_train_model epoch o best !! "epoch"%string = None /\
      Training.saved_train_model epoch o best !! "loss"%string = None) /\
  exists r d,
    Training.loop_train_model 1 1 (fun _ _ => (126 # 10)%Q) ∅ = inr r /\
    Training.writes r = [0] /\
    Training.best_loss r = Training.Fin (126 # 10) /\
    Training.files r !! Training.basic_path = Some d /\
    d !! "epoch"%string = None /\
    d !! "loss"%string = None.
Proof.
  split.
  - intros epoch o best. repeat split.
  - eexists. eexists. split; [vm_compute; reflexivity|].
    cbn [Training.writes Training.best_loss Training.files].
    split; [reflexivity|]. split; [reflexivity|].
    split; [reflexivity|]. split; reflexivity.
Qed.

(** ** The dataset wrapper *)

Section Dataset.
Import Torch Data.

Variables (X y : Tensor) (n n' : Z) (sx sy : list Z).
Hypothesis HX : shape X = n :: sx.
Hypothesis Hy : shape y = n' :: sy.

Let ds := {| Data.X := X; Data.y := y |}.

Lemma getitem_in_range (idx : Z) :
  0 <= idx < n -> idx < n' ->
  exists p, getitem ds idx = inr p.
Proof.
  intros H1 H2. unfold getitem, item. cbn [Data.X Data.y ds]. rewrite HX, Hy.
  assert ((idx <? 0) = false) as -> by (apply Z.ltb_ge; lia).
  assert ((0 <=? idx) = true) as -> by (apply Z.leb_le; lia).
  assert ((idx <? n) = true) as -> by (apply Z.ltb_lt; lia).
  assert ((idx <? n') = true) as -> by (apply Z.ltb_lt; lia).
  eexists. reflexivity.
Qed.

Lemma getitem_past_sources (idx : Z) :
  0 <= idx < n -> n' <= idx ->
  getitem ds idx = inl IndexError.
Proof.
  intros H1 H2. unfold getitem, item. cbn [Data.X Data.y ds]. rewrite HX, Hy.
  assert ((idx <? 0) = false) as -> by (apply Z.ltb_ge; lia).
  assert ((0 <=? idx) = true) as -> by (apply Z.leb_le; lia).
  assert ((idx <? n) = true) as -> by (apply Z.ltb_lt; lia).
  assert ((idx <? n') = false) as -> by (apply Z.ltb_ge; lia).
  reflexivity.
Qed.

(** Fetching in any order within the length: all items are served when no
    index runs past the sources ... *)
Lemma fetch_all_present (order : list Z) :
  Forall (fun i => 0 <= i < n /\ i < n') order ->
  exists items, fetch ds order = inr items /\
                List.length items = List.length order.
Proof.
  induction 1 as [|i order [Hi Hi'] _ (items & IH & Hlen)].
  - exists []. split; reflexivity.
  - cbn [fetch]. destruct (getitem_in_range i Hi Hi') as [p ->].
    cbn [mbind sum_bind]. rewrite IH. exists (p :: items).
    split; [reflexivity|]. simpl. congruence.
Qed.

(** ... and the first index past the sources raises. *)
Lemma fetch_runs_past_sources (order : list Z) :
  Forall (fun i => 0 <= i < n) order ->
  Exists (fun i => n' <= i) order ->
  fetch ds order = inl IndexError.
Proof.
  intros Hin Hex. induction Hin as [|i order Hi Hin IH]; [inversion Hex|].
  cbn [fetch]. destruct (Z_lt_le_dec i n') as [Hlt|Hge].
  - destruct (getitem_in_range i Hi Hlt) as [p ->]. cbn [mbind sum_bind].
    rewrite IH; [reflexivity|]. inversion Hex; subst; [lia|assumption].
  - rewrite getitem_past_sources by assumption. reflexivity.
Qed.

End Dataset.

(** C6, the claim as stated fails: with two mixtures and one source the
    dataset is built without complaint and the mismatch surfaces as an
    [IndexError] when item 1 is fetched, not as a validation error; with one
    mixture and two sources nothing is raised at all. *)
Lemma mismatched_counts_are_not_validated :
  (exists ds, Data.init (Torch.mkTensor [2; 128; 800] (fun _ => 0%R))
                        (Torch.mkTensor [1; 4; 128; 800] (fun _ => 0%R)) = inr ds) /\
  Data.load (Torch.mkTensor [2; 128; 800] (fun _ => 0%R))
            (Torch.mkTensor [1; 4; 128; 800] (fun _ => 0%R)) = inl IndexError /\
  (forall msg,
      Data.load (Torch.mkTensor [2; 128; 800] (fun _ => 0%R))
                (Torch.mkTensor [1; 4; 128; 800] (fun _ => 0%R))
      <> inl (ValueError msg)) /\
  exists items,
    Data.load (Torch.mkTensor [1; 128; 800] (fun _ => 0%R))
              (Torch.mkTensor [2; 4; 128; 800] (fun _ => 0%R)) = inr items.
Proof.
  split; [eexists; reflexivity|].
  split; [reflexivity|].
  split; [intros msg; discriminate|].
  eexists. reflexivity.
Qed.

(** C6, amended: the dataset performs no validation.  It is built for any
    pair of collections and its length is the number of mixtures; when there
    are fewer sources than mixtures, loading raises [IndexError] at the item
    access, in whatever order the items are fetched; when there are at least
    as many, every mixture is served and the surplus sources are never
    read. *)
Theorem dataset_counts_unchecked (X y : Torch.Tensor) (n n' : Z) (sx sy : list Z) :
  Torch.shape X = n :: sx -> Torch.shape y = n' :: sy -> 0 <= n -> 0 <= n' ->
  (exists ds,
      Data.init X y = inr ds /\ Data.length ds = inr n /\
      forall order, order ≡ₚ seqZ 0 n ->
        if n' <? n then Data.fetch ds order = inl IndexError
        else exists items, Data.fetch ds order = inr items /\
                           Z.of_nat (List.length items) = n) /\
  (n' < n -> Data.load X y = inl IndexError) /\
  (n <= n' -> exists items, Data.load X y = inr items /\
                            Z.of_nat (List.length items) = n).
Proof.
  intros HX Hy Hn Hn'.
  assert (Data.length {| Data.X := X; Data.y := y |} = inr n) as Hlen
    by (unfold Data.length, Data.len; cbn [Data.X]; rewrite HX; reflexivity).
  assert (forall order, order ≡ₚ seqZ 0 n ->
            if n' <? n
            then Data.fetch {| Data.X := X; Data.y := y |} order = inl IndexError
            else exists items,
                Data.fetch {| Data.X := X; Data.y := y |} order = inr items /\
                Z.of_nat (List.length items) = n) as Hfetch.
  { intros order Hperm.
    assert (Forall (fun i => 0 <= i < n) order) as Hin.
    { rewrite Hperm. apply Forall_seqZ. intros i Hi. lia. }
    destruct (Z.ltb_spec n' n) as [Hlt|Hge].
    - apply (fetch_runs_past_sources X y n n' sx sy HX Hy order Hin).
      rewrite Hperm. apply Exists_exists. exists n'. split; [|lia].
      apply elem_of_seqZ. lia.
    - destruct (fetch_all_present X y n n' sx sy HX Hy order) as (items & Hf & Hl).
      { eapply Forall_impl; [exact Hin|]. intros i Hi. cbn beta in *. lia. }
      exists items. split; [exact Hf|]. rewrite Hl, Hperm, length_seqZ. lia. }
  split; [eexists; split; [reflexivity|split; [exact Hlen|exact Hfetch]]|].
  unfold Data.load, Data.init. cbn [mbind sum_bind]. rewrite Hlen. cbn [mbind sum_bind].
  specialize (Hfetch (seqZ 0 n) ltac:(reflexivity)).
  destruct (Z.ltb_spec n' n); split; intros; first [lia | exact Hfetch].
Qed.

Lemma dataset_counts_unchecked_witness :
  Data.load (Torch.mkTensor [3; 128; 800] (fun _ => 0%R))
            (Torch.mkTensor [2; 4; 128; 800] (fun _ => 0%R)) = inl IndexError /\
  exists items,
    Data.load (Torch.mkTensor [2; 128; 800] (fun _ => 0%R))
              (Torch.mkTensor [3; 4; 128; 800] (fun _ => 0%R)) = inr items /\
    Z.of_nat (List.length items) = 2.
Proof.
  split.
  - apply (dataset_counts_unchecked
             (Torch.mkTensor [3; 128; 800] (fun _ => 0%R))
             (Torch.mkTensor [2; 4; 128; 800] (fun _ => 0%R))
             3 2 [128; 800] [4; 128; 800]); first [reflexivity | lia].
  - apply (dataset_counts_unchecked
             (Torch.mkTensor [2; 128; 800] (fun _ => 0%R))
             (Torch.mkTensor [3; 4; 128; 800] (fun _ => 0%R))
             2 3 [128; 800] [4; 128; 800]); first [reflexivity | lia].
Defined.

(** ** Sums, checks and broadcasting on matrices *)

Section TorchRows.
Import Torch.

Lemma zsum_ext (n : Z) (f g : Z -> R) :
  (forall j, 0 <= j < n -> f j = g j) -> zsum n f = zsum n g.
Proof.
  intros H. unfold zsum. f_equal. apply list_fmap_ext.
  intros i j Hj. apply list_elem_of_lookup_2, elem_of_seqZ in Hj. apply H. lia.
Qed.

Lemma all_upto_true (n : Z) (p : Z -> bool) :
  all_upto n p = true <-> forall i, 0 <= i < n -> p i = true.
Proof.
  unfold all_upto. rewrite forallb_forall. split.
  - intros H i Hi. apply H, list_elem_of_In, elem_of_seqZ. lia.
  - intros H i Hi. apply list_elem_of_In, elem_of_seqZ in Hi. apply H. lia.
Qed.

Lemma all_upto_ext (n : Z) (p q : Z -> bool) :
  (forall i, 0 <= i < n -> p i = q i) -> all_upto n p = all_upto n q.
Proof.
  intros H. destruct (all_upto n q) eqn:E.
  - apply all_upto_true. intros i Hi. rewrite H by assumption.
    revert i Hi. apply all_upto_true. exact E.
  - destruct (all_upto n p) eqn:E'; [|reflexivity].
    rewrite <- E. symmetry. apply all_upto_true. intros i Hi. rewrite <- H by assumption.
    revert i Hi. apply all_upto_true. exact E'.
Qed.

Lemma row_col_div_mod (m r j : Z) :
  0 <= j < m -> (r * m + j) / m = r /\ (r * m + j) mod m = j.
Proof.
  intros Hj. split.
  - symmetry. apply (Z.div_unique _ _ _ j); lia.
  - symmetry. apply (Z.mod_unique _ _ r j); lia.
Qed.

(** Where element (r, j) of an (n, m) result comes from in an operand of
    shape (n, m) or (n, 1). *)
Lemma bcast_index_2d (n m mo r j : Z) :
  0 <= r < n -> 0 <= j < m -> mo = m \/ mo = 1 ->
  bcast_index [n; m] [n; mo] (r * m + j) = r * mo + (if mo =? 1 then 0 else j).
Proof.
  intros Hr Hj Hmo. unfold bcast_index.
  cbn [length Nat.sub drop unravel numel fold_right zip_with ravel].
  rewrite Z.mul_1_r, Z.div_1_r.
  destruct (row_col_div_mod m r j Hj) as [-> ->].
  destruct (Z.eqb_spec n 1) as [Hn|Hn]; [assert (r = 0) as -> by lia|]; lia.
Qed.

Lemma bcast_index_1d (n r : Z) :
  0 <= r < n -> bcast_index [n] [n] r = r.
Proof.
  intros Hr. unfold bcast_index.
  cbn [length Nat.sub drop unravel numel fold_right zip_with ravel].
  rewrite Z.div_1_r. destruct (Z.eqb_spec n 1); lia.
Qed.

Lemma broadcast_shapes_2d (n m ma mb : Z) :
  ma = m \/ ma = 1 -> mb = m \/ mb = 1 -> ma = m \/ mb = m ->
  broadcast_shapes [n; ma] [n; mb] = Some [n; m].
Proof.
  intros Ha Hb Hab. unfold broadcast_shapes. cbn [rev app broadcast_rev].
  rewrite (Z.eqb_refl n).
  destruct (Z.eqb_spec ma mb) as [E|E]; [|destruct (Z.eqb_spec ma 1) as [E1|E1]].
  - cbn. do 3 f_equal. lia.
  - cbn. do 3 f_equal. lia.
  - assert ((mb =? 1) = true) as -> by (apply Z.eqb_eq; lia).
    cbn. do 3 f_equal. lia.
Qed.

Lemma repr2_ext (t : Tensor) (n m : Z) (g g' : Z -> Z -> R) :
  repr2 t n m g ->
  (forall r j, 0 <= r < n -> 0 <= j < m -> g r j = g' r j) ->
  repr2 t n m g'.
Proof.
  intros [Hs Hd] H. split; [exact Hs|]. intros r j Hr Hj.
  rewrite Hd, H by assumption. reflexivity.
Qed.

Lemma binop_2d (f : R -> R -> R) (a b : Tensor) (n m ma mb : Z)
    (ga gb : Z -> Z -> R) :
  0 < m ->
  repr2 a n ma ga -> repr2 b n mb gb ->
  ma = m \/ ma = 1 -> mb = m \/ mb = 1 -> ma = m \/ mb = m ->
  exists c, binop f a b = Some c /\
    repr2 c n m (fun r j => f (ga r (if ma =? 1 then 0 else j))
                              (gb r (if mb =? 1 then 0 else j))).
Proof.
  intros Hm [Hsa Hda] [Hsb Hdb] Ha Hb Hab. unfold binop.
  rewrite Hsa, Hsb, (broadcast_shapes_2d n m ma mb Ha Hb Hab).
  eexists. split; [reflexivity|]. split; [reflexivity|].
  intros r j Hr Hj. cbn [data].
  rewrite !bcast_index_2d by assumption.
  rewrite Hda, Hdb; [reflexivity| | | |]; try assumption.
  - destruct (Z.eqb_spec mb 1); lia.
  - destruct (Z.eqb_spec ma 1); lia.
Qed.

(** Both operands (n, m). *)
Lemma binop_full (f : R -> R -> R) (a b : Tensor) (n m : Z) (ga gb : Z -> Z -> R) :
  0 < m -> repr2 a n m ga -> repr2 b n m gb ->
  exists c, binop f a b = Some c /\ repr2 c n m (fun r j => f (ga r j) (gb r j)).
Proof.
  intros Hm Ha Hb.
  destruct (binop_2d f a b n m m m ga gb Hm Ha Hb) as (c & Hc & Hr); auto.
  exists c. split; [exact Hc|]. eapply repr2_ext; [exact Hr|].
  intros r j Hr' Hj. cbn beta. destruct (Z.eqb_spec m 1); [|reflexivity].
  assert (j = 0) as -> by lia. reflexivity.
Qed.

(** An (n, m) operand with an (n, 1) column on the right ... *)
Lemma binop_col_r (f : R -> R -> R) (a b : Tensor) (n m : Z) (ga gb : Z -> Z -> R) :
  0 < m -> repr2 a n m ga -> repr2 b n 1 gb ->
  exists c, binop f a b = Some c /\ repr2 c n m (fun r j => f (ga r j) (gb r 0)).
Proof.
  intros Hm Ha Hb.
  destruct (binop_2d f a b n m m 1 ga gb Hm Ha Hb) as (c & Hc & Hr); auto.
  exists c. split; [exact Hc|]. eapply repr2_ext; [exact Hr|].
  intros r j Hr' Hj. cbn beta. cbn [Z.eqb Pos.eqb].
  destruct (Z.eqb_spec m 1); [|reflexivity].
  assert (j = 0) as -> by lia. reflexivity.
Qed.

(** ... and on the left. *)
Lemma binop_col_l (f : R -> R -> R) (a b : Tensor) (n m : Z) (ga gb : Z -> Z -> R) :
  0 < m -> repr2 a n 1 ga -> repr2 b n m gb ->
  exists c, binop f a b = Some c /\ repr2 c n m (fun r j => f (ga r 0) (gb r j)).
Proof.
  intros Hm Ha Hb.
  destruct (binop_2d f a b n m 1 m ga gb Hm Ha Hb) as (c & Hc & Hr); auto.
  exists c. split; [exact Hc|]. eapply repr2_ext; [exact Hr|].
  intros r j Hr' Hj. cbn beta. cbn [Z.eqb Pos.eqb].
  destruct (Z.eqb_spec m 1); [|reflexivity].
  assert (j = 0) as -> by lia. reflexivity.
Qed.

Lemma map_t_repr2 (f : R -> R) (a : Tensor) (n m : Z) (g : Z -> Z -> R) :
  repr2 a n m g -> repr2 (map_t f a) n m (fun r j => f (g r j)).
Proof.
  intros [Hs Hd]. split; [exact Hs|]. intros r j Hr Hj. cbn [data map_t].
  rewrite Hd by assumption. reflexivity.
Qed.

Lemma map_t_repr1 (f : R -> R) (a : Tensor) (n : Z) (h : Z -> R) :
  repr1 a n h -> repr1 (map_t f a) n (fun r => f (h r)).
Proof.
  intros [Hs Hd]. split; [exact Hs|]. intros r Hr. cbn [data map_t].
  rewrite Hd by assumption. reflexivity.
Qed.

Lemma sum_last_keep (a : Tensor) (n m : Z) (g : Z -> Z -> R) :
  repr2 a n m g ->
  exists c, sum_last true a = Some c /\ repr2 c n 1 (fun r _ => zsum m (g r)).
Proof.
  intros [Hs Hd]. unfold sum_last. rewrite Hs. cbn [rev app].
  eexists. split; [reflexivity|]. split; [reflexivity|].
  intros r j Hr Hj. cbn [data]. apply zsum_ext. intros j' Hj'.
  replace (r * 1 + j) with r by lia. apply Hd; assumption.
Qed.

Lemma sum_last_drop (a : Tensor) (n m : Z) (g : Z -> Z -> R) :
  repr2 a n m g ->
  exists c, sum_last false a = Some c /\ repr1 c n (fun r => zsum m (g r)).
Proof.
  intros [Hs Hd]. unfold sum_last. rewrite Hs. cbn [rev app].
  eexists. split; [reflexivity|]. split; [reflexivity|].
  intros r Hr. cbn [data]. apply zsum_ext. intros j' Hj'. apply Hd; assumption.
Qed.

Lemma mean_last_keep (a : Tensor) (n m : Z) (g : Z -> Z -> R) :
  0 < m -> repr2 a n m g ->
  exists c, mean_last true a = inr c /\
            repr2 c n 1 (fun r _ => (zsum m (g r) / IZR m)%R).
Proof.
  intros Hm [Hs Hd]. unfold mean_last. rewrite Hs. cbn [rev app].
  assert ((m =? 0) = false) as -> by (apply Z.eqb_neq; lia).
  eexists. split; [reflexivity|]. split; [reflexivity|].
  intros r j Hr Hj. cbn [data]. f_equal. apply zsum_ext. intros j' Hj'.
  replace (r * 1 + j) with r by lia. apply Hd; assumption.
Qed.

(** Division of two columns: defined when no divisor is zero. *)
Lemma div_col (a b : Tensor) (n : Z) (ga gb : Z -> Z -> R) :
  repr2 a n 1 ga -> repr2 b n 1 gb ->
  exists c, repr2 c n 1 (fun r _ => (ga r 0%Z / gb r 0%Z)%R) /\
    div a b = if all_upto n (fun r => nonzero (gb r 0)) then inr c else inl NonFinite.
Proof.
  intros Ha Hb. unfold div.
  destruct (binop_full Rdiv a b n 1 ga gb ltac:(lia) Ha Hb) as (c & -> & Hc).
  exists c. split.
  - eapply repr2_ext; [exact Hc|]. intros r j Hr Hj. cbn beta.
    assert (j = 0) as -> by lia. reflexivity.
  - cbn [shaped mbind sum_bind]. destruct Hc as [Hsc _]. destruct Hb as [Hsb Hdb].
    rewrite Hsc, Hsb. cbn [numel fold_right].
    replace (n * (1 * 1)) with n by lia.
    rewrite (all_upto_ext n _ (fun r => nonzero (gb r 0))); [reflexivity|].
    intros i Hi. replace i with (i * 1 + 0) at 1 by lia.
    rewrite bcast_index_2d by (auto; lia). cbn [Z.eqb Pos.eqb].
    rewrite Hdb by lia. reflexivity.
Qed.

Lemma broadcast_shapes_1d (n : Z) : broadcast_shapes [n] [n] = Some [n].
Proof. unfold broadcast_shapes. cbn [rev app broadcast_rev]. rewrite Z.eqb_refl. reflexivity. Qed.

Lemma binop_vec (f : R -> R -> R) (a b : Tensor) (n : Z) (ha hb : Z -> R) :
  repr1 a n ha -> repr1 b n hb ->
  exists c, binop f a b = Some c /\ repr1 c n (fun r => f (ha r) (hb r)).
Proof.
  intros [Hsa Hda] [Hsb Hdb]. unfold binop. rewrite Hsa, Hsb, broadcast_shapes_1d.
  eexists. split; [reflexivity|]. split; [reflexivity|].
  intros r Hr. cbn [data]. rewrite bcast_index_1d by assumption.
  rewrite Hda, Hdb by assumption. reflexivity.
Qed.

(** Division of two vectors. *)
Lemma div_vec (a b : Tensor) (n : Z) (ha hb : Z -> R) :
  repr1 a n ha -> repr1 b n hb ->
  exists c, repr1 c n (fun r => (ha r / hb r)%R) /\
    div a b = if all_upto n (fun r => nonzero (hb r)) then inr c else inl NonFinite.
Proof.
  intros Ha Hb. unfold div.
  destruct (binop_vec Rdiv a b n ha hb Ha Hb) as (c & -> & Hc).
  exists c. split; [exact Hc|].
  cbn [shaped mbind sum_bind]. destruct Hc as [Hsc _]. destruct Hb as [Hsb Hdb].
  rewrite Hsc, Hsb. cbn [numel fold_right]. rewrite Z.mul_1_r.
  rewrite (all_upto_ext n _ (fun r => nonzero (hb r))); [reflexivity|].
  intros i Hi. rewrite bcast_index_1d by assumption.
  rewrite Hdb by lia. reflexivity.
Qed.

Lemma log10_vec (a : Tensor) (n : Z) (h : Z -> R) :
  repr1 a n h ->
  repr1 (map_t Rlog10 a) n (fun r => Rlog10 (h r)) /\
  log10 a = if all_upto n (fun r => positive (h r))
            then inr (map_t Rlog10 a) else inl NonFinite.
Proof.
  intros Ha. split; [apply map_t_repr1; exact Ha|].
  destruct Ha as [Hs Hd]. unfold log10. rewrite Hs. cbn [numel fold_right].
  rewrite Z.mul_1_r.
  rewrite (all_upto_ext n _ (fun r => positive (h r))); [reflexivity|].
  intros i Hi. rewrite Hd by assumption. reflexivity.
Qed.

Lemma mean_all_vec (a : Tensor) (n : Z) (h : Z -> R) :
  0 < n -> repr1 a n h -> mean_all a = inr (zsum n h / IZR n)%R.
Proof.
  intros Hn [Hs Hd]. unfold mean_all. rewrite Hs. cbn [numel fold_right].
  rewrite Z.mul_1_r.
  assert ((n =? 0) = false) as -> by (apply Z.eqb_neq; lia).
  do 2 f_equal. apply zsum_ext. exact Hd.
Qed.

(** The flattening [reshape(B*S, -1)] of a (B, S, F, T) tensor. *)
Lemma reshape_rows (x : Tensor) (B S' F T : Z) :
  shape x = [B; S'; F; T] -> 0 < B -> 0 < S' -> 0 < F -> 0 < T ->
  exists x', reshape [B * S'; -1] x = Some x' /\
             repr2 x' (B * S') (F * T) (fun r j => data x (r * (F * T) + j)).
Proof.
  intros Hs HB HS HF HT. unfold reshape. rewrite Hs.
  rewrite infer_size_hole2 by nia.
  set (n := B * S'). set (m := F * T).
  assert (0 < n) by nia. assert (0 < m) by nia.
  replace (numel [B; S'; F; T]) with (m * n) by (unfold n, m; simpl; lia).
  assert ((0 <? n) = true) as -> by (apply Z.ltb_lt; lia).
  assert ((n =? 0) = false) as -> by (apply Z.eqb_neq; lia).
  rewrite Z.mod_mul, Z.div_mul by lia. rewrite orb_true_r.
  eexists. split; [reflexivity|]. split; reflexivity.
Qed.

End TorchRows.

(** ** The loss, row by row *)

Section SpecVectors.
Import Torch SI_SDR_Spec.


Lemma inner_fmap {A} (f g : A -> R) (l : list A) :
  inner (f <$> l) (g <$> l) = Rsum ((fun j => f j * g j)%R <$> l).
Proof.
  unfold inner. induction l as [|x l IH]; simpl; [reflexivity|].
  f_equal. exact IH.
Qed.

Lemma sqnorm_fmap {A} (f : A -> R) (l : list A) :
  sqnorm (f <$> l) = Rsum ((fun j => f j ^ 2)%R <$> l).
Proof.
  unfold sqnorm. rewrite inner_fmap. f_equal. apply list_fmap_ext.
  intros _ x _. simpl. lra.
Qed.

Lemma scale_fmap {A} (a : R) (f : A -> R) (l : list A) :
  scale a (f <$> l) = (fun j => a * f j)%R <$> l.
Proof. unfold scale. rewrite <- list_fmap_compose. reflexivity. Qed.

Lemma vsub_fmap {A} (f g : A -> R) (l : list A) :
  vsub (f <$> l) (g <$> l) = (fun j => f j - g j)%R <$> l.
Proof.
  unfold vsub. induction l as [|x l IH]; simpl; [reflexivity|].
  f_equal. exact IH.
Qed.

Lemma mean_row (m : Z) (x : Tensor) (r : Z) :
  0 < m ->
  mean (row m x r) = (zsum m (fun j => data x (r * m + j)) / IZR m)%R.
Proof.
  intros Hm. unfold mean, row, zsum.
  rewrite length_fmap, length_seqZ, INR_IZR_INZ, Z2Nat.id by lia.
  reflexivity.
Qed.

Lemma zero_mean_row (m : Z) (x : Tensor) (r : Z) :
  zero_mean (row m x r) =
  (fun j => data x (r * m + j) - mean (row m x r))%R <$> seqZ 0 m.
Proof. unfold zero_mean. unfold row at 2. rewrite <- list_fmap_compose. reflexivity. Qed.

End SpecVectors.

Section LossByRows.
Import Torch SI_SDR_Spec.

Variables (predictions targets : Tensor) (B S' F T : Z) (e : R).
Hypothesis HsP : shape predictions = [B; S'; F; T].
Hypothesis HsT : shape targets = [B; S'; F; T].
Hypothesis HB : 0 < B.
Hypothesis HS : 0 < S'.
Hypothesis HF : 0 < F.
Hypothesis HT : 0 < T.

Let n := B * S'.
Let m := F * T.
Let pz (r : Z) : list R := zero_mean (row m predictions r).
Let tz (r : Z) : list R := zero_mean (row m targets r).

(** The same quantities as functions of the row and column index. *)
Let p_ (r j : Z) : R := data predictions (r * m + j).
Let t_ (r j : Z) : R := data targets (r * m + j).
Let pz_ (r j : Z) : R := (p_ r j - zsum m (p_ r) / IZR m)%R.
Let tz_ (r j : Z) : R := (t_ r j - zsum m (t_ r) / IZR m)%R.
Let dot_ (r : Z) : R := zsum m (fun j => pz_ r j * tz_ r j)%R.
Let tt_ (r : Z) : R := zsum m (fun j => tz_ r j ^ 2)%R.
Let al_ (r : Z) : R := ((dot_ r + e) / (tt_ r + e))%R.
Let st_ (r j : Z) : R := (al_ r * tz_ r j)%R.
Let num_ (r : Z) : R := zsum m (fun j => st_ r j ^ 2)%R.
Let den_ (r : Z) : R := zsum m (fun j => (pz_ r j - st_ r j) ^ 2)%R.
Let si_ (r : Z) : R := (num_ r / (den_ r + e))%R.

Lemma rows_as_functions (r : Z) :
  pz r = pz_ r <$> seqZ 0 m /\
  tz r = tz_ r <$> seqZ 0 m /\
  sqnorm (tz r) = tt_ r /\
  alpha e (pz r) (tz r) = al_ r /\
  sqnorm (vsub (pz r) (scale (alpha e (pz r) (tz r)) (tz r))) = den_ r /\
  ratio e (pz r) (tz r) = si_ r /\
  score e (row m predictions r) (row m targets r) = (10 * Rlog10 (si_ r + e))%R.
Proof.
  assert (0 < m) as Hm by (unfold m; nia).
  assert (pz r = pz_ r <$> seqZ 0 m) as Hpz.
  { unfold pz. rewrite zero_mean_row, mean_row by exact Hm. reflexivity. }
  assert (tz r = tz_ r <$> seqZ 0 m) as Htz.
  { unfold tz. rewrite zero_mean_row, mean_row by exact Hm. reflexivity. }
  assert (sqnorm (tz r) = tt_ r) as Htt.
  { rewrite Htz, sqnorm_fmap. reflexivity. }
  assert (alpha e (pz r) (tz r) = al_ r) as Hal.
  { unfold alpha. rewrite Htt, Hpz, Htz, inner_fmap. reflexivity. }
  assert (sqnorm (scale (al_ r) (tz r)) = num_ r) as Hnum.
  { rewrite Htz, scale_fmap, sqnorm_fmap. reflexivity. }
  assert (sqnorm (vsub (pz r) (scale (al_ r) (tz r))) = den_ r) as Hden.
  { rewrite Hpz, Htz, scale_fmap, vsub_fmap, sqnorm_fmap. reflexivity. }
  assert (ratio e (pz r) (tz r) = si_ r) as Hsi.
  { unfold ratio. rewrite Hal, Hnum, Hden. reflexivity. }
  repeat split; try assumption.
  - rewrite Hal. exact Hden.
  - unfold score. fold (pz r) (tz r). rewrite Hsi. reflexivity.
Qed.

(** [forward] computes, for every row, the quantities of the specification;
    it is non-finite exactly when a divisor is zero or a logarithm's argument
    is not positive in some row. *)
Lemma forward_by_rows :
  SI_SDR_Loss.forward {| SI_SDR_Loss.eps := e |} predictions targets =
    if all_upto n (fun r => nonzero (sqnorm (tz r) + e)) then
      if all_upto n (fun r =>
           nonzero (sqnorm (vsub (pz r) (scale (alpha e (pz r) (tz r)) (tz r))) + e))
      then
        if all_upto n (fun r => positive (ratio e (pz r) (tz r) + e)) then
          inr (- (zsum n (fun r => score e (row m predictions r) (row m targets r))
                  / IZR n))%R
        else inl NonFinite
      else inl NonFinite
    else inl NonFinite.
Proof.
  assert (0 < n) as Hn by (unfold n; nia).
  assert (0 < m) as Hm by (unfold m; nia).
  (* the specification side, as functions of the row *)
  rewrite (all_upto_ext n (fun r => nonzero (sqnorm (tz r) + e))
             (fun r => nonzero (tt_ r + e))); cycle 1.
  { intros r _. destruct (rows_as_functions r) as (_ & _ & -> & _). reflexivity. }
  rewrite (all_upto_ext n
             (fun r => nonzero
                (sqnorm (vsub (pz r) (scale (alpha e (pz r) (tz r)) (tz r))) + e))
             (fun r => nonzero (den_ r + e))); cycle 1.
  { intros r _. destruct (rows_as_functions r) as (_ & _ & _ & _ & -> & _). reflexivity. }
  rewrite (all_upto_ext n (fun r => positive (ratio e (pz r) (tz r) + e))
             (fun r => positive (si_ r + e))); cycle 1.
  { intros r _. destruct (rows_as_functions r) as (_ & _ & _ & _ & _ & -> & _).
    reflexivity. }
  rewrite (zsum_ext n (fun r => score e (row m predictions r) (row m targets r))
             (fun r => 10 * Rlog10 (si_ r + e))%R); cycle 1.
  { intros r _. destruct (rows_as_functions r) as (_ & _ & _ & _ & _ & _ & ->).
    reflexivity. }
  (* the code side, operation by operation *)
  unfold SI_SDR_Loss.forward. rewrite HsP.
  cbn [unpack4 shaped mbind sum_bind SI_SDR_Loss.eps].
  destruct (reshape_rows predictions B S' F T HsP HB HS HF HT) as (P2 & -> & HP2).
  destruct (reshape_rows targets B S' F T HsT HB HS HF HT) as (T2 & -> & HT2).
  fold n m in HP2, HT2 |- *. fold p_ in HP2. fold t_ in HT2.
  cbn [shaped mbind sum_bind].
  destruct (mean_last_keep P2 n m _ Hm HP2) as (mp & -> & Hmp).
  cbn [shaped mbind sum_bind].
  destruct (binop_col_r Rminus P2 mp n m _ _ Hm HP2 Hmp) as (Pz & EPz & HPz).
  unfold sub. rewrite EPz. cbn [shaped mbind sum_bind].
  destruct (mean_last_keep T2 n m _ Hm HT2) as (mt & -> & Hmt).
  cbn [shaped mbind sum_bind].
  destruct (binop_col_r Rminus T2 mt n m _ _ Hm HT2 Hmt) as (Tz & ETz & HTz).
  rewrite ETz. cbn [shaped mbind sum_bind].
  change (repr2 Pz n m pz_) in HPz. change (repr2 Tz n m tz_) in HTz.
  destruct (binop_full Rmult Pz Tz n m _ _ Hm HPz HTz) as (PT & EPT & HPT).
  unfold mul. rewrite EPT. cbn [shaped mbind sum_bind].
  destruct (sum_last_keep PT n m _ HPT) as (dot & -> & Hdot).
  cbn [shaped mbind sum_bind].
  destruct (sum_last_keep (pow2 Tz) n m _ (map_t_repr2 _ Tz n m _ HTz)) as (tt & -> & Htt).
  cbn [shaped mbind sum_bind].
  destruct (div_col (add_scalar dot e) (add_scalar tt e) n _ _
              (map_t_repr2 _ dot n 1 _ Hdot) (map_t_repr2 _ tt n 1 _ Htt))
    as (al & Hal & ->).
  change (all_upto n (fun r => nonzero (zsum m (fun j => (tz_ r j ^ 2)%R) + e)))
    with (all_upto n (fun r => nonzero (tt_ r + e))).
  destruct (all_upto n (fun r => nonzero (tt_ r + e))); [|reflexivity].
  cbn [shaped mbind sum_bind].
  change (repr2 al n 1 (fun r _ => al_ r)) in Hal.
  destruct (binop_col_l Rmult al Tz n m _ _ Hm Hal HTz) as (St & ESt & HSt).
  rewrite ESt. cbn [shaped mbind sum_bind].
  change (repr2 St n m st_) in HSt.
  destruct (sum_last_drop (pow2 St) n m _ (map_t_repr2 _ St n m _ HSt))
    as (num & -> & Hnum).
  cbn [shaped mbind sum_bind].
  destruct (binop_full Rminus Pz St n m _ _ Hm HPz HSt) as (Res & ERes & HRes).
  rewrite ERes. cbn [shaped mbind sum_bind].
  destruct (sum_last_drop (pow2 Res) n m _ (map_t_repr2 _ Res n m _ HRes))
    as (den & -> & Hden).
  cbn [shaped mbind sum_bind].
  change (repr1 num n num_) in Hnum. change (repr1 den n den_) in Hden.
  destruct (div_vec num (add_scalar den e) n _ _ Hnum (map_t_repr1 _ den n _ Hden))
    as (si & Hsi & ->).
  destruct (all_upto n (fun r => nonzero (den_ r + e))); [|reflexivity].
  cbn [shaped mbind sum_bind].
  change (repr1 si n si_) in Hsi.
  destruct (log10_vec (add_scalar si e) n _ (map_t_repr1 _ si n _ Hsi)) as (Hlg & ->).
  destruct (all_upto n (fun r => positive (si_ r + e))); [|reflexivity].
  cbn [shaped mbind sum_bind].
  unfold scalar_mul.
  rewrite (mean_all_vec _ n _ Hn (map_t_repr1 (fun x => 10 * x)%R _ n _ Hlg)).
  reflexivity.
Qed.

End LossByRows.

Section FlattenPairs.
Import Torch SI_SDR_Spec.

(** Two nested index loops enumerate the flat indices in order. *)
Lemma seqZ_product {A} (g : Z -> A) (B S' : Z) :
  0 <= B -> 0 <= S' ->
  (b ← seqZ 0 B; s ← seqZ 0 S'; [g (b * S' + s)]) = g <$> seqZ 0 (B * S').
Proof.
  intros HB HS. rewrite <- (Z2Nat.id B HB). clear HB.
  induction (Z.to_nat B) as [|k IH]; [reflexivity|].
  rewrite seqZ_S, bind_app, IH, bind_singleton, Z.add_0_l.
  replace (Z.of_nat (S k) * S') with (Z.of_nat k * S' + S') by lia.
  rewrite seqZ_app, fmap_app by nia. f_equal.
  rewrite (Z.add_comm 0), <- fmap_add_seqZ, <- list_fmap_compose.
  clear IH. induction (seqZ 0 S') as [|s l IHl]; [reflexivity|].
  rewrite bind_cons, IHl. reflexivity.
Qed.

Variables (x : Tensor) (B S' F T : Z).
Hypothesis Hs : shape x = [B; S'; F; T].
Hypothesis HF : 0 <= F.
Hypothesis HT : 0 <= T.

Lemma flatten_pair_row (b s : Z) :
  flatten_pair x b s = row (F * T) x (b * S' + s).
Proof.
  unfold flatten_pair, row. rewrite Hs.
  rewrite <- (seqZ_product (fun j => data x ((b * S' + s) * (F * T) + j)) F T HF HT).
  apply list_bind_ext; [|reflexivity]. intros f.
  apply list_bind_ext; [|reflexivity]. intros t.
  unfold get4. rewrite Hs. cbn [ravel numel fold_right]. do 2 f_equal. lia.
Qed.

End FlattenPairs.

Section LossFacts.
Import Torch SI_SDR_Spec.

Lemma Rsum_nonneg (l : list R) : Forall (fun x => 0 <= x)%R l -> (0 <= Rsum l)%R.
Proof. induction 1 as [|x l Hx _ IH]; simpl; lra. Qed.

Lemma sqnorm_nonneg (v : list R) : (0 <= sqnorm v)%R.
Proof.
  unfold sqnorm, inner. apply Rsum_nonneg.
  induction v as [|x v IH]; simpl; constructor; [nra|exact IH].
Qed.

Lemma nonzero_pos (x : R) : (0 < x)%R -> nonzero x = true.
Proof. intros H. unfold nonzero. destruct (Req_dec_T x 0); [lra|reflexivity]. Qed.

Lemma positive_pos (x : R) : (0 < x)%R -> positive x = true.
Proof. intros H. unfold positive. destruct (Rlt_dec 0 x); [reflexivity|lra]. Qed.

Lemma ratio_nonneg (e : R) (p t : list R) : (0 < e)%R -> (0 <= ratio e p t)%R.
Proof.
  intros He. unfold ratio.
  pose proof (sqnorm_nonneg (scale (alpha e p t) t)).
  pose proof (sqnorm_nonneg (vsub p (scale (alpha e p t) t))).
  apply Rmult_le_pos; [assumption|]. apply Rlt_le, Rinv_0_lt_compat. lra.
Qed.

Variables (predictions targets : Tensor) (B S' F T : Z) (e : R).
Hypothesis HsP : shape predictions = [B; S'; F; T].
Hypothesis HsT : shape targets = [B; S'; F; T].
Hypothesis HB : 0 < B.
Hypothesis HS : 0 < S'.
Hypothesis HF : 0 < F.
Hypothesis HT : 0 < T.

(** The specification's loss, read by rows. *)
Lemma si_sdr_loss_by_rows :
  si_sdr_loss e predictions targets =
  (- (zsum (B * S') (fun r => score e (row (F * T) predictions r)
                                      (row (F * T) targets r))
      / IZR (B * S')))%R.
Proof.
  unfold si_sdr_loss. rewrite HsP.
  assert ((b ← seqZ 0 B; s ← seqZ 0 S';
           [score e (flatten_pair predictions b s) (flatten_pair targets b s)])
          = (fun r => score e (row (F * T) predictions r) (row (F * T) targets r))
            <$> seqZ 0 (B * S')) as ->.
  { rewrite <- seqZ_product by lia.
    apply list_bind_ext; [|reflexivity]. intros b.
    apply list_bind_ext; [|reflexivity]. intros s.
    rewrite (flatten_pair_row predictions B S' F T), (flatten_pair_row targets B S' F T)
      by (assumption || lia).
    reflexivity. }
  rewrite length_fmap, length_seqZ, INR_IZR_INZ, Z2Nat.id by nia.
  reflexivity.
Qed.

(** With a positive epsilon no divisor is zero and every logarithm has a
    positive argument: [forward] returns the specification's value. *)
Lemma forward_positive_eps :
  (0 < e)%R ->
  SI_SDR_Loss.forward {| SI_SDR_Loss.eps := e |} predictions targets
  = inr (si_sdr_loss e predictions targets).
Proof.
  intros He.
  rewrite (forward_by_rows predictions targets B S' F T e HsP HsT HB HS HF HT).
  rewrite si_sdr_loss_by_rows.
  assert (forall n (p q : Z -> list R),
            all_upto n (fun r => nonzero (sqnorm (q r) + e)) = true) as Hnz.
  { intros n p q. apply all_upto_true. intros r _. apply nonzero_pos.
    pose proof (sqnorm_nonneg (q r)). lra. }
  rewrite (Hnz _ (fun _ => [])), (Hnz _ (fun _ => [])).
  assert (all_upto (B * S') (fun r =>
            positive (ratio e (zero_mean (row (F * T) predictions r))
                              (zero_mean (row (F * T) targets r)) + e)) = true) as ->.
  { apply all_upto_true. intros r _. apply positive_pos.
    pose proof (ratio_nonneg e (zero_mean (row (F * T) predictions r))
                  (zero_mean (row (F * T) targets r)) He). lra. }
  reflexivity.
Qed.

End LossFacts.

Section SilentTargets.
Import Torch SI_SDR_Spec.

Lemma Rsum_zero (l : list R) : Forall (fun x => x = 0%R) l -> Rsum l = 0%R.
Proof. induction 1 as [|x l -> _ IH]; simpl; lra. Qed.

Lemma zero_mean_zero (t : list R) :
  Forall (fun x => x = 0%R) t -> Forall (fun x => x = 0%R) (zero_mean t).
Proof.
  intros H. unfold zero_mean, mean. rewrite (Rsum_zero t H).
  apply Forall_fmap. eapply Forall_impl; [exact H|].
  intros x ->. simpl. unfold Rdiv. lra.
Qed.





End SilentTargets.

(** C2: on predictions and targets shaped (batch, sources, freq, time) the
    loss is the result of the specified algorithm -- per (batch, source)
    pair: flatten, subtract the mean, alpha with epsilon above and below,
    scaled target, energy ratio with epsilon in the denominator, ten times
    the base-10 logarithm of the ratio plus epsilon -- negated and averaged
    over the batch * source pairs. *)
Theorem forward_is_the_specified_algorithm
    (self : SI_SDR_Loss.Loss) (predictions targets : Torch.Tensor) (B S' F T : Z) :
  (0 < SI_SDR_Loss.eps self)%R ->
  Torch.shape predictions = [B; S'; F; T] ->
  Torch.shape targets = [B; S'; F; T] ->
  0 < B -> 0 < S' -> 0 < F -> 0 < T ->
  SI_SDR_Loss.forward self predictions targets
  = inr (SI_SDR_Spec.si_sdr_loss (SI_SDR_Loss.eps self) predictions targets).
Proof.
  destruct self as [e]. cbn [SI_SDR_Loss.eps]. intros He HsP HsT HB HS HF HT.
  apply (forward_positive_eps predictions targets B S' F T e); assumption.
Qed.

Lemma forward_is_the_specified_algorithm_witness :
  SI_SDR_Loss.forward SI_SDR_Loss.init
    (Torch.mkTensor [1; 4; 2; 3] (fun i => IZR i))
    (Torch.mkTensor [1; 4; 2; 3] (fun i => IZR (i * i)))
  = inr (SI_SDR_Spec.si_sdr_loss SI_SDR_Loss.default_eps
           (Torch.mkTensor [1; 4; 2; 3] (fun i => IZR i))
           (Torch.mkTensor [1; 4; 2; 3] (fun i => IZR (i * i)))).
Proof.
  apply (forward_is_the_specified_algorithm SI_SDR_Loss.init _ _ 1 4 2 3);
    first [reflexivity | lia | (cbn; unfold SI_SDR_Loss.default_eps; lra)].
Defined.



(** ** Rescaling the prediction *)

Section DoubledTarget.
Import Torch SI_SDR_Spec.

Variable e : R.
Hypothesis He : (0 < e)%R.





(** The target (1, -1) as its own prediction, and twice the target. *)
Let target : Tensor := SI_SDR_Loss.two_tone.



End DoubledTarget.

Section Rescaling.
Import Torch SI_SDR_Spec.













End Rescaling.




(** ** The target as its own prediction *)

Section TargetAsPrediction.
Import Torch SI_SDR_Spec.






End TargetAsPrediction.




(** ** More on the forward pass: ranks and the batch-source rows *)

(** X1: [forward] accepts three-axis inputs only.  An input with no axis
    raises where [x.shape[0]] is read; an input with one, two, four or more
    axes -- a batch that already carries the channel axis,
    (batch, 1, n_mels, seq_len), is one -- raises in the convolutional
    encoder, whatever its sizes. *)
Theorem forward_needs_three_axes (self : SpectrogramSeparator.Model) (x : Torch.Tensor) :
  length (Torch.shape x) <> 3%nat ->
  SpectrogramSeparator.forward self x =
    inl (match Torch.shape x with
         | [] => SpectrogramSeparator.AtInput
         | _ => SpectrogramSeparator.AtConvEncoder
         end).
Proof. exact (forward_other_ranks self x). Qed.

Lemma forward_needs_three_axes_witness :
  SpectrogramSeparator.forward
    (SpectrogramSeparator.init_optimized SpectrogramSeparator.zero_weights)
    (Torch.mkTensor [2; 1; 128; 800] (fun _ => 1%R))
  = inl SpectrogramSeparator.AtConvEncoder.
Proof.
  apply (forward_needs_three_axes
           (SpectrogramSeparator.init_optimized SpectrogramSeparator.zero_weights)
           (Torch.mkTensor [2; 1; 128; 800] (fun _ => 1%R))).
  simpl. lia.
Defined.

Section TorchIndices.
Import Torch.

Lemma ravel_bound (s idx : list Z) :
  Forall2 (fun n j => 0 <= j < n) s idx -> 0 <= ravel s idx < numel s.
Proof.
  induction 1 as [|n j s idx Hj _ IH]; cbn [ravel numel fold_right]; [lia|].
  fold (numel s). nia.
Qed.

(** Flat index and multi-index determine each other. *)
Lemma unravel_ravel (s idx : list Z) :
  Forall2 (fun n j => 0 <= j < n) s idx -> unravel s (ravel s idx) = idx.
Proof.
  induction 1 as [|n j s idx Hj Hrest IH]; [reflexivity|].
  pose proof (ravel_bound s idx Hrest) as Hb.
  cbn [ravel unravel]. f_equal.
  - symmetry. apply (Z.div_unique_pos _ _ _ (ravel s idx)); lia.
  - rewrite <- IH at 2. f_equal.
    symmetry. apply (Z.mod_unique_pos _ _ j); lia.
Qed.

End TorchIndices.

Section BatchSourceRows.
Import Torch SpectrogramSeparator.

Variable self : Model.
Variable B : Z.
Hypothesis HB : 0 < B.
Hypothesis Hmels : 0 < n_mels self.
Hypothesis Hlen : 0 < seq_len self.
Hypothesis Hsrc : 0 < n_sources self.
Hypothesis Hd : 0 < d_model self.

Lemma pick_unless_one (n j : Z) : 0 <= j < n -> (if n =? 1 then 0 else j) = j.
Proof. intros H. destruct (Z.eqb_spec n 1); lia. Qed.

Lemma queries_rows :
  exists q queries,
    expand [B; -1; -1; -1] (source_queries self) = Some q /\
    shape q !! 1%nat = Some (n_sources self) /\
    reshape [B * n_sources self; seq_len self; -1] q = Some queries /\
    shape queries = [B * n_sources self; seq_len self; d_model self] /\
    forall b s t d,
      0 <= b < B -> 0 <= s < n_sources self -> 0 <= t < seq_len self ->
      0 <= d < d_model self ->
      data queries (ravel [B * n_sources self; seq_len self; d_model self]
                          [b * n_sources self + s; t; d])
      = data (source_queries self)
             (ravel [n_sources self; seq_len self; d_model self] [s; t; d]).
Proof.
  set (q0 := mkTensor [B; n_sources self; seq_len self; d_model self]
                (fun i => data (source_queries self)
                            (bcast_index [B; n_sources self; seq_len self; d_model self]
                                         [n_sources self; seq_len self; d_model self] i))).
  assert (expand [B; -1; -1; -1] (source_queries self) = Some q0) as Hq.
  { unfold expand, source_queries. cbn [shape rev app expand_rev orb Z.eqb].
    assert ((0 <=? B) = true) as -> by (apply Z.leb_le; lia). reflexivity. }
  exists q0. eexists. split; [exact Hq|]. split; [reflexivity|].
  rewrite (query_reshape_shape self Hlen Hsrc Hd q0 B (seq_len self) eq_refl HB Hlen).
  rewrite Z.mul_comm, Z.mod_mul by lia.
  cbn [Z.eqb]. split; [reflexivity|].
  split; [cbn [shape]; rewrite Z.div_mul by lia; reflexivity|].
  intros b s t d Hb Hs Ht Hd'. cbn [data q0]. unfold q0. cbn [data]. f_equal.
  unfold bcast_index.
  replace (ravel [B * n_sources self; seq_len self; d_model self]
                 [b * n_sources self + s; t; d])
    with (ravel [B; n_sources self; seq_len self; d_model self] [b; s; t; d])
    by (cbn [ravel numel fold_right]; lia).
  rewrite unravel_ravel by (repeat constructor; lia).
  cbn [length drop Nat.sub zip_with].
  rewrite !pick_unless_one by lia. reflexivity.
Qed.

Lemma memory_rows (memory : Tensor) :
  shape memory = [B; seq_len self; d_model self] ->
  exists m memory',
    (u ← unsqueeze 1 memory; expand [-1; n_sources self; -1; -1] u) = Some m /\
    reshape [B * n_sources self; seq_len self; -1] m = Some memory' /\
    shape memory' = [B * n_sources self; seq_len self; d_model self] /\
    forall b s t d,
      0 <= b < B -> 0 <= s < n_sources self -> 0 <= t < seq_len self ->
      0 <= d < d_model self ->
      data memory' (ravel [B * n_sources self; seq_len self; d_model self]
                          [b * n_sources self + s; t; d])
      = data memory (ravel [B; seq_len self; d_model self] [b; t; d]).
Proof.
  intros Hs.
  set (m0 := mkTensor [B; n_sources self; seq_len self; d_model self]
                (fun i => data memory
                            (bcast_index [B; n_sources self; seq_len self; d_model self]
                                         [B; 1; seq_len self; d_model self] i))).
  assert ((u ← unsqueeze 1 memory; expand [-1; n_sources self; -1; -1] u) = Some m0) as Hm.
  { assert (unsqueeze 1 memory
            = Some (mkTensor [B; 1; seq_len self; d_model self] (data memory))) as ->
      by (unfold unsqueeze; rewrite Hs; reflexivity).
    cbn [mbind option_bind].
    unfold expand. cbn [shape rev app expand_rev orb Z.eqb].
    assert ((n_sources self =? -1) = false) as -> by (apply Z.eqb_neq; lia).
    destruct (Z.eqb_spec (n_sources self) 1) as [Hone|Hone]; cbn [orb andb].
    - cbn. unfold m0. rewrite Hone. reflexivity.
    - cbn [Pos.eqb andb].
      assert ((0 <=? n_sources self) = true) as -> by (apply Z.leb_le; lia).
      reflexivity. }
  exists m0. eexists. split; [exact Hm|].
  rewrite (memory_reshape_shape self Hsrc m0 B (seq_len self) eq_refl HB Hlen).
  split; [reflexivity|]. split; [reflexivity|].
  intros b s t d Hb Hs' Ht Hd'. unfold m0. cbn [data]. f_equal.
  unfold bcast_index.
  replace (ravel [B * n_sources self; seq_len self; d_model self]
                 [b * n_sources self + s; t; d])
    with (ravel [B; n_sources self; seq_len self; d_model self] [b; s; t; d])
    by (cbn [ravel numel fold_right]; lia).
  rewrite unravel_ravel by (repeat constructor; lia).
  cbn [length drop Nat.sub zip_with Z.eqb Pos.eqb].
  rewrite !pick_unless_one by lia. cbn [ravel numel fold_right]. lia.
Qed.

Lemma output_rows (projected : Tensor) :
  shape projected = [B * n_sources self; seq_len self; n_mels self] ->
  exists o output,
    reshape [B; n_sources self; seq_len self; n_mels self] projected = Some o /\
    permute [0; 1; 3; 2] o = Some output /\
    shape output = [B; n_sources self; n_mels self; seq_len self] /\
    forall b s m t,
      0 <= b < B -> 0 <= s < n_sources self -> 0 <= m < n_mels self ->
      0 <= t < seq_len self ->
      data output (ravel [B; n_sources self; n_mels self; seq_len self] [b; s; m; t])
      = data projected (ravel [B * n_sources self; seq_len self; n_mels self]
                              [b * n_sources self + s; t; m]).
Proof.
  intros Hs.
  rewrite reshape_plain; [|repeat constructor; lia|rewrite Hs; simpl; lia].
  eexists. eexists. split; [reflexivity|].
  unfold permute. cbn [shape length is_perm].
  change (is_perm [0; 1; 3; 2] 4) with true. cbv iota.
  split; [reflexivity|]. split; [reflexivity|].
  intros b s m t Hb Hs' Hm Ht. cbn [data]. f_equal.
  change (map (fun a => nth (Z.to_nat a) [B; n_sources self; seq_len self; n_mels self] 0)
              [0; 1; 3; 2])
    with [B; n_sources self; n_mels self; seq_len self].
  rewrite unravel_ravel by (repeat constructor; lia).
  change (permute_index [0; 1; 3; 2] [b; s; m; t]) with [b; s; t; m].
  cbn [ravel numel fold_right]. lia.
Qed.

End BatchSourceRows.

(** X2: the batch-source flattening of [forward].  For a memory shaped
    (B, seq_len, d_model) and a projected decoder output shaped
    (B * n_sources, seq_len, n_mels), the three chains of views of [forward]
    -- expand and reshape of the source queries; unsqueeze, expand and
    reshape of the memory; reshape and permute of the output -- succeed, and
    row [b * n_sources + s] of the decoder input holds the learned query of
    source [s] next to the memory of batch item [b], while the value at
    (b, s, f, t) of the result is the projected value at row
    [b * n_sources + s], time [t], bin [f]. *)
Theorem decoder_rows_pair_sources_with_batch_items
    (self : SpectrogramSeparator.Model) (B : Z) (memory projected : Torch.Tensor) :
  0 < B ->
  0 < SpectrogramSeparator.n_mels self ->
  0 < SpectrogramSeparator.seq_len self ->
  0 < SpectrogramSeparator.n_sources self ->
  0 < SpectrogramSeparator.d_model self ->
  Torch.shape memory
    = [B; SpectrogramSeparator.seq_len self; SpectrogramSeparator.d_model self] ->
  Torch.shape projected
    = [B * SpectrogramSeparator.n_sources self; SpectrogramSeparator.seq_len self;
       SpectrogramSeparator.n_mels self] ->
  exists q queries m memory' o output,
    Torch.expand [B; -1; -1; -1] (SpectrogramSeparator.source_queries self) = Some q /\
    Torch.shape q !! 1%nat = Some (SpectrogramSeparator.n_sources self) /\
    Torch.reshape [B * SpectrogramSeparator.n_sources self;
                   SpectrogramSeparator.seq_len self; -1] q = Some queries /\
    (u ← Torch.unsqueeze 1 memory;
     Torch.expand [-1; SpectrogramSeparator.n_sources self; -1; -1] u) = Some m /\
    Torch.reshape [B * SpectrogramSeparator.n_sources self;
                   SpectrogramSeparator.seq_len self; -1] m = Some memory' /\
    Torch.reshape [B; SpectrogramSeparator.n_sources self;
                   SpectrogramSeparator.seq_len self;
                   SpectrogramSeparator.n_mels self] projected = Some o /\
    Torch.permute [0; 1; 3; 2] o = Some output /\
    forall b s t,
      0 <= b < B -> 0 <= s < SpectrogramSeparator.n_sources self ->
      0 <= t < SpectrogramSeparator.seq_len self ->
      (forall d, 0 <= d < SpectrogramSeparator.d_model self ->
         Torch.data queries
           (Torch.ravel [B * SpectrogramSeparator.n_sources self;
                         SpectrogramSeparator.seq_len self;
                         SpectrogramSeparator.d_model self]
                        [b * SpectrogramSeparator.n_sources self + s; t; d])
         = Torch.data (SpectrogramSeparator.source_queries self)
             (Torch.ravel [SpectrogramSeparator.n_sources self;
                           SpectrogramSeparator.seq_len self;
                           SpectrogramSeparator.d_model self] [s; t; d]) /\
         Torch.data memory'
           (Torch.ravel [B * SpectrogramSeparator.n_sources self;
                         SpectrogramSeparator.seq_len self;
                         SpectrogramSeparator.d_model self]
                        [b * SpectrogramSeparator.n_sources self + s; t; d])
         = Torch.data memory
             (Torch.ravel [B; SpectrogramSeparator.seq_len self;
                           SpectrogramSeparator.d_model self] [b; t; d])) /\
      (forall f, 0 <= f < SpectrogramSeparator.n_mels self ->
         Torch.data output
           (Torch.ravel [B; SpectrogramSeparator.n_sources self;
                         SpectrogramSeparator.n_mels self;
                         SpectrogramSeparator.seq_len self] [b; s; f; t])
         = Torch.data projected
             (Torch.ravel [B * SpectrogramSeparator.n_sources self;
                           SpectrogramSeparator.seq_len self;
                           SpectrogramSeparator.n_mels self]
                          [b * SpectrogramSeparator.n_sources self + s; t; f])).
Proof.
  intros HB Hmels Hlen Hsrc Hd Hmem Hproj.
  destruct (queries_rows self B HB Hlen Hsrc Hd) as (q & queries & Hq & HS & Hqr & _ & Hqd).
  destruct (memory_rows self B HB Hlen Hsrc memory Hmem)
    as (m & memory' & Hm & Hmr & _ & Hmd).
  destruct (output_rows self B HB Hmels Hlen Hsrc projected Hproj)
    as (o & output & Ho & Hp & _ & Hod).
  exists q, queries, m, memory', o, output.
  repeat (split; [assumption|]).
  intros b s t Hb Hs Ht. split.
  - intros d Hd'. split; [apply Hqd | apply Hmd]; assumption.
  - intros f Hf. apply Hod; assumption.
Qed.

Lemma decoder_rows_pair_sources_with_batch_items_witness :
  exists q queries m memory' o output,
    Torch.expand [2; -1; -1; -1]
      (SpectrogramSeparator.source_queries
         (SpectrogramSeparator.init_optimized SpectrogramSeparator.zero_weights)) = Some q /\
    Torch.shape q !! 1%nat = Some 4 /\
    Torch.reshape [2 * 4; 800; -1] q = Some queries /\
    (u ← Torch.unsqueeze 1 (Torch.mkTensor [2; 800; 256] (fun i => IZR i));
     Torch.expand [-1; 4; -1; -1] u) = Some m /\
    Torch.reshape [2 * 4; 800; -1] m = Some memory' /\
    Torch.reshape [2; 4; 800; 128] (Torch.mkTensor [2 * 4; 800; 128] (fun i => IZR i))
      = Some o /\
    Torch.permute [0; 1; 3; 2] o = Some output.
Proof.
  destruct (decoder_rows_pair_sources_with_batch_items
              (SpectrogramSeparator.init_optimized SpectrogramSeparator.zero_weights) 2
              (Torch.mkTensor [2; 800; 256] (fun i => IZR i))
              (Torch.mkTensor [2 * 4; 800; 128] (fun i => IZR i))
              ltac:(lia) ltac:(simpl; lia) ltac:(simpl; lia) ltac:(simpl; lia)
              ltac:(simpl; lia) eq_refl eq_refl)
    as (q & queries & m & memory' & o & output & H1 & H2 & H3 & H4 & H5 & H6 & H7 & _).
  exists q, queries, m, memory', o, output.
  repeat (split; [assumption|]). assumption.
Defined.

(** ** More on the loss: no epsilon *)

Section NoEpsilon.
Import Torch SI_SDR_Spec.

Lemma sqnorm_zero (v : list R) : Forall (fun x => x = 0%R) v -> sqnorm v = 0%R.
Proof.
  intros H. unfold sqnorm, inner. apply Rsum_zero.
  induction H as [|x v -> _ IH]; simpl; constructor; [ring|exact IH].
Qed.

Lemma all_upto_false (n : Z) (p : Z -> bool) (r : Z) :
  0 <= r < n -> p r = false -> all_upto n p = false.
Proof.
  intros Hr Hp. destruct (all_upto n p) eqn:E; [|reflexivity].
  rewrite all_upto_true in E. rewrite E in Hp by exact Hr. discriminate.
Qed.

End NoEpsilon.

(** X5: what the epsilon is for: with [eps = 0] a single silent
    (batch, source) pair among the targets makes the loss non-finite. *)
Theorem loss_without_epsilon_is_not_finite_on_a_silent_target
    (predictions targets : Torch.Tensor) (B S' F T r : Z) :
  Torch.shape predictions = [B; S'; F; T] ->
  Torch.shape targets = [B; S'; F; T] ->
  0 < B -> 0 < S' -> 0 < F -> 0 < T ->
  0 <= r < B * S' ->
  (forall j, 0 <= j < F * T -> Torch.data targets (r * (F * T) + j) = 0%R) ->
  SI_SDR_Loss.forward {| SI_SDR_Loss.eps := 0 |} predictions targets
  = inl Torch.NonFinite.
Proof.
  intros HsP HsT HB HS HF HT Hr Hsilent.
  rewrite (forward_by_rows predictions targets B S' F T 0) by assumption.
  rewrite (all_upto_false (B * S') _ r Hr); [reflexivity|].
  rewrite sqnorm_zero.
  - rewrite Rplus_0_r. unfold Torch.nonzero.
    destruct (Req_dec_T 0 0); [reflexivity|congruence].
  - apply zero_mean_zero. unfold Torch.row.
    apply Forall_fmap, Forall_seqZ. intros j Hj. cbn beta. apply Hsilent. lia.
Qed.

Lemma loss_without_epsilon_is_not_finite_on_a_silent_target_witness :
  SI_SDR_Loss.forward {| SI_SDR_Loss.eps := 0 |}
    (Torch.mkTensor [1; 4; 2; 3] (fun i => IZR i))
    (Torch.mkTensor [1; 4; 2; 3] (fun _ => 0%R))
  = inl Torch.NonFinite.
Proof.
  apply (loss_without_epsilon_is_not_finite_on_a_silent_target
           (Torch.mkTensor [1; 4; 2; 3] (fun i => IZR i))
           (Torch.mkTensor [1; 4; 2; 3] (fun _ => 0%R)) 1 4 2 3 0);
    first [reflexivity | lia | (intros; reflexivity)].
Defined.

(** ** More on the optimized loop: whole runs, degenerate settings *)

Lemma updates_through_succ (k n m : Z) :
  0 <= m ->
  Schedule.updates_through k n (m + 1)
  = Schedule.updates_through k n m ++ Schedule.updates_of_epoch k n m.
Proof.
  intros Hm. unfold Schedule.updates_through. rewrite seqZ_app by lia.
  rewrite fmap_app, concat_app. f_equal. rewrite seqZ_cons, seqZ_nil by lia.
  cbn [fmap list_fmap concat]. rewrite Z.add_0_l. apply app_nil_r.
Qed.

Section WholeRun.
Import Training Schedule.

Variable results_dir : string.
Variable k : Z.
Variable use_amp : bool.
Variable train_batches test_batches : Z.
Variable test_loss_of : Z -> Z -> Q.
Hypothesis Hk : 1 <= k.
Hypothesis Hn : 1 <= train_batches.
Hypothesis Hnt : 1 <= test_batches.

Let epoch_body := train_model_epoch results_dir k use_amp train_batches test_batches test_loss_of.
Let path := checkpoint_path results_dir.
Let per_epoch := (train_batches + k - 1) / k.

Lemma length_updates_of_epoch (e : Z) :
  Z.of_nat (length (updates_of_epoch k train_batches e)) = per_epoch.
Proof.
  unfold updates_of_epoch, per_epoch.
  rewrite length_app, Nat2Z.inj_add, (length_full_groups k e).
  rewrite (ceil_div k Hk) by lia.
  pose proof (Z.div_pos train_batches k ltac:(lia) ltac:(lia)).
  destruct (train_batches mod k =? 0); simpl; lia.
Qed.

Lemma length_updates_through (m : nat) :
  Z.of_nat (length (updates_through k train_batches (Z.of_nat m))) = Z.of_nat m * per_epoch.
Proof.
  induction m as [|m IH]; [reflexivity|].
  replace (Z.of_nat (S m)) with (Z.of_nat m + 1) by lia.
  rewrite updates_through_succ by lia.
  rewrite length_app, Nat2Z.inj_add, IH, length_updates_of_epoch. lia.
Qed.

(** One epoch of [train_model], with the optimizer it leaves. *)
Lemma train_model_epoch_optimizer (r : Run) (epoch : Z) :
  exists r' q,
    epoch_body r epoch = inr r' /\
    grad (optimizer r') = [] /\
    steps (optimizer r') = steps (optimizer r) ++ updates_of_epoch k train_batches epoch /\
    scaler_updates (optimizer r') =
      scaler_updates (optimizer r) + (if use_amp then per_epoch else 0) /\
    if float_lt (Fin q) (best_loss r)
    then writes r' = writes r ++ [epoch] /\
         files r' =
           <[path := {[ "epoch" := VInt epoch;
                        "model_state_dict" := model_state_dict (optimizer r');
                        "optimizer_state_dict" := optimizer_state_dict (optimizer r');
                        "loss" := VFloat (Fin q) ]}]> (files r)
    else writes r' = writes r /\ files r' = files r.
Proof.
  unfold epoch_body, train_model_epoch.
  destruct (train_epoch_result k use_amp epoch Hk train_batches (optimizer r) Hn)
    as (o' & -> & Hg & Hs & Hu).
  cbn [mbind sum_bind].
  destruct (evaluate_returns test_batches test_loss_of Hnt epoch) as [q ->].
  cbn [mbind sum_bind].
  destruct (float_lt (Fin q) (best_loss r)) eqn:Hlt.
  - eexists. exists q. split; [reflexivity|]. cbn [optimizer writes files].
    rewrite Hlt. repeat split; assumption.
  - eexists. exists q. split; [reflexivity|]. cbn [optimizer writes files].
    rewrite Hlt. repeat split; assumption.
Qed.

(** The whole run: the optimizer has applied the updates of every epoch,
    and the file holds the state that followed the last epoch written. *)
Lemma train_model_updates (fs : Files) (m : nat) :
  exists r,
    for_each epoch_body (start fs) (seqZ 0 (Z.of_nat m)) = inr r /\
    steps (optimizer r) = updates_through k train_batches (Z.of_nat m) /\
    scaler_updates (optimizer r) = (if use_amp then Z.of_nat m * per_epoch else 0) /\
    (forall other, other <> path -> files r !! other = fs !! other) /\
    match last (writes r) with
    | None => files r = fs
    | Some e =>
        0 <= e < Z.of_nat m /\
        exists d, files r !! path = Some d /\
                  d !! "model_state_dict"%string
                    = Some (VModelState (updates_through k train_batches (e + 1))) /\
                  d !! "optimizer_state_dict"%string
                    = Some (VOptimizerState (updates_through k train_batches (e + 1)))
    end.
Proof.
  induction m as [|m (r & Hrun & Hsteps & Hsc & Hother & Hfile)].
  - exists (start fs). cbn. repeat split. destruct use_amp; reflexivity.
  - rewrite seqZ_S, for_each_app, Hrun. cbn [mbind sum_bind for_each].
    rewrite Z.add_0_l.
    destruct (train_model_epoch_optimizer r (Z.of_nat m))
      as (r' & q & -> & _ & Hs' & Hu' & Hcase).
    exists r'. cbn [mbind sum_bind]. split; [reflexivity|].
    replace (Z.of_nat (S m)) with (Z.of_nat m + 1) by lia.
    assert (steps (optimizer r') = updates_through k train_batches (Z.of_nat m + 1)) as Hst
      by (rewrite updates_through_succ by lia; rewrite Hs', Hsteps; reflexivity).
    split; [exact Hst|].
    split; [rewrite Hu', Hsc; destruct use_amp; lia|].
    destruct (float_lt (Fin q) (best_loss r)).
    + destruct Hcase as [Hw Hf]. split.
      * intros other Hne. rewrite Hf, lookup_insert_ne by congruence. apply Hother, Hne.
      * rewrite Hw, last_snoc. split; [lia|]. eexists.
        split; [rewrite Hf; apply lookup_insert_eq|].
        unfold model_state_dict, optimizer_state_dict. rewrite Hst. split; reflexivity.
    + destruct Hcase as [Hw Hf]. rewrite Hw, Hf. split; [exact Hother|].
      destruct (last (writes r)) as [e|]; [|exact Hfile].
      destruct Hfile as [He Hd]. split; [lia|exact Hd].
Qed.

End WholeRun.

Lemma seqZ_to_nat (n : Z) : seqZ 0 (Z.of_nat (Z.to_nat n)) = seqZ 0 n.
Proof. unfold seqZ. rewrite Nat2Z.id. reflexivity. Qed.

(** X6: a run of [train_model] with accumulation count [k >= 1] over
    [n >= 1] training batches makes [ceil(n / k)] parameter updates per
    epoch, [num_epochs * ceil(n / k)] in all, and as many [scaler.update()]
    calls under AMP (none without).  The checkpoint file holds the model and
    optimizer state as they were right after the epoch it records, that is
    after [(e + 1) * ceil(n / k)] updates, not the state at the end of the
    run. *)
Theorem checkpoint_holds_the_state_after_the_epoch_written
    (results_dir : string) (num_epochs k : Z) (use_amp : bool)
    (train_batches test_batches : Z) (test_loss_of : Z -> Z -> Q)
    (fs : Training.Files) :
  1 <= k -> 1 <= train_batches -> 1 <= test_batches -> 0 <= num_epochs ->
  exists r,
    Training.train_model results_dir num_epochs k use_amp train_batches
      test_batches test_loss_of fs = inr r /\
    Training.steps (Training.optimizer r)
      = Schedule.updates_through k train_batches num_epochs /\
    Z.of_nat (length (Training.steps (Training.optimizer r)))
      = num_epochs * ((train_batches + k - 1) / k) /\
    Training.scaler_updates (Training.optimizer r)
      = (if use_amp then num_epochs * ((train_batches + k - 1) / k) else 0) /\
    match last (Training.writes r) with
    | None => Training.files r = fs
    | Some e =>
        0 <= e < num_epochs /\
        exists d,
          Training.files r !! Training.checkpoint_path results_dir = Some d /\
          d !! "model_state_dict"%string
            = Some (Training.VModelState
                      (Schedule.updates_through k train_batches (e + 1))) /\
          d !! "optimizer_state_dict"%string
            = Some (Training.VOptimizerState
                      (Schedule.updates_through k train_batches (e + 1))) /\
          Z.of_nat (length (Schedule.updates_through k train_batches (e + 1)))
            = (e + 1) * ((train_batches + k - 1) / k)
    end.
Proof.
  intros Hk Hn Hnt HN. unfold Training.train_model.
  destruct (train_model_updates results_dir k use_amp train_batches test_batches
              test_loss_of Hk Hn Hnt fs (Z.to_nat num_epochs))
    as (r & Hrun & Hsteps & Hsc & _ & Hfile).
  rewrite seqZ_to_nat in Hrun. rewrite Z2Nat.id in * by lia.
  exists r. split; [exact Hrun|]. split; [exact Hsteps|].
  split.
  { rewrite Hsteps.
    pose proof (length_updates_through k train_batches Hk Hn (Z.to_nat num_epochs)) as Hl.
    rewrite Z2Nat.id in Hl by lia. exact Hl. }
  split; [exact Hsc|].
  destruct (last (Training.writes r)) as [e|]; [|exact Hfile].
  destruct Hfile as (He & d & Hd & Hm & Ho). split; [exact He|].
  exists d. repeat split; try assumption.
  pose proof (length_updates_through k train_batches Hk Hn (Z.to_nat (e + 1))) as Hl.
  rewrite Z2Nat.id in Hl by lia. exact Hl.
Qed.

Lemma checkpoint_holds_the_state_after_the_epoch_written_witness :
  exists r,
    Training.train_model "../results" 8 8 false 20 1
      (fun e _ => nth (Z.to_nat e) Training.scenario_losses 0%Q) ∅ = inr r /\
    Z.of_nat (length (Training.steps (Training.optimizer r))) = 24 /\
    Training.scaler_updates (Training.optimizer r) = 0.
Proof.
  destruct (checkpoint_holds_the_state_after_the_epoch_written
              "../results" 8 8 false 20 1
              (fun e _ => nth (Z.to_nat e) Training.scenario_losses 0%Q) ∅
              ltac:(lia) ltac:(lia) ltac:(lia) ltac:(lia))
    as (r & Hrun & _ & Hlen & Hsc & _).
  exists r. split; [exact Hrun|]. split; [exact Hlen|exact Hsc].
Defined.



Section SavedFiles.
Import Training.

Variable results_dir : string.
Variable k : Z.
Variable use_amp : bool.
Variable train_batches test_batches : Z.
Variable test_loss_of : Z -> Z -> Q.

Let epoch_body := train_model_epoch results_dir k use_amp train_batches test_batches test_loss_of.
Let path := checkpoint_path results_dir.



End SavedFiles.



Section BestEpoch.
Import Training.








Variable f : Z -> Q.



End BestEpoch.




(** ** The basic loop, and the path of the checkpoint *)

Section BasicRun.
Import Training Schedule.

Variable train_batches : Z.
Variable train_loss_of : Z -> Z -> Q.
Variable saved : Z -> Optimizer -> pyfloat -> Dict.
Hypothesis Hn : 1 <= train_batches.

Let epoch_body := basic_epoch train_batches train_loss_of saved.
Let mean_of (epoch : Z) : Q :=
  (fold_left (fun acc b => acc + train_loss_of epoch b) (seqZ 0 train_batches) 0
   / inject_Z train_batches)%Q.

Lemma basic_batches (epoch : Z) (o : Optimizer) (m : nat) :
  exists o',
    for_each (basic_batch epoch) o (seqZ 0 (Z.of_nat m)) = inr o' /\
    steps o' = steps o ++ ((fun b => [(epoch, b)]) <$> seqZ 0 (Z.of_nat m)) /\
    scaler_updates o' = scaler_updates o.
Proof.
  induction m as [|m (o1 & Hrun & Hsteps & Hsc)].
  - exists o. cbn. rewrite app_nil_r. repeat split.
  - rewrite seqZ_S, for_each_app, Hrun. cbn [mbind sum_bind for_each].
    unfold basic_batch. cbn [mbind sum_bind]. eexists. split; [reflexivity|].
    cbn [steps step backward zero_grad grad scaler_updates].
    rewrite Hsteps, fmap_app, app_assoc. split; [reflexivity|exact Hsc].
Qed.

Lemma single_updates (epoch n : Z) :
  0 <= n -> (fun b => [(epoch, b)]) <$> seqZ 0 n = updates_of_epoch 1 n epoch.
Proof.
  intros H. unfold updates_of_epoch, full_groups.
  rewrite Z.mod_1_r, Z.div_1_r. cbn [Z.eqb]. rewrite app_nil_r.
  apply list_fmap_ext. intros _ b _. unfold batch_group.
  rewrite seqZ_cons, seqZ_nil by lia. cbn. do 3 f_equal. lia.
Qed.

Lemma basic_epoch_result (r : Run) (epoch : Z) :
  exists r',
    epoch_body r epoch = inr r' /\
    steps (optimizer r') = steps (optimizer r) ++ updates_of_epoch 1 train_batches epoch /\
    best_loss r' = float_min (best_loss r) (Fin (mean_of epoch)) /\
    if float_lt (Fin (mean_of epoch)) (best_loss r)
    then writes r' = writes r ++ [epoch] /\
         files r' = <[basic_path := saved epoch (optimizer r') (Fin (mean_of epoch))]>
                      (files r)
    else writes r' = writes r /\ files r' = files r.
Proof.
  unfold epoch_body, basic_epoch.
  destruct (basic_batches epoch (optimizer r) (Z.to_nat train_batches))
    as (o' & Hrun & Hsteps & _).
  rewrite Z2Nat.id in Hrun, Hsteps by lia. rewrite Hrun. cbn [mbind sum_bind].
  rewrite single_updates in Hsteps by lia.
  unfold py_div. assert ((train_batches =? 0) = false) as -> by (apply Z.eqb_neq; lia).
  cbn [mbind sum_bind]. fold (mean_of epoch). unfold float_min.
  destruct (float_lt (Fin (mean_of epoch)) (best_loss r)).
  - eexists. split; [reflexivity|]. cbn [optimizer best_loss writes files].
    repeat split. exact Hsteps.
  - eexists. split; [reflexivity|]. cbn [optimizer best_loss writes files].
    repeat split. exact Hsteps.
Qed.

(** The basic loop: the same rule as the optimized one, on the mean
    training loss, with one update per batch. *)
Lemma basic_loop_invariant (fs : Files) (m : nat) :
  exists r,
    for_each epoch_body (start fs) (seqZ 0 (Z.of_nat m)) = inr r /\
    steps (optimizer r) = updates_through 1 train_batches (Z.of_nat m) /\
    best_loss r = best_of ((fun e => Fin (mean_of e)) <$> seqZ 0 (Z.of_nat m)) /\
    writes r =
      List.filter
        (fun e => float_lt (Fin (mean_of e))
                    (best_of ((fun e' => Fin (mean_of e')) <$> seqZ 0 e)))
        (seqZ 0 (Z.of_nat m)) /\
    (forall other, other <> basic_path -> files r !! other = fs !! other) /\
    match last (writes r) with
    | None => files r = fs
    | Some e =>
        exists o, files r !! basic_path = Some (saved e o (best_loss r)) /\
                  steps o = updates_through 1 train_batches (e + 1)
    end.
Proof.
  induction m as [|m (r & Hrun & Hsteps & Hbest & Hwrites & Hother & Hfile)].
  - exists (start fs). repeat split.
  - rewrite seqZ_S, for_each_app, Hrun. cbn [mbind sum_bind for_each].
    rewrite Z.add_0_l.
    destruct (basic_epoch_result r (Z.of_nat m)) as (r' & -> & Hs' & Hb' & Hcase).
    exists r'. cbn [mbind sum_bind]. split; [reflexivity|].
    replace (Z.of_nat (S m)) with (Z.of_nat m + 1) by lia.
    assert (steps (optimizer r') = updates_through 1 train_batches (Z.of_nat m + 1)) as Hst
      by (rewrite updates_through_succ by lia; rewrite Hs', Hsteps; reflexivity).
    split; [exact Hst|].
    rewrite fmap_app. cbn [fmap list_fmap].
    rewrite best_of_snoc, <- Hbest. split; [exact Hb'|].
    rewrite List.filter_app. cbn [List.filter]. rewrite <- Hbest, <- Hwrites.
    destruct (float_lt (Fin (mean_of (Z.of_nat m))) (best_loss r)) eqn:Hlt.
    + destruct Hcase as [Hw Hf]. split; [exact Hw|]. split.
      * intros other Hne. rewrite Hf, lookup_insert_ne by congruence. apply Hother, Hne.
      * rewrite Hw, last_snoc. exists (optimizer r'). split; [|exact Hst].
        rewrite Hf, lookup_insert_eq, Hb'. unfold float_min. rewrite Hlt. reflexivity.
    + destruct Hcase as [Hw Hf]. rewrite app_nil_r. split; [exact Hw|].
      rewrite Hw, Hf, Hb'. unfold float_min. rewrite Hlt. split; [exact Hother|exact Hfile].
Qed.

End BasicRun.



(** X11: with [gradient_accumulation_steps = 1] the optimized loop makes
    exactly the parameter updates of the basic loop: one update per batch,
    each with the gradient of that batch alone, in order. *)
Theorem accumulation_of_one_is_the_basic_schedule
    (results_dir : string) (num_epochs : Z) (use_amp : bool)
    (train_batches test_batches : Z) (train_loss_of test_loss_of : Z -> Z -> Q)
    (saved : Z -> Training.Optimizer -> Training.pyfloat -> Training.Dict)
    (fs fs' : Training.Files) :
  1 <= train_batches -> 1 <= test_batches -> 0 <= num_epochs ->
  exists basic optimized,
    Training.basic_loop num_epochs train_batches train_loss_of saved fs = inr basic /\
    Training.train_model results_dir num_epochs 1 use_amp train_batches
      test_batches test_loss_of fs' = inr optimized /\
    Training.steps (Training.optimizer basic)
      = Training.steps (Training.optimizer optimized) /\
    Training.steps (Training.optimizer basic)
      = concat ((fun e => (fun b => [(e, b)]) <$> seqZ 0 train_batches)
                  <$> seqZ 0 num_epochs).
Proof.
  intros Hn Hnt HN.
  destruct (basic_loop_invariant train_batches train_loss_of saved Hn fs
              (Z.to_nat num_epochs)) as (rb & Hrb & Hsb & _).
  destruct (train_model_updates results_dir 1 use_amp train_batches test_batches
              test_loss_of ltac:(lia) Hn Hnt fs' (Z.to_nat num_epochs))
    as (ro & Hro & Hso & _).
  rewrite seqZ_to_nat in Hrb, Hro. rewrite Z2Nat.id in Hsb, Hso by lia.
  exists rb, ro. split; [exact Hrb|]. split; [exact Hro|].
  split; [congruence|]. rewrite Hsb. unfold Schedule.updates_through. f_equal.
  apply list_fmap_ext. intros _ e _. symmetry. apply single_updates. lia.
Qed.

Lemma accumulation_of_one_is_the_basic_schedule_witness :
  exists basic optimized,
    Training.basic_loop 1 2 (fun _ _ => 0%Q) Training.saved_unnamed ∅ = inr basic /\
    Training.train_model "../results" 1 1 true 2 1 (fun _ _ => 0%Q) ∅ = inr optimized /\
    Training.steps (Training.optimizer basic)
      = Training.steps (Training.optimizer optimized) /\
    Training.steps (Training.optimizer basic)
      = concat ((fun e => (fun b => [(e, b)]) <$> seqZ 0 2) <$> seqZ 0 1).
Proof.
  apply (accumulation_of_one_is_the_basic_schedule "../results" 1 true 2 1
           (fun _ _ => 0%Q) (fun _ _ => 0%Q) Training.saved_unnamed ∅ ∅); lia.
Defined.

Section Paths.
Import Training.

Lemma ends_with_slash_app (a b : string) :
  b <> ""%string -> ends_with_slash (a +:+ b) = ends_with_slash b.
Proof.
  intros Hb. induction a as [|c a IH]; [reflexivity|].
  rewrite <- IH. change (String c a +:+ b) with (String c (a +:+ b)).
  destruct (a +:+ b) eqn:E; [|reflexivity].
  destruct a; [change (b = ""%string) in E; congruence|discriminate E].
Qed.

Lemma append_assoc (a b c : string) : (a +:+ b) +:+ c = a +:+ (b +:+ c).
Proof.
  induction a as [|x a IH]; [reflexivity|].
  change (String x ((a +:+ b) +:+ c) = String x (a +:+ (b +:+ c))).
  rewrite IH. reflexivity.
Qed.

Lemma append_nonempty (a b : string) : b <> ""%string -> (a +:+ b =? "")%string = false.
Proof.
  intros Hb. apply String.eqb_neq. destruct a; [exact Hb|discriminate].
Qed.

End Paths.

(** X12: the checkpoint path, [results_dir] joined with models/model.pth,
    lies in the directory that [train_model] creates first, [results_dir]
    joined with models: for every [results_dir], empty or not, with or
    without a trailing slash. *)
Theorem checkpoint_lies_in_the_directory_created (results_dir : string) :
  Training.checkpoint_path results_dir
  = Training.path_join (Schedule.models_dir results_dir) "model.pth".
Proof.
  unfold Training.checkpoint_path, Schedule.models_dir, Training.path_join.
  cbn [Training.starts_with_slash Ascii.eqb Bool.eqb].
  destruct ((results_dir =? "")%string || Training.ends_with_slash results_dir).
  - rewrite append_nonempty, ends_with_slash_app by discriminate.
    cbn. rewrite !append_assoc. reflexivity.
  - rewrite <- append_assoc. rewrite append_nonempty, ends_with_slash_app by discriminate.
    cbn. rewrite !append_assoc. reflexivity.
Qed.

(** ** The datasets: indexing, preloaded and lazy *)

(** X13: with as many sources as mixtures, [SpectrogramDataset.__getitem__]
    pairs mixture [i] with sources [i]: for [-n <= idx < n] it returns row
    [idx mod n] of both tensors (negative indices count from the end), and
    for any other index it raises [IndexError]. *)
Theorem getitem_pairs_by_index (X y : Torch.Tensor) (n : Z) (sx sy : list Z) (idx : Z) :
  Torch.shape X = n :: sx -> Torch.shape y = n :: sy ->
  (- n <= idx < n ->
   exists x t,
     Data.getitem {| Data.X := X; Data.y := y |} idx = inr (x, t) /\
     Torch.shape x = sx /\ Torch.shape t = sy /\
     (forall j, Torch.data x j = Torch.data X (idx mod n * Torch.numel sx + j)) /\
     (forall j, Torch.data t j = Torch.data y (idx mod n * Torch.numel sy + j))) /\
  (idx < - n \/ n <= idx ->
   Data.getitem {| Data.X := X; Data.y := y |} idx = inl IndexError).
Proof.
  intros HX Hy. unfold Data.getitem, Data.item. cbn [Data.X Data.y]. rewrite HX, Hy.
  split.
  - intros Hi.
    assert ((if idx <? 0 then idx + n else idx) = idx mod n) as ->.
    { destruct (Z.ltb_spec idx 0).
      - apply (Z.mod_unique_pos _ _ (-1)); lia.
      - symmetry. apply Z.mod_small. lia. }
    pose proof (Z.mod_pos_bound idx n ltac:(lia)) as Hm.
    assert ((0 <=? idx mod n) && (idx mod n <? n) = true) as ->
      by (apply andb_true_iff; split; [apply Z.leb_le|apply Z.ltb_lt]; lia).
    cbn [mbind sum_bind]. eexists. eexists. split; [reflexivity|].
    repeat split.
  - intros Hi.
    assert ((0 <=? (if idx <? 0 then idx + n else idx))
            && ((if idx <? 0 then idx + n else idx) <? n) = false) as ->.
    { apply andb_false_iff. destruct (Z.ltb_spec idx 0).
      - left. apply Z.leb_gt. lia.
      - right. apply Z.ltb_ge. lia. }
    reflexivity.
Qed.

Lemma getitem_pairs_by_index_witness :
  (exists x t,
     Data.getitem {| Data.X := Torch.mkTensor [2; 3] (fun i => IZR i);
                     Data.y := Torch.mkTensor [2; 4; 3] (fun i => IZR i) |} (-1)
       = inr (x, t) /\
     Torch.shape x = [3] /\ Torch.shape t = [4; 3] /\
     (forall j, Torch.data x j = IZR ((-1) mod 2 * Torch.numel [3] + j)) /\
     (forall j, Torch.data t j = IZR ((-1) mod 2 * Torch.numel [4; 3] + j))) /\
  Data.getitem {| Data.X := Torch.mkTensor [2; 3] (fun i => IZR i);
                  Data.y := Torch.mkTensor [2; 4; 3] (fun i => IZR i) |} 2
    = inl IndexError.
Proof.
  split.
  - apply (proj1 (getitem_pairs_by_index
                    (Torch.mkTensor [2; 3] (fun i => IZR i))
                    (Torch.mkTensor [2; 4; 3] (fun i => IZR i)) 2 [3] [4; 3] (-1)
                    eq_refl eq_refl)). lia.
  - apply (proj2 (getitem_pairs_by_index
                    (Torch.mkTensor [2; 3] (fun i => IZR i))
                    (Torch.mkTensor [2; 4; 3] (fun i => IZR i)) 2 [3] [4; 3] 2
                    eq_refl eq_refl)). lia.
Defined.

Section FileBacked.
Import Torch OptimizedData.

Lemma raised_getitem (X y : Tensor) (idx : Z) :
  raised (Data.getitem {| Data.X := X; Data.y := y |} idx) =
  (a ← raised (Data.item X idx); b ← raised (Data.item y idx); inr (a, b)).
Proof.
  unfold Data.getitem. cbn [Data.X Data.y].
  destruct (Data.item X idx) as [e|a]; [reflexivity|]. cbn [mbind sum_bind raised].
  destruct (Data.item y idx) as [e|b]; reflexivity.
Qed.

End FileBacked.

(** X14: the two modes of [OptimizedSpectrogramDataset] agree: when both
    files exist and the preloading constructor returns a dataset, the lazy
    constructor returns one as well, the two have the same length and they
    return the same item at every index (or raise the same error) -- what
    [SpectrogramDataset] returns on the two loaded arrays. *)
Theorem preloaded_and_lazy_datasets_agree
    (disk : OptimizedData.Disk) (X_path y_path device : string) (pin_memory : bool)
    (X y : Torch.Tensor) (preloaded : OptimizedData.OptimizedSpectrogramDataset) :
  disk !! X_path = Some X -> disk !! y_path = Some y ->
  OptimizedData.init disk X_path y_path device true pin_memory = inr preloaded ->
  exists lazy,
    OptimizedData.init disk X_path y_path device false pin_memory = inr lazy /\
    OptimizedData.length disk preloaded = OptimizedData.raised (Data.len X) /\
    OptimizedData.length disk lazy = OptimizedData.raised (Data.len X) /\
    forall idx,
      OptimizedData.getitem disk preloaded idx =
        OptimizedData.raised (Data.getitem {| Data.X := X; Data.y := y |} idx) /\
      OptimizedData.getitem disk lazy idx =
        OptimizedData.raised (Data.getitem {| Data.X := X; Data.y := y |} idx).
Proof.
  intros HX Hy. unfold OptimizedData.init, OptimizedData._preload_data, OptimizedData.np_load.
  cbn [OptimizedData.X_path OptimizedData.y_path]. rewrite HX, Hy. cbn [mbind sum_bind].
  intros [= <-].
  eexists. split; [reflexivity|].
  unfold OptimizedData.length, OptimizedData.getitem, OptimizedData.np_load.
  cbn [OptimizedData.X_data OptimizedData.y_data OptimizedData.X_path OptimizedData.y_path].
  rewrite HX. cbn [mbind sum_bind]. split; [reflexivity|]. split; [reflexivity|].
  intros idx. rewrite raised_getitem. split; [reflexivity|].
  destruct (OptimizedData.raised (Data.item X idx)) as [e|a]; [reflexivity|].
  cbn [mbind sum_bind]. rewrite Hy. reflexivity.
Qed.

Lemma preloaded_and_lazy_datasets_agree_witness :
  exists lazy,
    OptimizedData.init
      {[ "X.npy" := Torch.mkTensor [2; 3] (fun i => IZR i);
         "y.npy" := Torch.mkTensor [2; 4; 3] (fun i => IZR i) ]}
      "X.npy" "y.npy" "cpu" false true = inr lazy /\
    OptimizedData.length
      {[ "X.npy" := Torch.mkTensor [2; 3] (fun i => IZR i);
         "y.npy" := Torch.mkTensor [2; 4; 3] (fun i => IZR i) ]}
      {| OptimizedData.X_path := "X.npy"; OptimizedData.y_path := "y.npy";
         OptimizedData.device := "cpu";
         OptimizedData.X_data := Some (Torch.mkTensor [2; 3] (fun i => IZR i));
         OptimizedData.y_data := Some (Torch.mkTensor [2; 4; 3] (fun i => IZR i));
         OptimizedData.pin_memory := true |} = inr 2 /\
    OptimizedData.length
      {[ "X.npy" := Torch.mkTensor [2; 3] (fun i => IZR i);
         "y.npy" := Torch.mkTensor [2; 4; 3] (fun i => IZR i) ]} lazy = inr 2.
Proof.
  assert (({[ "X.npy" := Torch.mkTensor [2; 3] (fun i => IZR i);
              "y.npy" := Torch.mkTensor [2; 4; 3] (fun i => IZR i) ]}
             : OptimizedData.Disk) !! "X.npy"%string
          = Some (Torch.mkTensor [2; 3] (fun i => IZR i))) as HX by reflexivity.
  assert (({[ "X.npy" := Torch.mkTensor [2; 3] (fun i => IZR i);
              "y.npy" := Torch.mkTensor [2; 4; 3] (fun i => IZR i) ]}
             : OptimizedData.Disk) !! "y.npy"%string
          = Some (Torch.mkTensor [2; 4; 3] (fun i => IZR i))) as Hy by reflexivity.
  assert (OptimizedData.init
            {[ "X.npy" := Torch.mkTensor [2; 3] (fun i => IZR i);
               "y.npy" := Torch.mkTensor [2; 4; 3] (fun i => IZR i) ]}
            "X.npy" "y.npy" "cpu" true true
          = inr {| OptimizedData.X_path := "X.npy"; OptimizedData.y_path := "y.npy";
                   OptimizedData.device := "cpu";
                   OptimizedData.X_data := Some (Torch.mkTensor [2; 3] (fun i => IZR i));
                   OptimizedData.y_data := Some (Torch.mkTensor [2; 4; 3] (fun i => IZR i));
                   OptimizedData.pin_memory := true |}) as Hinit by reflexivity.
  destruct (preloaded_and_lazy_datasets_agree _ "X.npy" "y.npy" "cpu" true _ _ _
              HX Hy Hinit)
    as (lazy & H1 & H2 & H3 & _).
  exists lazy. repeat split; assumption.
Defined.

(** X15: a preloaded dataset is a snapshot: after construction its length
    and its items no longer depend on the files.  A lazy dataset reads the
    files at every call and serves whatever they hold at that moment. *)
Theorem preloaded_dataset_is_a_snapshot
    (disk disk' : OptimizedData.Disk) (X_path y_path device : string) (pin_memory : bool)
    (X' y' : Torch.Tensor) :
  disk' !! X_path = Some X' -> disk' !! y_path = Some y' ->
  (forall preloaded,
      OptimizedData.init disk X_path y_path device true pin_memory = inr preloaded ->
      OptimizedData.length disk' preloaded = OptimizedData.length disk preloaded /\
      forall idx, OptimizedData.getitem disk' preloaded idx
                  = OptimizedData.getitem disk preloaded idx) /\
  (forall lazy,
      OptimizedData.init disk X_path y_path device false pin_memory = inr lazy ->
      OptimizedData.length disk' lazy = OptimizedData.raised (Data.len X') /\
      forall idx, OptimizedData.getitem disk' lazy idx =
        OptimizedData.raised (Data.getitem {| Data.X := X'; Data.y := y' |} idx)).
Proof.
  intros HX Hy. split.
  - intros ds. unfold OptimizedData.init, OptimizedData._preload_data.
    cbn [OptimizedData.X_path OptimizedData.y_path].
    destruct (OptimizedData.np_load disk X_path) as [e|a]; cbn [mbind sum_bind];
      [intros [=]|].
    destruct (OptimizedData.np_load disk y_path) as [e|b]; cbn [mbind sum_bind];
      [intros [=]|].
    intros [= <-]. split; [reflexivity|]. intros idx. reflexivity.
  - intros ds. unfold OptimizedData.init. intros [= <-].
    unfold OptimizedData.length, OptimizedData.getitem, OptimizedData.np_load.
    cbn [OptimizedData.X_data OptimizedData.y_data OptimizedData.X_path
         OptimizedData.y_path].
    rewrite HX. cbn [mbind sum_bind]. split; [reflexivity|].
    intros idx. rewrite raised_getitem.
    destruct (OptimizedData.raised (Data.item X' idx)) as [e|a]; [reflexivity|].
    cbn [mbind sum_bind]. rewrite Hy. reflexivity.
Qed.

Lemma preloaded_dataset_is_a_snapshot_witness :
  OptimizedData.length
    {[ "X.npy" := Torch.mkTensor [5; 3] (fun _ => 0%R);
       "y.npy" := Torch.mkTensor [5; 4; 3] (fun _ => 0%R) ]}
    {| OptimizedData.X_path := "X.npy"; OptimizedData.y_path := "y.npy";
       OptimizedData.device := "cpu";
       OptimizedData.X_data := Some (Torch.mkTensor [2; 3] (fun _ => 1%R));
       OptimizedData.y_data := Some (Torch.mkTensor [2; 4; 3] (fun _ => 1%R));
       OptimizedData.pin_memory := true |}
  = OptimizedData.length
      {[ "X.npy" := Torch.mkTensor [2; 3] (fun _ => 1%R);
         "y.npy" := Torch.mkTensor [2; 4; 3] (fun _ => 1%R) ]}
      {| OptimizedData.X_path := "X.npy"; OptimizedData.y_path := "y.npy";
         OptimizedData.device := "cpu";
         OptimizedData.X_data := Some (Torch.mkTensor [2; 3] (fun _ => 1%R));
         OptimizedData.y_data := Some (Torch.mkTensor [2; 4; 3] (fun _ => 1%R));
         OptimizedData.pin_memory := true |}.
Proof.
  assert (({[ "X.npy" := Torch.mkTensor [5; 3] (fun _ => 0%R);
              "y.npy" := Torch.mkTensor [5; 4; 3] (fun _ => 0%R) ]}
             : OptimizedData.Disk) !! "X.npy"%string
          = Some (Torch.mkTensor [5; 3] (fun _ => 0%R))) as HX by reflexivity.
  assert (({[ "X.npy" := Torch.mkTensor [5; 3] (fun _ => 0%R);
              "y.npy" := Torch.mkTensor [5; 4; 3] (fun _ => 0%R) ]}
             : OptimizedData.Disk) !! "y.npy"%string
          = Some (Torch.mkTensor [5; 4; 3] (fun _ => 0%R))) as Hy by reflexivity.
  assert (OptimizedData.init
            {[ "X.npy" := Torch.mkTensor [2; 3] (fun _ => 1%R);
               "y.npy" := Torch.mkTensor [2; 4; 3] (fun _ => 1%R) ]}
            "X.npy" "y.npy" "cpu" true true
          = inr {| OptimizedData.X_path := "X.npy"; OptimizedData.y_path := "y.npy";
                   OptimizedData.device := "cpu";
                   OptimizedData.X_data := Some (Torch.mkTensor [2; 3] (fun _ => 1%R));
                   OptimizedData.y_data := Some (Torch.mkTensor [2; 4; 3] (fun _ => 1%R));
                   OptimizedData.pin_memory := true |}) as Hinit by reflexivity.
  apply (proj1 (preloaded_dataset_is_a_snapshot _ _ "X.npy" "y.npy" "cpu" true _ _ HX Hy)
               _ Hinit).
Defined.

(** X16: a missing mixture file: with [preload=True] the constructor raises
    [FileNotFoundError]; with [preload=False] the constructor succeeds and
    the error surfaces only at the first [len] or item access. *)
Theorem missing_file_is_detected_late_without_preload
    (disk : OptimizedData.Disk) (X_path y_path device : string) (pin_memory : bool) :
  disk !! X_path = None ->
  OptimizedData.init disk X_path y_path device true pin_memory
    = inl (FileNotFoundError X_path) /\
  exists lazy,
    OptimizedData.init disk X_path y_path device false pin_memory = inr lazy /\
    OptimizedData.length disk lazy = inl (FileNotFoundError X_path) /\
    forall idx, OptimizedData.getitem disk lazy idx = inl (FileNotFoundError X_path).
Proof.
  intros HX. unfold OptimizedData.init, OptimizedData._preload_data, OptimizedData.np_load.
  cbn [OptimizedData.X_path]. rewrite HX. split; [reflexivity|].
  eexists. split; [reflexivity|].
  unfold OptimizedData.length, OptimizedData.getitem, OptimizedData.np_load.
  cbn [OptimizedData.X_data OptimizedData.X_path]. rewrite HX.
  split; [reflexivity|]. intros idx. reflexivity.
Qed.

Lemma missing_file_is_detected_late_without_preload_witness :
  OptimizedData.init ∅ "X.npy" "y.npy" "cpu" true true
    = inl (FileNotFoundError "X.npy") /\
  exists lazy,
    OptimizedData.init ∅ "X.npy" "y.npy" "cpu" false true = inr lazy /\
    OptimizedData.length ∅ lazy = inl (FileNotFoundError "X.npy") /\
    forall idx, OptimizedData.getitem ∅ lazy idx = inl (FileNotFoundError "X.npy").
Proof.
  apply (missing_file_is_detected_late_without_preload ∅ "X.npy" "y.npy" "cpu" true).
  reflexivity.
Defined.

(** ** The dataset preparation: mono, peak, segments, tracks *)

Section Normalize.
Import Torch Preprocessing.

Lemma fold_num_max (l : list R) (m : R) :
  fold_left num_max (num_abs <$> (Num <$> l)) (Num m) =
  Num (fold_left Rmax (Rabs <$> l) m).
Proof. revert m. induction l as [|x l IH]; intros m; [reflexivity|]. apply IH. Qed.

Lemma fold_Rmax_ge (l : list R) (m : R) :
  (m <= fold_left Rmax l m)%R /\ Forall (fun x => (x <= fold_left Rmax l m)%R) l.
Proof.
  revert m. induction l as [|x l IH]; intros m; cbn [fold_left].
  - split; [lra|constructor].
  - destruct (IH (Rmax m x)) as [H1 H2].
    pose proof (Rmax_l m x). pose proof (Rmax_r m x).
    split; [lra|]. constructor; [lra|exact H2].
Qed.

Lemma fold_Rmax_in (l : list R) (m : R) :
  fold_left Rmax l m = m \/ fold_left Rmax l m ∈ l.
Proof.
  revert m. induction l as [|x l IH]; intros m; cbn [fold_left]; [left; reflexivity|].
  destruct (IH (Rmax m x)) as [H|H].
  - rewrite H. unfold Rmax. destruct (Rle_dec m x).
    + right. apply list_elem_of_here.
    + left. reflexivity.
  - right. apply list_elem_of_further. exact H.
Qed.

(** The peak of a non-empty array of finite samples. *)
Lemma peak_spec (a : R) (rest : list R) :
  let M := fold_left Rmax (Rabs <$> rest) (Rabs a) in
  Forall (fun x => (Rabs x <= M)%R) (a :: rest) /\
  Exists (fun x => Rabs x = M) (a :: rest).
Proof.
  intros M. destruct (fold_Rmax_ge (Rabs <$> rest) (Rabs a)) as [H1 H2].
  fold M in H1, H2. split.
  - constructor; [exact H1|]. rewrite Forall_fmap in H2. exact H2.
  - destruct (fold_Rmax_in (Rabs <$> rest) (Rabs a)) as [H|H]; fold M in H.
    + apply Exists_cons_hd. symmetry. exact H.
    + apply Exists_cons_tl. apply list_elem_of_fmap in H as (x & Hx & Hin).
      apply Exists_exists. exists x. split; [exact Hin|]. symmetry. exact Hx.
Qed.

Lemma normalize_audio_finite (a : R) (rest : list R) :
  normalize_audio (Num <$> (a :: rest)) =
  inr ((fun x => num_div (Num x) (Num (fold_left Rmax (Rabs <$> rest) (Rabs a))))
         <$> (a :: rest)).
Proof.
  unfold normalize_audio. cbn [fmap list_fmap]. fold (@fmap list _ R num Num rest).
  cbn [num_abs]. rewrite fold_num_max. f_equal.
  change (num_div (Num a) ?p :: ((fun x => num_div x ?p) <$> (Num <$> rest)))
    with ((fun x => num_div x p) <$> (Num <$> (a :: rest))).
  rewrite <- list_fmap_compose. reflexivity.
Qed.

End Normalize.

(** X17: [stereo_to_mono] returns one sample per row of a two-dimensional
    array, whatever the number of channels, and hands a one-dimensional
    array back as it is.  With a single channel the samples are those of
    the channel; with no channel at all every sample is [nan], the mean of
    nothing. *)
Theorem stereo_to_mono_one_sample_per_row (m : Preprocessing.matrix) (v : list R) :
  length (Preprocessing.stereo_to_mono (Preprocessing.Arr2 m))
    = length (Preprocessing.rows m) /\
  Preprocessing.stereo_to_mono (Preprocessing.Arr1 v) = Preprocessing.Num <$> v /\
  Preprocessing.stereo_to_mono
    (Preprocessing.Arr2 {| Preprocessing.ncols := 1;
                           Preprocessing.rows := (fun x => [x]) <$> v |})
    = Preprocessing.Num <$> v /\
  Preprocessing.stereo_to_mono
    (Preprocessing.Arr2 {| Preprocessing.ncols := 0;
                           Preprocessing.rows := (fun _ => []) <$> v |})
    = (fun _ => Preprocessing.NaN) <$> v.
Proof.
  cbn [Preprocessing.stereo_to_mono Preprocessing.rows].
  split; [apply length_fmap|]. split; [reflexivity|]. split.
  - rewrite <- list_fmap_compose. apply list_fmap_ext. intros _ x _.
    unfold compose, Preprocessing.np_mean, Torch.Rsum. cbn. f_equal. field.
  - rewrite <- list_fmap_compose. reflexivity.
Qed.

Section NormalizeFacts.
Import Torch Preprocessing.

Lemma fold_Rmax_scale (c : R) (l : list R) (m : R) :
  (0 <= c)%R ->
  fold_left Rmax (Rmult c <$> l) (c * m)%R = (c * fold_left Rmax l m)%R.
Proof.
  intros Hc. revert m. induction l as [|x l IH]; intros m; [reflexivity|].
  cbn [fmap list_fmap fold_left]. fold (@fmap list _ R R (Rmult c) l).
  rewrite RmaxRmult by exact Hc. apply IH.
Qed.

Lemma peak_scale (c a : R) (rest : list R) :
  (0 <= c)%R ->
  fold_left Rmax (Rabs <$> (Rmult c <$> rest)) (Rabs (c * a)) =
  (c * fold_left Rmax (Rabs <$> rest) (Rabs a))%R.
Proof.
  intros Hc. rewrite <- fold_Rmax_scale by exact Hc.
  rewrite Rabs_mult, (Rabs_pos_eq c) by exact Hc. f_equal.
  rewrite <- !list_fmap_compose. apply list_fmap_ext. intros _ x _. cbn.
  rewrite Rabs_mult, (Rabs_pos_eq c) by exact Hc. reflexivity.
Qed.

Lemma peak_nonneg (a : R) (rest : list R) :
  (0 <= fold_left Rmax (Rabs <$> rest) (Rabs a))%R.
Proof.
  destruct (fold_Rmax_ge (Rabs <$> rest) (Rabs a)) as [H _].
  pose proof (Rabs_pos a). lra.
Qed.

Lemma nonzero_false (x : R) : nonzero x = false <-> x = 0%R.
Proof. unfold nonzero. destruct (Req_dec_T x 0); split; congruence. Qed.

Lemma nonzero_true_iff (x : R) : nonzero x = true <-> x <> 0%R.
Proof. unfold nonzero. destruct (Req_dec_T x 0); split; congruence. Qed.

Lemma fold_num_max_NaN (l : list num) : fold_left num_max l NaN = NaN.
Proof. induction l as [|x l IH]; [reflexivity|]. exact IH. Qed.

Lemma normalize_audio_NaN (n : nat) :
  normalize_audio (replicate (S n) NaN) = inr (replicate (S n) NaN).
Proof.
  unfold normalize_audio. cbn [replicate num_abs]. rewrite fold_num_max_NaN.
  f_equal. cbn [fmap list_fmap num_div]. f_equal.
  induction n as [|n IH]; [reflexivity|]. cbn [replicate fmap list_fmap]. f_equal. exact IH.
Qed.

Lemma fmap_const_replicate {A B} (b : B) (l : list A) :
  (fun _ => b) <$> l = replicate (length l) b.
Proof. induction l as [|x l IH]; [reflexivity|]. cbn. f_equal. exact IH. Qed.

End NormalizeFacts.

(** X18: [normalize_audio] of finite samples that are not all zero returns
    as many finite samples, all within [-1, 1], at least one of them of
    magnitude exactly 1. *)
Theorem normalize_audio_peak_is_one (xs : list R) :
  Exists (fun x => x <> 0%R) xs ->
  exists ys,
    Preprocessing.normalize_audio (Preprocessing.Num <$> xs)
      = inr (Preprocessing.Num <$> ys) /\
    length ys = length xs /\
    Forall (fun y => (Rabs y <= 1)%R) ys /\
    Exists (fun y => Rabs y = 1%R) ys.
Proof.
  intros Hx. destruct xs as [|a rest]; [inversion Hx|].
  set (M := fold_left Rmax (Rabs <$> rest) (Rabs a)).
  destruct (peak_spec a rest) as [Hle Hex]. fold M in Hle, Hex.
  assert (0 < M)%R as HM.
  { apply Exists_exists in Hx as (x & Hin & Hne).
    rewrite Forall_forall in Hle. specialize (Hle x Hin).
    pose proof (Rabs_pos_lt x Hne). lra. }
  exists ((fun x => x / M)%R <$> (a :: rest)).
  split; [|split; [apply length_fmap|split]].
  - rewrite normalize_audio_finite. fold M. f_equal.
    rewrite <- list_fmap_compose. apply list_fmap_ext. intros _ x _. cbn.
    rewrite nonzero_pos by exact HM. reflexivity.
  - apply Forall_fmap. eapply Forall_impl; [exact Hle|]. intros x Hxle. cbn.
    unfold Rdiv. rewrite Rabs_mult, (Rabs_pos_eq (/ M)).
    2: { left. apply Rinv_0_lt_compat. exact HM. }
    apply (Rmult_le_reg_r M); [exact HM|].
    rewrite Rmult_assoc, Rinv_l by lra. lra.
  - apply Exists_fmap. eapply Exists_impl; [exact Hex|]. intros x Hxe. cbn.
    unfold Rdiv. rewrite Rabs_mult, (Rabs_pos_eq (/ M)).
    2: { left. apply Rinv_0_lt_compat. exact HM. }
    rewrite Hxe. apply Rinv_r. lra.
Qed.

Lemma normalize_audio_peak_is_one_witness :
  exists ys,
    Preprocessing.normalize_audio (Preprocessing.Num <$> [1; -4; 2]%R)
      = inr (Preprocessing.Num <$> ys) /\
    length ys = 3%nat /\
    Forall (fun y => (Rabs y <= 1)%R) ys /\
    Exists (fun y => Rabs y = 1%R) ys.
Proof.
  apply (normalize_audio_peak_is_one [1; -4; 2]%R).
  apply Exists_cons_hd. lra.
Defined.

Lemma normalize_audio_zeros (xs : list R) :
  xs <> [] -> Forall (fun x => x = 0%R) xs ->
  Preprocessing.normalize_audio (Preprocessing.Num <$> xs)
    = inr (replicate (length xs) Preprocessing.NaN).
Proof.
  intros Hne Hz.
  destruct xs as [|a rest]; [congruence|].
  set (M := fold_left Rmax (Rabs <$> rest) (Rabs a)).
  destruct (peak_spec a rest) as [_ Hex]. fold M in Hex.
  assert (M = 0%R) as HM.
  { apply Exists_exists in Hex as (x & Hin & <-).
    rewrite Forall_forall in Hz. rewrite (Hz x Hin). apply Rabs_R0. }
  rewrite normalize_audio_finite. fold M. rewrite HM. f_equal.
  rewrite <- fmap_const_replicate. apply list_fmap_ext. intros _ x _. cbn.
  rewrite (proj2 (nonzero_false 0) eq_refl). reflexivity.
Qed.

(** X19: [normalize_audio] has no guard: on an empty array it raises
    [ValueError] (the maximum of nothing), and on a silent one -- non-empty,
    all zeros -- it returns an array of [nan], one per sample. *)
Theorem normalize_audio_unguarded :
  Preprocessing.normalize_audio [] =
    inl (Raised (ValueError
      "zero-size array to reduction operation maximum which has no identity")) /\
  forall xs : list R,
    xs <> [] -> Forall (fun x => x = 0%R) xs ->
    Preprocessing.normalize_audio (Preprocessing.Num <$> xs)
      = inr (replicate (length xs) Preprocessing.NaN).
Proof.
  split; [reflexivity|]. apply normalize_audio_zeros.
Qed.

Lemma normalize_audio_unguarded_witness :
  Preprocessing.normalize_audio (Preprocessing.Num <$> [0; 0; 0]%R)
    = inr (replicate 3 Preprocessing.NaN).
Proof.
  apply (proj2 normalize_audio_unguarded [0; 0; 0]%R); [discriminate|].
  repeat apply Forall_cons_2; try apply Forall_nil_2; reflexivity.
Defined.

(** X21: normalizing twice is normalizing once: whatever [normalize_audio]
    returns on finite samples, it maps to itself. *)
Theorem normalize_audio_idempotent (xs : list R) (ys : list Preprocessing.num) :
  Preprocessing.normalize_audio (Preprocessing.Num <$> xs) = inr ys ->
  Preprocessing.normalize_audio ys = inr ys.
Proof.
  intros H. destruct xs as [|a rest]; [discriminate|].
  rewrite normalize_audio_finite in H.
  set (M := fold_left Rmax (Rabs <$> rest) (Rabs a)) in *.
  remember ((fun x => Preprocessing.num_div (Preprocessing.Num x) (Preprocessing.Num M))
              <$> (a :: rest)) as zs eqn:Hzs.
  injection H as <-. subst zs.
  pose proof (peak_nonneg a rest) as HM0. fold M in HM0.
  destruct (Req_dec_T M 0) as [E|E].
  - rewrite (list_fmap_ext _ (fun _ => Preprocessing.NaN) (a :: rest)).
    2: { intros _ x _. cbn. rewrite (proj2 (nonzero_false M) E). reflexivity. }
    rewrite fmap_const_replicate. apply normalize_audio_NaN.
  - rewrite (list_fmap_ext _ (Preprocessing.Num ∘ Rmult (/ M)) (a :: rest)).
    2: { intros _ x _. cbn. rewrite (proj2 (nonzero_true_iff M) E).
         f_equal. unfold Rdiv. apply Rmult_comm. }
    rewrite list_fmap_compose.
    assert (0 < / M)%R as Hi by (apply Rinv_0_lt_compat; lra).
    change (Rmult (/ M) <$> (a :: rest)) with ((/ M * a)%R :: (Rmult (/ M) <$> rest)).
    rewrite normalize_audio_finite, peak_scale by lra. fold M.
    rewrite Rinv_l by exact E. f_equal.
    change ((/ M * a)%R :: (Rmult (/ M) <$> rest)) with (Rmult (/ M) <$> (a :: rest)).
    rewrite <- !list_fmap_compose. apply list_fmap_ext. intros _ x _. cbn.
    rewrite nonzero_pos by lra. f_equal. field. exact E.
Qed.

Lemma normalize_audio_idempotent_witness :
  Preprocessing.normalize_audio (replicate 2 Preprocessing.NaN)
    = inr (replicate 2 Preprocessing.NaN).
Proof.
  apply (normalize_audio_idempotent [0; 0]%R (replicate 2 Preprocessing.NaN)).
  apply (normalize_audio_zeros [0; 0]%R); [discriminate|].
  repeat apply Forall_cons_2; try apply Forall_nil_2; reflexivity.
Defined.

Section Segments.
Import Preprocessing.

Lemma length_slice {A} (w : list A) (a b : Z) :
  0 <= a -> a <= b -> b <= Z.of_nat (length w) ->
  Z.of_nat (length (slice w a b)) = b - a.
Proof.
  intros Ha Hab Hb. unfold slice. rewrite length_take, length_drop. lia.
Qed.

Lemma length_segment (w : list num) (sps i : Z) :
  1 <= sps -> 0 <= i -> i * sps < Z.of_nat (length w) ->
  Z.of_nat (length (segment w sps i)) = sps.
Proof.
  intros Hs Hi Hlt. unfold segment.
  rewrite length_app, length_replicate, Nat2Z.inj_add, length_slice by nia.
  lia.
Qed.

Lemma floordiv_ceil (L sps : Z) :
  1 <= sps -> 0 <= L ->
  0 <= (L + sps - 1) / sps /\
  ((L + sps - 1) / sps - 1) * sps < L <= (L + sps - 1) / sps * sps.
Proof.
  intros Hs HL.
  pose proof (Z.div_mod (L + sps - 1) sps ltac:(lia)) as Hdm.
  pose proof (Z.mod_pos_bound (L + sps - 1) sps ltac:(lia)) as Hb.
  split; [apply Z.div_pos; lia|]. nia.
Qed.

Lemma extract_segments_rows (w : list num) (rate : Z) (dur : Q) :
  1 <= int (inject_Z rate * dur) ->
  extract_segments w rate dur =
    inr (segment w (int (inject_Z rate * dur))
           <$> seqZ 0 ((Z.of_nat (length w) + int (inject_Z rate * dur) - 1)
                       / int (inject_Z rate * dur))).
Proof.
  intros Hs. unfold extract_segments, py_floordiv.
  set (sps := int (inject_Z rate * dur)) in *.
  assert ((sps =? 0) = false) as -> by (apply Z.eqb_neq; lia).
  cbn [mbind sum_bind].
  destruct (floordiv_ceil (Z.of_nat (length w)) sps Hs ltac:(lia)) as [Hn _].
  assert (((Z.of_nat (length w) + sps - 1) / sps <? 0) = false) as ->
    by (apply Z.ltb_ge; exact Hn).
  assert ((sps <? 0) = false) as -> by (apply Z.ltb_ge; lia).
  reflexivity.
Qed.

Lemma segment_shift (w : list num) (sps i : Z) :
  1 <= sps -> 0 <= i -> sps <= Z.of_nat (length w) ->
  segment w sps (Z.succ i) = segment (drop (Z.to_nat sps) w) sps i.
Proof.
  intros Hs Hi HL. unfold segment, slice.
  rewrite length_drop.
  replace (Z.of_nat (length w - Z.to_nat sps)) with (Z.of_nat (length w) - sps) by lia.
  rewrite drop_drop.
  replace (Z.to_nat sps + Z.to_nat (i * sps))%nat with (Z.to_nat (Z.succ i * sps)) by nia.
  f_equal; f_equal; lia.
Qed.

Lemma segments_concat (m : nat) : forall (w : list num) (sps : Z),
  1 <= sps ->
  (Z.of_nat (length w) + sps - 1) / sps = Z.of_nat m ->
  concat (segment w sps <$> seqZ 0 (Z.of_nat m)) =
    w ++ replicate (Z.to_nat (Z.of_nat m * sps - Z.of_nat (length w))) (Num 0).
Proof.
  induction m as [|m IH]; intros w sps Hs Hn.
  - destruct (floordiv_ceil (Z.of_nat (length w)) sps Hs ltac:(lia)) as [_ Hc].
    rewrite Hn in Hc. assert (length w = 0%nat) as Hw by lia.
    apply nil_length_inv in Hw. subst w. reflexivity.
  - destruct (floordiv_ceil (Z.of_nat (length w)) sps Hs ltac:(lia)) as [_ Hc].
    rewrite Hn in Hc.
    rewrite seqZ_cons by lia. cbn [fmap list_fmap concat].
    replace (Z.pred (Z.of_nat (S m))) with (Z.of_nat m) by lia.
    replace (Z.succ 0) with (1 + 0) by lia.
    rewrite <- (fmap_add_seqZ 1 0), <- list_fmap_compose.
    destruct (Z_le_gt_dec sps (Z.of_nat (length w))) as [Hge|Hlt].
    + (* a full first segment *)
      rewrite (list_fmap_ext _ (segment (drop (Z.to_nat sps) w) sps) (seqZ 0 (Z.of_nat m))).
      2: { intros j x Hx. apply lookup_seqZ in Hx as [-> Hj]. cbn.
           replace (1 + (0 + Z.of_nat j)) with (Z.succ (Z.of_nat j)) by lia.
           apply segment_shift; lia. }
      rewrite IH; [|exact Hs|].
      2: { rewrite length_drop.
           replace (Z.of_nat (length w - Z.to_nat sps) + sps - 1)
             with (Z.of_nat (length w) + sps - 1 + (-1) * sps) by lia.
           rewrite Z.div_add by lia. lia. }
      rewrite length_drop.
      unfold segment, slice. cbn [Z.mul]. rewrite Z.add_0_l, Z.sub_0_r.
      rewrite Z.min_l by lia. change (Z.to_nat 0) with 0%nat. rewrite drop_0.
      replace (Z.to_nat (sps - sps)) with 0%nat by lia. cbn [replicate].
      rewrite app_nil_r, app_assoc, take_drop. do 2 f_equal. lia.
    + (* the only, short segment *)
      assert (m = 0%nat) as -> by nia. cbn [seqZ fmap list_fmap concat].
      change (Z.of_nat 0) with 0. rewrite seqZ_nil by lia.
      cbn [fmap list_fmap concat]. rewrite app_nil_r.
      unfold segment, slice. cbn [Z.mul]. rewrite Z.add_0_l, Z.sub_0_r.
      rewrite Z.min_r by lia. change (Z.to_nat 0) with 0%nat. rewrite drop_0.
      rewrite take_ge by lia. do 2 f_equal. lia.
Qed.

End Segments.

(** X22: [extract_segments] with a positive number [S] of samples per
    segment returns [ceil(L / S)] segments for a waveform of [L] samples --
    none for an empty waveform -- each of exactly [S] samples. *)
Theorem extract_segments_count_and_length
    (waveform : list Preprocessing.num) (sample_rate : Z) (segment_duration : Q)
    (sps : Z) :
  sps = Preprocessing.int (inject_Z sample_rate * segment_duration) ->
  1 <= sps ->
  exists segments,
    Preprocessing.extract_segments waveform sample_rate segment_duration = inr segments /\
    (Z.of_nat (length segments) - 1) * sps
      < Z.of_nat (length waveform) <= Z.of_nat (length segments) * sps /\
    Forall (fun row => Z.of_nat (length row) = sps) segments.
Proof.
  intros -> Hs. eexists. split; [apply extract_segments_rows; exact Hs|].
  set (sps := Preprocessing.int _) in *.
  destruct (floordiv_ceil (Z.of_nat (length waveform)) sps Hs ltac:(lia)) as [Hn Hc].
  rewrite length_fmap, length_seqZ, Z2Nat.id by exact Hn.
  split; [exact Hc|].
  apply Forall_fmap, Forall_forall. intros i Hi. apply elem_of_seqZ in Hi.
  cbn. apply length_segment; [exact Hs|lia|nia].
Qed.

Lemma extract_segments_count_and_length_witness :
  exists segments,
    Preprocessing.extract_segments
      [Preprocessing.Num 1; Preprocessing.Num 2; Preprocessing.Num 3] 2 1 = inr segments /\
    (Z.of_nat (length segments) - 1) * 2 < 3 <= Z.of_nat (length segments) * 2 /\
    Forall (fun row => Z.of_nat (length row) = 2) segments.
Proof.
  apply (extract_segments_count_and_length
           [Preprocessing.Num 1; Preprocessing.Num 2; Preprocessing.Num 3] 2 1 2);
    [reflexivity | lia].
Defined.

(** X23: the segments, put end to end, are the waveform followed by fewer
    than [S] zeros: nothing is lost, repeated or reordered, only the last
    segment is padded, and the first [L] samples give the waveform back. *)
Theorem extract_segments_round_trip
    (waveform : list Preprocessing.num) (sample_rate : Z) (segment_duration : Q)
    (sps : Z) :
  sps = Preprocessing.int (inject_Z sample_rate * segment_duration) ->
  1 <= sps ->
  exists segments pad,
    Preprocessing.extract_segments waveform sample_rate segment_duration = inr segments /\
    0 <= pad < sps /\
    concat segments = waveform ++ replicate (Z.to_nat pad) (Preprocessing.Num 0) /\
    take (length waveform) (concat segments) = waveform.
Proof.
  intros -> Hs.
  set (sps := Preprocessing.int _) in *.
  set (n := (Z.of_nat (length waveform) + sps - 1) / sps).
  destruct (floordiv_ceil (Z.of_nat (length waveform)) sps Hs ltac:(lia)) as [Hn Hc].
  fold n in Hn, Hc.
  exists (Preprocessing.segment waveform sps <$> seqZ 0 n),
         (n * sps - Z.of_nat (length waveform)).
  split; [apply extract_segments_rows; exact Hs|].
  split; [lia|].
  assert (concat (Preprocessing.segment waveform sps <$> seqZ 0 n) =
          waveform ++ replicate (Z.to_nat (n * sps - Z.of_nat (length waveform)))
                                (Preprocessing.Num 0)) as Hcat.
  { pose proof (segments_concat (Z.to_nat n) waveform sps Hs) as H.
    rewrite Z2Nat.id in H by exact Hn. apply H. reflexivity. }
  split; [exact Hcat|]. rewrite Hcat, take_app_length. reflexivity.
Qed.

Lemma extract_segments_round_trip_witness :
  exists segments pad,
    Preprocessing.extract_segments
      [Preprocessing.Num 1; Preprocessing.Num 2; Preprocessing.Num 3] 2 1 = inr segments /\
    0 <= pad < 2 /\
    concat segments =
      [Preprocessing.Num 1; Preprocessing.Num 2; Preprocessing.Num 3]
        ++ replicate (Z.to_nat pad) (Preprocessing.Num 0) /\
    take 3 (concat segments) =
      [Preprocessing.Num 1; Preprocessing.Num 2; Preprocessing.Num 3].
Proof.
  apply (extract_segments_round_trip
           [Preprocessing.Num 1; Preprocessing.Num 2; Preprocessing.Num 3] 2 1 2);
    [reflexivity | lia].
Defined.

(** X24: when [int(sample_rate * segment_duration)] is zero,
    [extract_segments] raises [ZeroDivisionError]; when it is negative,
    [ValueError], for the negative array size. *)
Theorem extract_segments_raises
    (waveform : list Preprocessing.num) (sample_rate : Z) (segment_duration : Q) :
  Preprocessing.int (inject_Z sample_rate * segment_duration) <= 0 ->
  Preprocessing.extract_segments waveform sample_rate segment_duration =
    inl (Raised
           (if Preprocessing.int (inject_Z sample_rate * segment_duration) =? 0
            then ZeroDivisionError
            else ValueError "negative dimensions are not allowed")).
Proof.
  intros Hs. unfold Preprocessing.extract_segments, Preprocessing.py_floordiv.
  set (sps := Preprocessing.int _) in *.
  destruct (Z.eqb_spec sps 0) as [E|E]; [reflexivity|].
  cbn [mbind sum_bind].
  assert ((sps <? 0) = true) as -> by (apply Z.ltb_lt; lia).
  rewrite orb_true_r. reflexivity.
Qed.

Lemma extract_segments_raises_witness :
  Preprocessing.extract_segments [Preprocessing.Num 1] 1 (9 # 10) =
    inl (Raised ZeroDivisionError) /\
  Preprocessing.extract_segments [Preprocessing.Num 1] 44100 (- (3)) =
    inl (Raised (ValueError "negative dimensions are not allowed")).
Proof.
  split.
  - apply (extract_segments_raises [Preprocessing.Num 1] 1 (9 # 10)).
    vm_compute. discriminate.
  - apply (extract_segments_raises [Preprocessing.Num 1] 44100 (- (3))).
    vm_compute. discriminate.
Defined.

Section Tracks.
Import Torch Preprocessing.

Variable stft_abs : list num -> Z -> num.

Lemma for_list_app {E A St} (body : St -> A -> E + St) (s : St) (l1 l2 : list A) :
  for_list body s (l1 ++ l2) = (s' ← for_list body s l1; for_list body s' l2).
Proof.
  revert s. induction l1 as [|i l1 IH]; intros s; simpl; [reflexivity|].
  destruct (body s i) as [e|s']; simpl; [reflexivity|]. apply IH.
Qed.

Lemma length_mono_transpose (t : matrix) :
  length (stereo_to_mono (Arr2 (transpose t))) = ncols t.
Proof.
  cbn [stereo_to_mono transpose rows]. rewrite !length_fmap. apply length_seq.
Qed.

Lemma normalize_audio_length (a : list num) :
  a <> [] -> exists b, normalize_audio a = inr b /\ length b = length a.
Proof.
  intros Hne. destruct a as [|x a]; [congruence|].
  eexists. split; [reflexivity|]. apply length_fmap.
Qed.

Lemma segment_samples : int (inject_Z SEGMENT_SAMPLES * 3) = 119070.
Proof. reflexivity. Qed.

(** What the notebook's call of [extract_segments] returns. *)
Lemma notebook_segments (a : list num) :
  exists segs,
    extract_segments a SEGMENT_SAMPLES 3 = inr segs /\
    Z.of_nat (length segs) = (Z.of_nat (length a) + 119069) / 119070 /\
    Forall (fun row => Z.of_nat (length row) = 119070) segs.
Proof.
  eexists. split; [apply extract_segments_rows; rewrite segment_samples; lia|].
  rewrite segment_samples.
  destruct (floordiv_ceil (Z.of_nat (length a)) 119070 ltac:(lia) ltac:(lia)) as [Hn Hc].
  replace (Z.of_nat (length a) + 119070 - 1) with (Z.of_nat (length a) + 119069) in * by lia.
  rewrite length_fmap, length_seqZ, Z2Nat.id by exact Hn.
  split; [reflexivity|].
  apply Forall_fmap, Forall_forall. intros i Hi. apply elem_of_seqZ in Hi.
  cbn. apply length_segment; [lia|lia|nia].
Qed.

Lemma compute_spectrogram_segment (row : list num) :
  Z.of_nat (length row) = 119070 ->
  exists spec, compute_spectrogram stft_abs row = inr spec /\ dims spec = [1025; 233].
Proof.
  intros H. unfold compute_spectrogram. rewrite H. cbn. eexists. split; reflexivity.
Qed.

Lemma process_source_one_segment (track : Track) (d : gmap string (list (list num)))
    (source : string) (t : matrix) :
  targets track !! source = Some t -> 1 <= Z.of_nat (ncols t) <= 119070 ->
  exists row, process_source track d source = inr (<[source := [row]]> d) /\
              Z.of_nat (length row) = 119070.
Proof.
  intros Ht Hc. unfold process_source, getkey. rewrite Ht. cbn [mbind sum_bind].
  destruct (normalize_audio_length (stereo_to_mono (Arr2 (transpose t)))) as (b & -> & Hb).
  { intros E. apply (f_equal length) in E. rewrite length_mono_transpose in E.
    simpl in E. lia. }
  rewrite length_mono_transpose in Hb. cbn [mbind sum_bind].
  destruct (notebook_segments b) as (segs & -> & Hn & Hrows). cbn [mbind sum_bind].
  assert ((Z.of_nat (length b) + 119069) / 119070 = 1) as H1.
  { symmetry. apply (Z.div_unique _ _ _ (Z.of_nat (length b) - 1)); lia. }
  rewrite H1 in Hn. destruct segs as [|row [|? ?]]; simpl in Hn; try lia.
  exists row. split; [reflexivity|]. inversion Hrows; assumption.
Qed.

Let one_segment (d : gmap string (list (list num))) (source : string) : Prop :=
  exists row, d !! source = Some [row] /\ Z.of_nat (length row) = 119070.

Lemma process_sources (track : Track) :
  Forall (fun source => exists t, targets track !! source = Some t /\
                                  1 <= Z.of_nat (ncols t) <= 119070) SOURCES ->
  exists d, for_list (process_source track) ∅ SOURCES = inr d /\
            Forall (one_segment d) SOURCES.
Proof.
  unfold SOURCES. intros H.
  apply Forall_cons in H as [(t1 & Ht1 & Hc1) H].
  apply Forall_cons in H as [(t2 & Ht2 & Hc2) H].
  apply Forall_cons in H as [(t3 & Ht3 & Hc3) H].
  apply Forall_cons in H as [(t4 & Ht4 & Hc4) _].
  cbn [for_list].
  destruct (process_source_one_segment track ∅ _ t1 Ht1 Hc1) as (r1 & -> & Hr1).
  cbn [mbind sum_bind].
  destruct (process_source_one_segment track (<["vocals" := [r1]]> ∅) _ t2 Ht2 Hc2)
    as (r2 & -> & Hr2).
  cbn [mbind sum_bind].
  destruct (process_source_one_segment track
              (<["drums" := [r2]]> (<["vocals" := [r1]]> ∅)) _ t3 Ht3 Hc3)
    as (r3 & -> & Hr3).
  cbn [mbind sum_bind].
  destruct (process_source_one_segment track
              (<["bass" := [r3]]> (<["drums" := [r2]]> (<["vocals" := [r1]]> ∅)))
              _ t4 Ht4 Hc4)
    as (r4 & -> & Hr4).
  cbn [mbind sum_bind].
  eexists. split; [reflexivity|].
  repeat apply Forall_cons_2; try apply Forall_nil_2.
  - exists r1. split; [|exact Hr1].
    rewrite !lookup_insert_ne by discriminate. apply lookup_insert_eq.
  - exists r2. split; [|exact Hr2].
    rewrite !lookup_insert_ne by discriminate. apply lookup_insert_eq.
  - exists r3. split; [|exact Hr3].
    rewrite !lookup_insert_ne by discriminate. apply lookup_insert_eq.
  - exists r4. split; [|exact Hr4]. apply lookup_insert_eq.
Qed.

(** The spectrograms of the sources for segment [i]: there is a segment 0
    and no other. *)
Lemma segment_sources_first (d : gmap string (list (list num))) (done : list Array)
    (sources : list string) :
  Forall (one_segment d) sources ->
  exists specs,
    for_list (fun segment_sources source =>
                segments ← getkey d source;
                segment ← getrow segments 0;
                source_spec ← compute_spectrogram stft_abs segment;
                inr (segment_sources ++ [source_spec])) done sources
      = inr (done ++ specs) /\
    length specs = length sources /\
    Forall (fun spec => dims spec = [1025; 233]) specs.
Proof.
  intros H. revert done. induction H as [|source sources (row & Hd & Hrow) _ IH]; intros done.
  - exists []. rewrite app_nil_r. repeat split. constructor.
  - cbn [for_list].
    assert (getkey d source = inr [row]) as -> by (unfold getkey; rewrite Hd; reflexivity).
    cbn [mbind sum_bind].
    change (getrow [row] 0) with (@inr Exception _ row). cbn [mbind sum_bind].
    destruct (compute_spectrogram_segment row Hrow) as (spec & -> & Hspec).
    cbn [mbind sum_bind].
    destruct (IH (done ++ [spec])) as (specs & -> & Hlen & Hall).
    exists (spec :: specs). rewrite <- app_assoc. split; [reflexivity|].
    split; [simpl; lia|]. constructor; assumption.
Qed.

Lemma segment_sources_later (d : gmap string (list (list num))) (i : Z) :
  1 <= i -> Forall (one_segment d) SOURCES ->
  for_list (fun segment_sources source =>
              segments ← getkey d source;
              segment ← getrow segments i;
              source_spec ← compute_spectrogram stft_abs segment;
              inr (segment_sources ++ [source_spec])) [] SOURCES
    = inl (Raised IndexError).
Proof.
  intros Hi H. unfold SOURCES in *. apply Forall_cons in H as [(row & Hd & _) _].
  cbn [for_list].
  assert (getkey d "vocals" = inr [row]) as -> by (unfold getkey; rewrite Hd; reflexivity).
  cbn [mbind sum_bind].
  assert (getrow [row] i = inl (Raised IndexError)) as ->; [|reflexivity].
  unfold getrow. change (Z.of_nat (length [row])) with 1.
  assert ((i <? 0) = false) as -> by (apply Z.ltb_ge; lia).
  assert ((i <? 1) = false) as -> by (apply Z.ltb_ge; lia).
  rewrite andb_false_r. reflexivity.
Qed.

Lemma np_stack_same (a : Array) (rest : list Array) (s : list Z) :
  Forall (fun b => dims b = s) (a :: rest) ->
  exists stacked, np_stack (a :: rest) = inr stacked /\
                  dims stacked = Z.of_nat (length (a :: rest)) :: s.
Proof.
  intros H. apply Forall_cons in H as [Ha Hrest]. unfold np_stack.
  assert (forallb (fun b => bool_decide (dims b = dims a)) rest = true) as ->.
  { apply forallb_forall. intros b Hb. apply bool_decide_eq_true.
    rewrite Forall_forall in Hrest. rewrite Ha. apply Hrest.
    apply list_elem_of_In. exact Hb. }
  eexists. split; [reflexivity|]. cbn [dims]. rewrite Ha. reflexivity.
Qed.

Lemma getrow_in_range {A} (a : list A) (i : Z) :
  0 <= i < Z.of_nat (length a) ->
  exists r, getrow a i = inr r /\ a !! Z.to_nat i = Some r.
Proof.
  intros Hi. unfold getrow.
  assert ((i <? 0) = false) as -> by (apply Z.ltb_ge; lia).
  assert ((0 <=? i) && (i <? Z.of_nat (length a)) = true) as ->
    by (apply andb_true_iff; split; [apply Z.leb_le|apply Z.ltb_lt]; lia).
  destruct (lookup_lt_is_Some_2 a (Z.to_nat i) ltac:(lia)) as [r Hr].
  exists r. rewrite Hr. split; reflexivity.
Qed.

Lemma process_segment_first (mix_segments : list (list num))
    (d : gmap string (list (list num))) (xs ys : list Array) :
  mix_segments <> [] ->
  Forall (fun row => Z.of_nat (length row) = 119070) mix_segments ->
  Forall (one_segment d) SOURCES ->
  exists X y,
    process_segment stft_abs mix_segments d (xs, ys) 0 = inr (xs ++ [X], ys ++ [y]) /\
    dims X = [1025; 233] /\ dims y = [4; 1025; 233].
Proof.
  intros Hne Hrows Hd. unfold process_segment.
  destruct (getrow_in_range mix_segments 0) as (row & -> & Hrow).
  { destruct mix_segments; [congruence|]. simpl. lia. }
  cbn [mbind sum_bind].
  apply list_elem_of_lookup_2 in Hrow. rewrite Forall_forall in Hrows.
  destruct (compute_spectrogram_segment row (Hrows row Hrow)) as (X & -> & HX).
  cbn [mbind sum_bind].
  destruct (segment_sources_first d [] SOURCES Hd) as (specs & -> & Hlen & Hspecs).
  cbn [mbind sum_bind app].
  destruct specs as [|a rest]; [discriminate|].
  destruct (np_stack_same a rest _ Hspecs) as (y & -> & Hy).
  cbn [mbind sum_bind]. exists X, y. split; [reflexivity|]. split; [exact HX|].
  rewrite Hy, Hlen. reflexivity.
Qed.

Lemma process_segment_later (mix_segments : list (list num))
    (d : gmap string (list (list num))) (acc : list Array * list Array) (i : Z) :
  1 <= i < Z.of_nat (length mix_segments) ->
  Forall (fun row => Z.of_nat (length row) = 119070) mix_segments ->
  Forall (one_segment d) SOURCES ->
  process_segment stft_abs mix_segments d acc i = inl (Raised IndexError).
Proof.
  intros Hi Hrows Hd. unfold process_segment. destruct acc as [xs ys].
  destruct (getrow_in_range mix_segments i ltac:(lia)) as (row & -> & Hrow).
  cbn [mbind sum_bind].
  apply list_elem_of_lookup_2 in Hrow. rewrite Forall_forall in Hrows.
  destruct (compute_spectrogram_segment row (Hrows row Hrow)) as (X & -> & HX).
  cbn [mbind sum_bind].
  rewrite segment_sources_later by (try assumption; lia). reflexivity.
Qed.

(** One track: its mixture is cut by rows, its sources by columns. *)
Lemma process_track_outcome (track : Track) (xs ys : list Array) :
  Forall (fun source => exists t, targets track !! source = Some t /\
                                  1 <= Z.of_nat (ncols t) <= 119070) SOURCES ->
  1 <= Z.of_nat (length (rows (audio track))) ->
  if Z.of_nat (length (rows (audio track))) <=? 119070
  then exists X y,
         process_track stft_abs (xs, ys) track = inr (xs ++ [X], ys ++ [y]) /\
         dims X = [1025; 233] /\ dims y = [4; 1025; 233]
  else process_track stft_abs (xs, ys) track = inl (Raised IndexError).
Proof.
  intros Hsrc Hlen. unfold process_track.
  set (mono := stereo_to_mono (Arr2 (transpose (transpose (audio track))))).
  assert (length mono = length (rows (audio track))) as Hmono.
  { unfold mono. rewrite length_mono_transpose. reflexivity. }
  destruct (normalize_audio_length mono) as (b & -> & Hb).
  { intros E. rewrite E in Hmono. simpl in Hmono. lia. }
  cbn [mbind sum_bind].
  destruct (notebook_segments b) as (segs & -> & Hn & Hrows). cbn [mbind sum_bind].
  destruct (process_sources track Hsrc) as (d & -> & Hd). cbn [mbind sum_bind].
  rewrite Hb, Hmono in Hn. set (L := Z.of_nat (length (rows (audio track)))) in *.
  destruct (floordiv_ceil L 119070 ltac:(lia) ltac:(lia)) as [_ Hc].
  replace (L + 119070 - 1) with (L + 119069) in Hc by lia. rewrite <- Hn in Hc.
  assert (segs <> []) as Hne by (intros ->; simpl in Hc; lia).
  destruct (Z.leb_spec L 119070) as [Hshort|Hlong].
  - assert (Z.of_nat (length segs) = 1) as -> by nia.
    rewrite seqZ_cons, seqZ_nil by lia. cbn [for_each].
    destruct (process_segment_first segs d xs ys Hne Hrows Hd) as (X & y & -> & HX & Hy).
    exists X, y. repeat split; assumption.
  - assert (2 <= Z.of_nat (length segs)) as H2 by nia.
    rewrite seqZ_cons by lia. rewrite (seqZ_cons (Z.succ 0)) by lia. cbn [for_each].
    destruct (process_segment_first segs d xs ys Hne Hrows Hd) as (X & y & -> & _).
    cbn [mbind sum_bind].
    rewrite process_segment_later by (try assumption; lia). reflexivity.
Qed.

End Tracks.

Section Datasets.
Import Torch Preprocessing.

Variable stft_abs : list num -> Z -> num.

Let usable (track : Track) : Prop :=
  Forall (fun source => exists t, targets track !! source = Some t /\
                                  1 <= Z.of_nat (ncols t) <= 119070) SOURCES /\
  1 <= Z.of_nat (length (rows (audio track))).

Lemma tracks_short (mus : list Track) : forall xs ys : list Array,
  Forall (fun track => usable track /\
                       Z.of_nat (length (rows (audio track))) <= 119070) mus ->
  exists Xs Ys,
    for_list (process_track stft_abs) (xs, ys) mus = inr (xs ++ Xs, ys ++ Ys) /\
    length Xs = length mus /\ length Ys = length mus /\
    Forall (fun X => dims X = [1025; 233]) Xs /\
    Forall (fun y => dims y = [4; 1025; 233]) Ys.
Proof.
  induction mus as [|track mus IH]; intros xs ys H.
  - exists [], []. rewrite !app_nil_r. repeat split; constructor.
  - apply Forall_cons in H as [[[Hsrc Hlen] Hshort] H]. cbn [for_list].
    pose proof (process_track_outcome stft_abs track xs ys Hsrc Hlen) as Ht.
    apply Z.leb_le in Hshort. rewrite Hshort in Ht.
    destruct Ht as (X & y & -> & HX & Hy). cbn [mbind sum_bind].
    destruct (IH (xs ++ [X]) (ys ++ [y]) H) as (Xs & Ys & -> & HlX & HlY & HXs & HYs).
    exists (X :: Xs), (y :: Ys). rewrite <- !app_assoc.
    split; [reflexivity|]. repeat split; try (simpl; lia); constructor; assumption.
Qed.

Lemma tracks_long (mus : list Track) : forall acc : list Array * list Array,
  Forall usable mus ->
  Exists (fun track => 119070 < Z.of_nat (length (rows (audio track)))) mus ->
  for_list (process_track stft_abs) acc mus = inl (Raised IndexError).
Proof.
  induction mus as [|track mus IH]; intros [xs ys] H Hex; [inversion Hex|].
  apply Forall_cons in H as [[Hsrc Hlen] H]. cbn [for_list].
  pose proof (process_track_outcome stft_abs track xs ys Hsrc Hlen) as Ht.
  destruct (Z.leb_spec (Z.of_nat (length (rows (audio track)))) 119070) as [Hs|Hl].
  - destruct Ht as (X & y & -> & _). cbn [mbind sum_bind].
    apply IH; [exact H|]. apply Exists_cons in Hex as [Hex|Hex]; [lia|exact Hex].
  - rewrite Ht. reflexivity.
Qed.

End Datasets.

(** X25: [process_dataset] cuts the mixture along its rows but each source
    along its columns (the source is transposed before the channel mean), so
    a source always yields a single segment.  As soon as one of the (at
    most two) tracks it takes has more than 119070 samples -- more than one
    mixture segment of 3 * SEGMENT_SAMPLES samples -- the run raises
    [IndexError], at the second segment. *)
Theorem process_dataset_index_error
    (stft_abs : list Preprocessing.num -> Z -> Preprocessing.num)
    (db : list Preprocessing.Track) :
  Forall (fun track =>
            Forall (fun source =>
                      exists t, Preprocessing.targets track !! source = Some t /\
                                1 <= Z.of_nat (Preprocessing.ncols t) <= 119070)
                   Preprocessing.SOURCES /\
            1 <= Z.of_nat (length (Preprocessing.rows (Preprocessing.audio track))))
         (Preprocessing.load_musdb db) ->
  Exists (fun track =>
            119070 < Z.of_nat (length (Preprocessing.rows (Preprocessing.audio track))))
         (Preprocessing.load_musdb db) ->
  Preprocessing.process_dataset stft_abs db = inl (Raised IndexError).
Proof.
  intros Hok Hlong. unfold Preprocessing.process_dataset.
  rewrite (tracks_long stft_abs _ _ Hok Hlong). reflexivity.
Qed.

(** X26: when each of the tracks taken has between 1 and 119070 samples,
    [process_dataset] returns one example per track, of at most two tracks:
    mixtures shaped (k, 1, 1025, 233) and sources shaped (k, 4, 1025, 233),
    every spectrogram computed from a segment of 119070 samples. *)
Theorem process_dataset_one_segment_per_track
    (stft_abs : list Preprocessing.num -> Z -> Preprocessing.num)
    (db : list Preprocessing.Track) :
  db <> [] ->
  Forall (fun track =>
            (Forall (fun source =>
                       exists t, Preprocessing.targets track !! source = Some t /\
                                 1 <= Z.of_nat (Preprocessing.ncols t) <= 119070)
                    Preprocessing.SOURCES /\
             1 <= Z.of_nat (length (Preprocessing.rows (Preprocessing.audio track)))) /\
            Z.of_nat (length (Preprocessing.rows (Preprocessing.audio track))) <= 119070)
         (Preprocessing.load_musdb db) ->
  exists X y,
    Preprocessing.process_dataset stft_abs db = inr (X, y) /\
    Preprocessing.dims X = [Z.min 2 (Z.of_nat (length db)); 1; 1025; 233] /\
    Preprocessing.dims y = [Z.min 2 (Z.of_nat (length db)); 4; 1025; 233].
Proof.
  intros Hne Hok. unfold Preprocessing.process_dataset.
  destruct (tracks_short stft_abs _ [] [] Hok) as (Xs & Ys & -> & HlX & HlY & HXs & HYs).
  cbn [mbind sum_bind app].
  assert (Z.of_nat (length (Preprocessing.load_musdb db)) = Z.min 2 (Z.of_nat (length db)))
    as Hk by (unfold Preprocessing.load_musdb; rewrite length_take; lia).
  assert (1 <= Z.of_nat (length (Preprocessing.load_musdb db))) as Hpos.
  { rewrite Hk. destruct db; [congruence|]. simpl. lia. }
  destruct Xs as [|X0 Xs]; [simpl in HlX; lia|].
  destruct Ys as [|y0 Ys]; [simpl in HlY; lia|].
  destruct (np_stack_same X0 Xs _ HXs) as (X & -> & HX).
  destruct (np_stack_same y0 Ys _ HYs) as (y & -> & Hy).
  cbn [mbind sum_bind]. eexists. eexists. split; [reflexivity|].
  unfold Preprocessing.unsqueeze1. cbn [Preprocessing.dims].
  rewrite HX, Hy, HlX, HlY, Hk. split; reflexivity.
Qed.

Lemma constant_track_usable (samples : Z) :
  1 <= samples ->
  Forall (fun source =>
            exists t, Preprocessing.targets (Preprocessing.constant_track samples) !! source
                        = Some t /\
                      1 <= Z.of_nat (Preprocessing.ncols t) <= 119070)
         Preprocessing.SOURCES /\
  1 <= Z.of_nat (length (Preprocessing.rows
                           (Preprocessing.audio (Preprocessing.constant_track samples)))) /\
  Z.of_nat (length (Preprocessing.rows
                      (Preprocessing.audio (Preprocessing.constant_track samples))))
    = samples.
Proof.
  intros Hs. split; [|split].
  - unfold Preprocessing.SOURCES.
    repeat apply Forall_cons_2; try apply Forall_nil_2;
      exists (Preprocessing.constant_stereo samples); (split; [reflexivity|simpl; lia]).
  - cbn [Preprocessing.constant_track Preprocessing.audio Preprocessing.constant_stereo
         Preprocessing.rows]. rewrite length_replicate. lia.
  - cbn [Preprocessing.constant_track Preprocessing.audio Preprocessing.constant_stereo
         Preprocessing.rows]. rewrite length_replicate. lia.
Qed.

Lemma process_dataset_index_error_witness :
  Preprocessing.process_dataset (fun _ _ => Preprocessing.Num 0)
    [Preprocessing.constant_track 119071] = inl (Raised IndexError).
Proof.
  apply (process_dataset_index_error (fun _ _ => Preprocessing.Num 0)
           [Preprocessing.constant_track 119071]).
  - apply Forall_cons_2; [|apply Forall_nil_2].
    destruct (constant_track_usable 119071 ltac:(lia)) as (H1 & H2 & _).
    split; assumption.
  - apply Exists_cons_hd.
    destruct (constant_track_usable 119071 ltac:(lia)) as (_ & _ & ->). lia.
Defined.

Lemma process_dataset_one_segment_per_track_witness :
  exists X y,
    Preprocessing.process_dataset (fun _ _ => Preprocessing.Num 0)
      [Preprocessing.constant_track 119070; Preprocessing.constant_track 5;
       Preprocessing.constant_track 7] = inr (X, y) /\
    Preprocessing.dims X = [2; 1; 1025; 233] /\
    Preprocessing.dims y = [2; 4; 1025; 233].
Proof.
  apply (process_dataset_one_segment_per_track (fun _ _ => Preprocessing.Num 0)
           [Preprocessing.constant_track 119070; Preprocessing.constant_track 5;
            Preprocessing.constant_track 7]); [discriminate|].
  apply Forall_cons_2; [|apply Forall_cons_2; [|apply Forall_nil_2]].
  - destruct (constant_track_usable 119070 ltac:(lia)) as (H1 & H2 & H3).
    split; [split; assumption|]. rewrite H3. lia.
  - destruct (constant_track_usable 5 ltac:(lia)) as (H1 & H2 & H3).
    split; [split; assumption|]. rewrite H3. lia.
Defined.
